(** * IPM tracker: timetable extraction, roster lookup, attendance and
      calendar reconciliation

    A shallow embedding of the TypeScript modules [lib/sheets.ts],
    [lib/attendance-logic.ts], [lib/calendar.ts] and of the handler of
    [app/api/calendar/sync/route.ts].

    Conventions of the embedding.
    - A JavaScript string is a [string]; characters are 8-bit, case mapping
      is the ASCII one and the whitespace class [\s] is the ASCII one
      (tab, line feed, vertical tab, form feed, carriage return, space).
    - [undefined] and [null] are [None]; a value [v] of an optional chain
      is [Some v].  Truthiness of an optional string is [truthy].
    - A [Record<string, T>] used as a dictionary is a [gmap string T] of
      its own properties.  The dictionaries of the source are object
      literals, so where the source reads [obj[key]] the members inherited
      from [Object.prototype] are there as well: [inherited] tells their
      names.  (Assignment under the key [__proto__], which sets the
      prototype and no property, is outside the model.)  Where the source
      iterates a dictionary with [Object.entries], the dictionary is given
      by that sequence.
    - Date arithmetic and number parsing of the host are parameters. *)

From Stdlib Require Import ZArith QArith Qround Ascii String DecimalString SpecFloat.
From stdpp Require Import base option list gmap strings.

Local Open Scope string_scope.
Local Open Scope list_scope.

(** ** Text primitives *)

Module Text.

Definition chars (s : string) : list ascii := list_ascii_of_string s.
Definition str (l : list ascii) : string := string_of_list_ascii l.

Definition code (c : ascii) : nat := nat_of_ascii c.

(** [\s] *)
Definition isSpace (c : ascii) : bool := Ascii.is_space c.

(** [\d] *)
Definition isDigit (c : ascii) : bool :=
  (48 <=? code c)%nat && (code c <=? 57)%nat.

Definition isUpper (c : ascii) : bool :=
  (65 <=? code c)%nat && (code c <=? 90)%nat.

Definition isLower (c : ascii) : bool :=
  (97 <=? code c)%nat && (code c <=? 122)%nat.

(** [[a-zA-Z0-9]] *)
Definition isAlnum (c : ascii) : bool := isLower c || isUpper c || isDigit c.

Definition lowerChar (c : ascii) : ascii :=
  if isUpper c then ascii_of_nat (code c + 32) else c.

Definition upperChar (c : ascii) : ascii :=
  if isLower c then ascii_of_nat (code c - 32) else c.

Fixpoint dropWhile {A} (p : A -> bool) (l : list A) : list A :=
  match l with
  | [] => []
  | x :: l' => if p x then dropWhile p l' else l
  end.

Fixpoint takeWhile {A} (p : A -> bool) (l : list A) : list A :=
  match l with
  | [] => []
  | x :: l' => if p x then x :: takeWhile p l' else []
  end.

Definition trimStartL (l : list ascii) : list ascii := dropWhile isSpace l.
Fixpoint trimEndL (l : list ascii) : list ascii :=
  match l with
  | [] => []
  | c :: l' =>
      match trimEndL l' with
      | [] => if isSpace c then [] else [c]
      | t => c :: t
      end
  end.
Definition trimL (l : list ascii) : list ascii := trimEndL (trimStartL l).

(** [s.trim()] *)
Definition trim (s : string) : string := str (trimL (chars s)).

(** [s.toLowerCase()], [s.toUpperCase()] *)
Definition toLowerCase (s : string) : string := str (map lowerChar (chars s)).
Definition toUpperCase (s : string) : string := str (map upperChar (chars s)).

Fixpoint isPrefix (p l : list ascii) : bool :=
  match p, l with
  | [], _ => true
  | _ :: _, [] => false
  | a :: p', b :: l' => bool_decide (a = b) && isPrefix p' l'
  end.

Fixpoint includesL (p l : list ascii) : bool :=
  isPrefix p l ||
  match l with
  | [] => false
  | _ :: l' => includesL p l'
  end.

(** [s.includes(sub)] *)
Definition includes (s sub : string) : bool := includesL (chars sub) (chars s).

(** [s.split(/\s+/)]: the pieces between the maximal runs of whitespace;
    a leading or trailing run leaves an empty piece at that end. *)
Fixpoint splitWsGo (inSep : bool) (cur : list ascii) (l : list ascii)
  : list (list ascii) :=
  match l with
  | [] => [rev cur]
  | c :: l' =>
      if isSpace c then
        if inSep then splitWsGo true cur l'
        else rev cur :: splitWsGo true [] l'
      else splitWsGo false (c :: cur) l'
  end.

Definition splitWs (s : string) : list string :=
  map str (splitWsGo false [] (chars s)).

(** [s.replace(/[^a-zA-Z0-9]/g, '')] *)
Definition stripNonAlnum (s : string) : string :=
  str (filter (fun c => Is_true (isAlnum c)) (chars s)).

Definition newline : ascii := ascii_of_nat 10.
Definition space : ascii := ascii_of_nat 32.

(** [s.replace(/\n/g, ' ')] *)
Definition newlinesToSpacesL (l : list ascii) : list ascii :=
  map (fun c => if bool_decide (c = newline) then space else c) l.
Definition newlinesToSpaces (s : string) : string :=
  str (newlinesToSpacesL (chars s)).

(** [s.replace(/\s+/g, ' ')]: every maximal run of whitespace becomes one
    space. *)
Fixpoint collapseWsL (inRun : bool) (l : list ascii) : list ascii :=
  match l with
  | [] => []
  | c :: l' =>
      if isSpace c then
        if inRun then collapseWsL true l' else space :: collapseWsL true l'
      else c :: collapseWsL false l'
  end.
Definition collapseWs (s : string) : string :=
  str (collapseWsL false (chars s)).

(** Decimal rendering of a number inside a template literal. *)
Definition ofNat (n : nat) : string :=
  NilEmpty.string_of_uint (Nat.to_uint n).

End Text.

(** ** JavaScript truthiness on optional strings *)

Definition truthy (o : option string) : bool :=
  match o with
  | Some s => negb (bool_decide (s = ""))
  | None => false
  end.

(** [a || b] on optional strings. *)
Definition orElse (a b : option string) : option string :=
  if truthy a then a else b.

(** ** Object literals

    The names every object literal inherits from [Object.prototype].
    [obj[name]] is then a function, and for [__proto__] the prototype
    itself: a truthy value in either case. *)
Definition prototypeNames : list string :=
  [ "constructor"; "toString"; "toLocaleString"; "valueOf";
    "hasOwnProperty"; "isPrototypeOf"; "propertyIsEnumerable";
    "__proto__"; "__defineGetter__"; "__defineSetter__";
    "__lookupGetter__"; "__lookupSetter__" ].

Definition inherited (key : string) : bool :=
  bool_decide (key ∈ prototypeNames).

(** The [name] property of the inherited member [obj[key]]: the name of
    the function, which is the key except for the constructor [Object];
    [Object.prototype] has none. *)
Definition inheritedName (key : string) : option string :=
  if negb (inherited key) || bool_decide (key = "__proto__") then None
  else if bool_decide (key = "constructor") then Some "Object"
  else Some key.

(** ** Data model ([types/index.ts]) *)

Inductive Section_ := SecA | SecB.

Global Instance Section_eq_dec : EqDecision Section_.
Proof. solve_decision. Defined.

Definition sectionName (s : Section_) : string :=
  match s with SecA => "A" | SecB => "B" end.

(** The values ['A'] and ['B'] of a string, as the comparisons
    [x === 'A' || x === 'B'] of the source recognise them. *)
Definition sectionOfString (s : string) : option Section_ :=
  if bool_decide (s = "A") then Some SecA
  else if bool_decide (s = "B") then Some SecB
  else None.

(** [Course]: the field [type] is declared as the union
    ['Core' | 'Elective' | 'Unknown'], but it is filled by a cast and holds
    whatever text the catalog has; it is a string here.  [credits] is a
    host number, of a type [num] left abstract. *)
Record Course (num : Type) := mkCourse {
  code : string;
  name : string;
  credits : num;
  type : string;
}.
Arguments mkCourse {num}.
Arguments code {num}.
Arguments name {num}.
Arguments credits {num}.
Arguments type {num}.

Record ClassSession := mkSession {
  date : string;
  timeSlot : string;
  courseCode : string;
  sessionNumber : string;
  section : option Section_;
  raw : string;
  isCancelled : bool;
}.

Global Instance ClassSession_eq_dec : EqDecision ClassSession.
Proof. solve_decision. Defined.

Record UserProfile := mkProfile {
  email : string;
  userSection : Section_;
  electives : list string;
}.

(** ** Attendance filter ([lib/attendance-logic.ts]) *)

Section Filter.
Context {num : Type}.

(** The callback of [rawSchedule.filter]. *)
Definition keepSession (courses : gmap string (Course num))
    (userProfile : UserProfile) (session : ClassSession) : bool :=
  match courses !! courseCode session with
  | None => true
  | Some course =>
      if bool_decide (type course = "Elective") then
        bool_decide (courseCode session ∈ electives userProfile)
      else if bool_decide (type course = "Core") then
        match section session with
        | Some sec => bool_decide (sec = userSection userProfile)
        | None => true
        end
      else true
  end.

Definition filterClassesForUser (rawSchedule : list ClassSession)
    (courses : gmap string (Course num)) (userProfile : UserProfile)
  : list ClassSession :=
  filter (fun s => Is_true (keepSession courses userProfile s)) rawSchedule.

End Filter.

(** ** Spreadsheet parsers ([lib/sheets.ts]) *)

(** *** Course catalog *)

Section Catalog.
Context {num : Type}.
(** [Number(x)], the truthiness of a number, and the literal [0]. *)
Variable Number : option string -> num.
Variable numTruthy : num -> bool.
Variable zero : num.

(** [row[4]?.replace(/\n/g, ' ').replace(/\s+/g, ' ').trim()] *)
Definition normalizeType (s : string) : string :=
  Text.trim (Text.collapseWs (Text.newlinesToSpaces s)).

(** The callback of [rows.slice(1).forEach]. *)
Definition parseCourseRow (courses : gmap string (Course num))
    (row : list string) : gmap string (Course num) :=
  match Text.trim <$> row !! 3 with
  | Some code =>
      if bool_decide (code = "") then courses
      else
        <[ code :=
           {| code := code;
              name := default "" (orElse (Text.trim <$> row !! 1) (Some ""));
              credits := (let n := Number (row !! 2) in
                          if numTruthy n then n else zero);
              type := default "Unknown"
                        (orElse (normalizeType <$> row !! 4) (Some "Unknown"))
           |} ]> courses
  | None => courses
  end.

Definition parseCourses (rows : list (list string)) : gmap string (Course num) :=
  fold_left parseCourseRow (drop 1 rows) ∅.

End Catalog.

(** *** Timetable grid *)

(** A cell of the grid: [userEnteredValue?.stringValue], [formattedValue]
    and [effectiveFormat?.textFormat?.strikethrough]. *)
Record CellData := mkCell {
  stringValue : option string;
  formattedValue : option string;
  strikethrough : option bool;
}.

Record RowData := mkRow { values : option (list CellData) }.

Record GridData := mkGrid { rowData : option (list RowData) }.

(** [cell?.userEnteredValue?.stringValue || cell?.formattedValue] *)
Definition cellText (cell : option CellData) : option string :=
  orElse (cell ≫= stringValue) (cell ≫= formattedValue).

Module Header.
Import Text.

Definition keywordAt (l : list ascii) : bool :=
  existsb (fun k => isPrefix (chars k) l) ["am"; "pm"; "noon"; "AM"; "PM"].

(** [:\d{2}\s*(?:am|pm|noon|AM|PM)] *)
Definition minutesAt (l : list ascii) : bool :=
  match l with
  | c :: a :: b :: r =>
      bool_decide (c = ":"%char) && isDigit a && isDigit b
      && keywordAt (dropWhile isSpace r)
  | _ => false
  end.

(** [\d{1,2}:\d{2}\s*(?:am|pm|noon|AM|PM)] at the head of [l]. *)
Definition timeAt (l : list ascii) : bool :=
  match l with
  | d :: r =>
      isDigit d &&
      (match r with
       | d2 :: r2 => isDigit d2 && minutesAt r2
       | [] => false
       end || minutesAt r)
  | [] => false
  end.

(** Whether
    [/(\d{1,2}:\d{2}\s*(?:am|pm|noon|AM|PM)[\s\S]*?)(?:\r\n|\r|\n|$)/]
    matches: the lazy tail can always run to the end of the text, so the
    pattern matches exactly when the time prefix occurs somewhere. *)
Fixpoint hasTimeL (l : list ascii) : bool :=
  timeAt l ||
  match l with
  | [] => false
  | _ :: l' => hasTimeL l'
  end.

(** [/Slot\s*\d+\s*/i] at the head of [l]: the text after the match. *)
Definition slotLabelAt (l : list ascii) : option (list ascii) :=
  if isPrefix (chars "slot") (map lowerChar l) then
    let r := dropWhile isSpace (drop 4 l) in
    match takeWhile isDigit r with
    | [] => None
    | _ :: _ => Some (dropWhile isSpace (dropWhile isDigit r))
    end
  else None.

(** [s.replace(/Slot\s*\d+\s*/i, '')]: the leftmost match is removed. *)
Fixpoint removeSlotLabelL (l : list ascii) : list ascii :=
  match slotLabelAt l with
  | Some rest => rest
  | None =>
      match l with
      | [] => []
      | c :: l' => c :: removeSlotLabelL l'
      end
  end.

(** The body of the [for] loop over the header row; [i] is the column. *)
Definition cleanSlot (i : nat) (cell : option CellData) : string :=
  let cleanSlot :=
    default ("Slot " +:+ ofNat (i - 2))
      (orElse (cellText cell) (Some ("Slot " +:+ ofNat (i - 2)))) in
  if hasTimeL (chars cleanSlot) then
    let cleanSlot := trim (str (removeSlotLabelL (chars cleanSlot))) in
    trim (newlinesToSpaces cleanSlot)
  else cleanSlot.

(** [for (let i = 3; i < headerRow.length; i++) timeSlots.push(...)] *)
Definition timeSlots (headerRow : list CellData) : list string :=
  imap (fun j c => cleanSlot (3 + j) (Some c)) (drop 3 headerRow).

End Header.

Section Grid.
Context {num : Type}.
Variable courses : gmap string (Course num).

(** [courses[courseCode]] is truthy: the code is a key of the mapping,
    or the name of a member the object literal inherits. *)
Definition hasCourse (courseCode : string) : bool :=
  bool_decide (is_Some (courses !! courseCode)) || inherited courseCode.

(** The course-code validation: the first token as it is when
    [courses[courseCode]] is truthy, else with its non-alphanumeric
    characters removed when that makes it truthy, else nothing. *)
Definition resolveCode (token : string) : option string :=
  if hasCourse token then Some token
  else
    let stripped := Text.stripNonAlnum token in
    if hasCourse stripped then Some stripped else None.

(** The two assignments to [section]: the third token when it is an
    ['A'] or ['B'] in either case, else the row section when it is ['A']
    or ['B']. *)
Definition resolveSection (parts : list string) (rowSection : option string)
  : option Section_ :=
  match (parts !! 2) ≫= (fun p => sectionOfString (Text.toUpperCase p)) with
  | Some sec => Some sec
  | None => rowSection ≫= sectionOfString
  end.

(** The callback of [timeSlots.forEach]: the session of one cell. *)
Definition parseCell (date : string) (rowSection : option string)
    (slotName : string) (cell : option CellData) : option ClassSession :=
  match cellText cell, cell with
  | Some text, Some c =>
      if bool_decide (text = "") || bool_decide (Text.trim text = "")
         || Text.includes (Text.toLowerCase text) "lunch"
         || Text.includes (Text.toLowerCase text) "break"
      then None
      else
        let parts := Text.splitWs (Text.trim text) in
        match parts with
        | [] => None
        | first :: _ =>
            let sessionNumber := default "" (orElse (parts !! 1) (Some "")) in
            match resolveCode first with
            | None => None
            | Some courseCode =>
                Some {| date := date;
                        timeSlot := slotName;
                        courseCode := courseCode;
                        sessionNumber := sessionNumber;
                        section := resolveSection parts rowSection;
                        raw := text;
                        isCancelled :=
                          bool_decide (strikethrough c = Some true) |}
            end
        end
  | _, _ => None
  end.

(** [row.values?.some((c, i) => i > 0 && (...))] *)
Definition hasData (row : RowData) : bool :=
  match values row with
  | Some cells => existsb (fun c => truthy (cellText (Some c))) (drop 1 cells)
  | None => false
  end.

(** [row.values?.[i]] *)
Definition cellAt (row : RowData) (i : nat) : option CellData :=
  values row ≫= (fun cells => cells !! i).

Definition rowDate (row : RowData) : option string := cellText (cellAt row 0).

Definition rowSectionOf (row : RowData) : option string :=
  Text.trim <$> cellText (cellAt row 2).

(** The sessions of a row once its date is known. *)
Definition rowSessions (timeSlots : list string) (date : string)
    (row : RowData) : list ClassSession :=
  omap id
    (imap (fun i slotName =>
             parseCell date (rowSectionOf row) slotName (cellAt row (i + 3)))
          timeSlots).

(** The callback of [rows.slice(2).forEach]; the state is [lastDate] and
    the [sessions] pushed so far. *)
Definition parseRow (timeSlots : list string)
    (st : option string * list ClassSession) (row : RowData)
  : option string * list ClassSession :=
  let '(lastDate, sessions) := st in
  if negb (hasData row) then st
  else
    match (if truthy (rowDate row) then rowDate row
           else if truthy lastDate then lastDate else None) with
    | Some date => (Some date, sessions ++ rowSessions timeSlots date row)
    | None => st
    end.

Definition parseRows (timeSlots : list string) (rows : list RowData)
  : option string * list ClassSession :=
  fold_left (parseRow timeSlots) rows (None, []).

Definition parseSchedule (data : GridData) : list ClassSession :=
  match rowData data with
  | None => []
  | Some rows =>
      if (length rows <? 3)%nat then []
      else
        match rows !! 1 ≫= values with
        | None => []
        | Some headerRow =>
            (parseRows (Header.timeSlots headerRow) (drop 2 rows)).2
        end
  end.

End Grid.

(** *** Roster lookup *)

(** [row[3]?.trim().toLowerCase() === targetEmail] *)
Definition emailMatches (targetEmail : string) (row : list string) : bool :=
  bool_decide ((fun e => Text.toLowerCase (Text.trim e)) <$> row !! 3
               = Some targetEmail).

(** The section read from column J of the roster row that was found. *)
Definition sectionOfRow (studentRow : option (list string)) : Section_ :=
  match studentRow with
  | Some row =>
      match (row !! 9) ≫=
            (fun v => sectionOfString (Text.toUpperCase (Text.trim v))) with
      | Some sec => sec
      | None => SecA
      end
  | None => SecA
  end.

(** [electiveRowsMap] is given as its [Object.entries]. *)
Definition parseStudentProfile (email : string)
    (studentRows : list (list string))
    (electiveRowsMap : list (string * list (list string))) : UserProfile :=
  let targetEmail := Text.toLowerCase (Text.trim email) in
  let studentRow := List.find (emailMatches targetEmail) studentRows in
  {| email := email;
     userSection := sectionOfRow studentRow;
     electives :=
       (filter (fun entry => Is_true (existsb (emailMatches targetEmail) entry.2))
               electiveRowsMap).*1 |}.

(** ** Attendance statistics ([lib/attendance-logic.ts]) *)

Record CourseStat := mkStat {
  total : nat;
  attended : nat;
  leaves : nat;
  allowedLeaves : nat;
}.

(** [`${code}-${session.sessionNumber}`] *)
Definition sessionKey (session : ClassSession) : string :=
  courseCode session +:+ "-" +:+ sessionNumber session.

Definition addTotal (st : CourseStat) : CourseStat :=
  {| total := total st + 1; attended := attended st;
     leaves := leaves st; allowedLeaves := allowedLeaves st |}.

Definition addAttended (st : CourseStat) : CourseStat :=
  {| total := total st; attended := attended st + 1;
     leaves := leaves st; allowedLeaves := allowedLeaves st |}.

Definition addLeave (st : CourseStat) : CourseStat :=
  {| total := total st; attended := attended st;
     leaves := leaves st + 1; allowedLeaves := allowedLeaves st |}.

(** The callback of [sessions.forEach].  [stats] is an object literal:
    for a code that is the name of an inherited member, [stats[code]] is
    truthy from the start, no record is created, and the counters are
    written on the inherited member, which [stats] does not hold
    ([alter] leaves it as it is). *)
Definition countSession (attendance : gmap string string)
    (stats : gmap string CourseStat) (session : ClassSession)
  : gmap string CourseStat :=
  let code := courseCode session in
  let key := sessionKey session in
  let stats :=
    if bool_decide (is_Some (stats !! code)) || inherited code then stats
    else <[ code := mkStat 0 0 0 0 ]> stats in
  let stats := alter addTotal code stats in
  let status := attendance !! key in
  if bool_decide (status = Some "Present") then alter addAttended code stats
  else if bool_decide (status = Some "Absent") then alter addLeave code stats
  else stats.

(** [Math.floor(total * 0.20)], in exact arithmetic. *)
Definition floorOfFifth (total : nat) : nat :=
  Z.to_nat (Qfloor (inject_Z (Z.of_nat total) * (20 # 100))).

(** The callback of [Object.keys(stats).forEach]. *)
Definition setAllowedLeaves (st : CourseStat) : CourseStat :=
  {| total := total st; attended := attended st; leaves := leaves st;
     allowedLeaves := floorOfFifth (total st) |}.

Definition calculateStats (sessions : list ClassSession)
    (attendance : gmap string string) : gmap string CourseStat :=
  setAllowedLeaves <$> fold_left (countSession attendance) sessions ∅.

(** The same product in IEEE 754 binary64, as the host evaluates it. *)
Module Binary64.
Definition prec : Z := 53.
Definition emax : Z := 1024.

Definition ofNat (n : nat) : spec_float :=
  binary_normalize prec emax (Z.of_nat n) 0 false.

(** The literal [0.20]: 3602879701896397 * 2^-54. *)
Definition fifth : spec_float := S754_finite false 3602879701896397 (-54).

Definition mul : spec_float -> spec_float -> spec_float := SFmul prec emax.

(** [Math.floor] of a finite double. *)
Definition floor (f : spec_float) : Z :=
  match f with
  | S754_finite s m e =>
      let v := if s then Z.neg m else Z.pos m in
      if (0 <=? e)%Z then (v * 2 ^ e)%Z else (v / 2 ^ (- e))%Z
  | _ => 0%Z
  end.

Definition floorOfFifth (total : nat) : Z := floor (mul (ofNat total) fifth).
End Binary64.

(** ** Calendar reconciler ([lib/calendar.ts]) *)

(** *** The remote calendar

    The calendar service is an external collaborator.  It is modelled by
    the events it holds, in creation order, and the next identifier it will
    issue.  Times are milliseconds since the epoch. *)

Record EventBody := mkBody {
  summary : string;
  description : string;
  startTime : Z;
  endTime : Z;
  (** [extendedProperties.private.source] and [.signature] *)
  source : option string;
  signature : option string;
}.

Global Instance EventBody_eq_dec : EqDecision EventBody.
Proof. solve_decision. Defined.

Record Event := mkEvent { eventId : nat; body : EventBody }.

Global Instance Event_eq_dec : EqDecision Event.
Proof. solve_decision. Defined.

Record Remote := mkRemote { events : list Event; nextId : nat }.

Definition emptyRemote : Remote := mkRemote [] 0.

(** [events.list] with [timeMin] and
    [privateExtendedProperty: ["source=ipm-tracker"]]: the tagged events
    that end after [timeMin]. *)
Definition listed (timeMin : Z) (e : Event) : bool :=
  bool_decide (source (body e) = Some "ipm-tracker")
  && (timeMin <? endTime (body e))%Z.

Definition eventsList (timeMin : Z) (r : Remote) : list Event :=
  filter (fun e => Is_true (listed timeMin e)) (events r).

Definition hasEvent (id : nat) (r : Remote) : bool :=
  existsb (fun e => bool_decide (eventId e = id)) (events r).

(** [events.insert]: the service issues the identifier. *)
Definition eventsInsert (b : EventBody) (r : Remote) : Remote :=
  {| events := events r ++ [mkEvent (nextId r) b]; nextId := S (nextId r) |}.

(** [events.update]: fails when no event has the identifier. *)
Definition eventsUpdate (id : nat) (b : EventBody) (r : Remote) : option Remote :=
  if hasEvent id r then
    Some {| events := map (fun e => if bool_decide (eventId e = id)
                                    then mkEvent id b else e) (events r);
            nextId := nextId r |}
  else None.

(** [events.delete]: fails when no event has the identifier. *)
Definition eventsDelete (id : nat) (r : Remote) : option Remote :=
  if hasEvent id r then
    Some {| events := filter (fun e => eventId e ≠ id) (events r);
            nextId := nextId r |}
  else None.

(** *** The reconciler *)

(** A remote call that was made, with the session it was made for. *)
Inductive Op :=
| Insert (b : EventBody)
| Update (id : nat) (b : EventBody)
| Delete (id : nat).

Definition isInsert (o : Op) : bool := match o with Insert _ => true | _ => false end.
Definition isUpdate (o : Op) : bool := match o with Update _ _ => true | _ => false end.
Definition isDelete (o : Op) : bool := match o with Delete _ => true | _ => false end.

(** The state of a run: the remote calendar, the calls made so far, and
    whether the run is still going ([false] once a call or the
    construction of an event has thrown). *)
Record Run := mkRun {
  remote : Remote;
  ops : list (ClassSession * Op);
  completed : bool;
}.

Definition countOps (p : Op -> bool) (run : Run) : nat :=
  length (filter (fun so => Is_true (p so.2)) (ops run)).

Definition inserts : Run -> nat := countOps isInsert.
Definition updates : Run -> nat := countOps isUpdate.
Definition deletes : Run -> nat := countOps isDelete.

(** [`${session.date}-${session.timeSlot}-${session.courseCode}`] *)
Definition signatureOf (session : ClassSession) : string :=
  date session +:+ "-" +:+ timeSlot session +:+ "-" +:+ courseCode session.

(** The [existingMap] built from the listing: later events overwrite
    earlier ones. *)
Definition existingMap (items : list Event) : gmap string nat :=
  fold_left
    (fun m e =>
       if truthy (signature (body e))
       then <[ default "" (signature (body e)) := eventId e ]> m
       else m)
    items ∅.

(** [s.split(sep)] for a one-character separator. *)
Fixpoint splitOnGo (sep : ascii) (cur : list ascii) (l : list ascii)
  : list (list ascii) :=
  match l with
  | [] => [rev cur]
  | c :: l' =>
      if bool_decide (c = sep) then rev cur :: splitOnGo sep [] l'
      else splitOnGo sep (c :: cur) l'
  end.

Definition splitOn (sep : ascii) (s : string) : list string :=
  map Text.str (splitOnGo sep [] (Text.chars s)).

Section Reconciler.
Context {num : Type}.
(** [Number(x)] *)
Variable Number : option string -> num.
(** [Date.parse(s)]; [None] is [NaN]. *)
Variable parseDate : string -> option Z.
(** [d.setHours(h, m)] on a valid date; [None] is an invalid date, whose
    [toISOString()] throws. *)
Variable setHours : Z -> num -> num -> option Z.
(** The clock: [now], and [now.setHours(0, 0, 0, 0)]. *)
Variable now : Z.
Variable startOfToday : Z.

Variable courses : gmap string (Course num).

(** The callback of [classes.filter]: [d >= new Date(now.setHours(0,0,0,0))]. *)
Definition isFuture (c : ClassSession) : bool :=
  match parseDate (date c) with
  | Some d => (startOfToday <=? d)%Z
  | None => false
  end.

Definition futureClasses (classes : list ClassSession) : list ClassSession :=
  filter (fun c => Is_true (isFuture c)) classes.

(** [timeStr.split(':').map(Number)], then [setHours] on the date. *)
Definition slotTime (d : Z) (timeStr : string) : option Z :=
  let hm := splitOn ":"%char timeStr in
  setHours d (Number (hm !! 0)) (Number (hm !! 1)).

(** The event constructed for a session; [None] when the construction
    throws. *)
Definition eventBody (session : ClassSession) : option EventBody :=
  let courseName :=
    match courses !! courseCode session with
    | Some course => Some (name course)
    | None => inheritedName (courseCode session)
    end in
  let summary :=
    courseCode session +:+ ": " +:+
    default "Class" (orElse courseName (Some "Class")) in
  let description :=
    "Session: " +:+ sessionNumber session +:+ String Text.newline "" +:+
    "Section: " +:+ from_option sectionName "Common" (section session) in
  match Text.trim <$> splitOn "-"%char (timeSlot session) with
  | startTimeStr :: endTimeStr :: _ =>
      startDate ← parseDate (date session);
      startDateTime ← slotTime startDate startTimeStr;
      endDateTime ← slotTime startDate endTimeStr;
      Some {| summary := summary;
              description := description;
              startTime := startDateTime;
              endTime := endDateTime;
              source := Some "ipm-tracker";
              signature := Some (signatureOf session) |}
  | _ => None
  end.

Definition abort (run : Run) : Run :=
  {| remote := remote run; ops := ops run; completed := false |}.

Definition record (session : ClassSession) (o : Op) (r : Remote) (run : Run)
  : Run :=
  {| remote := r; ops := ops run ++ [(session, o)]; completed := true |}.

(** The body of [for (const session of futureClasses)]. *)
Definition syncStep (existing : gmap string nat) (run : Run)
    (session : ClassSession) : Run :=
  if negb (completed run) then run
  else
    let existingEventId := existing !! signatureOf session in
    if isCancelled session then
      match existingEventId with
      | Some id =>
          match eventsDelete id (remote run) with
          | Some r => record session (Delete id) r run
          | None => abort run
          end
      | None => run
      end
    else
      match eventBody session with
      | None => abort run
      | Some b =>
          match existingEventId with
          | Some id =>
              match eventsUpdate id b (remote run) with
              | Some r => record session (Update id b) r run
              | None => abort run
              end
          | None => record session (Insert b) (eventsInsert b (remote run)) run
          end
      end.

Definition syncToCalendar (r : Remote) (classes : list ClassSession) : Run :=
  let existing := existingMap (eventsList now r) in
  fold_left (syncStep existing) (futureClasses classes) (mkRun r [] true).

End Reconciler.

(** ** The sync endpoint ([app/api/calendar/sync/route.ts]) *)

(** What [fetchFullSchedule] hands to the handler. *)
Record ScheduleData (num : Type) := mkData {
  dataCourses : gmap string (Course num);
  dataSchedule : list ClassSession;
  studentMaster : list (list string);
}.
Arguments mkData {num}.
Arguments dataCourses {num}.
Arguments dataSchedule {num}.
Arguments studentMaster {num}.

(** The server session: [accessToken] and [user?.email]. *)
Record AuthSession := mkAuth {
  accessToken : option string;
  userEmail : option string;
}.

Inductive Response :=
| Unauthorized
| ConfigurationError
| SyncError
| Success (count : nat).

Section Route.
Context {num : Type}.
Variable Number : option string -> num.
Variable parseDate : string -> option Z.
Variable setHours : Z -> num -> num -> option Z.
Variable now : Z.
Variable startOfToday : Z.

(** Steps 1 and 2 of the handler: the profile is built with [{}] for
    the elective rosters, then the schedule is filtered. *)
Definition myClasses (email : string) (data : ScheduleData num)
  : list ClassSession :=
  let userProfile := parseStudentProfile email (studentMaster data) [] in
  filterClassesForUser (dataSchedule data) (dataCourses data) userProfile.

(** [POST]: [fetched] is the outcome of [fetchFullSchedule] ([None] when
    it throws) and [r] the remote calendar.  The result is the response
    and the run of the reconciler, when it was started. *)
Definition POST (session : option AuthSession) (spreadsheetId : option string)
    (fetched : option (ScheduleData num)) (r : Remote)
  : Response * option Run :=
  match session with
  | Some {| accessToken := token; userEmail := mail |} =>
      if truthy token && truthy mail then
        if truthy spreadsheetId then
          match fetched with
          | Some data =>
              let classes := myClasses (default "" mail) data in
              let run :=
                syncToCalendar Number parseDate setHours now startOfToday
                  (dataCourses data) r classes in
              if completed run then (Success (length classes), Some run)
              else (SyncError, Some run)
          | None => (SyncError, None)
          end
        else (ConfigurationError, None)
      else (Unauthorized, None)
  | None => (Unauthorized, None)
  end.

End Route.

(** ** Sheet roles and elective rosters ([fetchFullSchedule], [lib/sheets.ts])

    The pure part of the orchestration: which sheet plays which role.  A
    sheet is given by its [properties?.title]. *)

Module Discovery.

(** [s.properties?.title?.toLowerCase().includes(keyword)] *)
Definition titleHas (keyword : string) (sheet : option string) : bool :=
  match sheet with
  | Some title => Text.includes (Text.toLowerCase title) keyword
  | None => false
  end.

(** [sheetList.find(s => ...includes(keyword))?.properties?.title] *)
Definition findTitle (keyword : string) (sheetList : list (option string))
  : option string :=
  List.find (titleHas keyword) sheetList ≫= id.

(** [find(...)?.properties?.title || sheetList[i]?.properties?.title || fallback] *)
Definition pickSheet (keyword : string) (i : nat) (fallback : string)
    (sheetList : list (option string)) : string :=
  default fallback
    (orElse (orElse (findTitle keyword sheetList) (sheetList !! i ≫= id))
            (Some fallback)).

Definition courseSheet : list (option string) -> string :=
  pickSheet "details" 0 "Sheet1".

Definition timeTableSheet : list (option string) -> string :=
  pickSheet "time table" 1 "Sheet2".

Definition sectionASheet : list (option string) -> option string :=
  findTitle "section a".

Definition sectionBSheet : list (option string) -> option string :=
  findTitle "section b".

(** The callback of strategies 2 and 3:
    [title.includes(code) && title.includes("list")] on
    [s.properties?.title?.toLowerCase() || ""]. *)
Definition listFor (code : string) (sheet : option string) : bool :=
  let title := default "" (orElse (Text.toLowerCase <$> sheet) (Some "")) in
  Text.includes title code && Text.includes title "list".

(** [course.code.split('-')[0].toLowerCase()] *)
Definition shortCode (code : string) : string :=
  Text.toLowerCase (default "" (head (splitOn "-"%char code))).

Section Electives.
Context {num : Type}.

(** [course.type.toLowerCase().includes("elective") || ...includes("compl.")] *)
Definition isElectiveType (course : Course num) : bool :=
  Text.includes (Text.toLowerCase (type course)) "elective"
  || Text.includes (Text.toLowerCase (type course)) "compl.".

(** The variable [match] after the three strategies. *)
Definition matchElectiveSheet (sheetList : list (option string))
    (course : Course num) : option (option string) :=
  match List.find (titleHas (Text.toLowerCase (name course))) sheetList with
  | Some m => Some m
  | None =>
      match List.find (listFor (Text.toLowerCase (code course))) sheetList with
      | Some m => Some m
      | None =>
          if (1 <? String.length (shortCode (code course)))%nat
          then List.find (listFor (shortCode (code course))) sheetList
          else None
      end
  end.

(** The title recorded for a course in [electiveCodeToSheetTitle], if any:
    the body of the callback of [Object.values(courses).forEach]. *)
Definition electiveSheetTitle (sheetList : list (option string))
    (course : Course num) : option string :=
  if isElectiveType course then
    match matchElectiveSheet sheetList course with
    | Some (Some title) => if bool_decide (title = "") then None else Some title
    | _ => None
    end
  else None.

End Electives.

(** An element of [batchRes.data.valueRanges]. *)
Record ValueRange := mkRange {
  range : option string;
  values : option (list (list string));
}.

(** [studentDataMap['A']], [studentDataMap['B']] and [electiveRowsMap]. *)
Record Fetched := mkFetched {
  studentA : option (list (list string));
  studentB : option (list (list string));
  electiveRows : gmap string (list (list string));
}.

(** [rangeName?.includes(title)] *)
Definition rangeHas (rangeName : option string) (title : string) : bool :=
  match rangeName with
  | Some n => Text.includes n title
  | None => false
  end.

(** The callback of [returnedRanges.forEach]; [entries] is
    [Object.entries(electiveCodeToSheetTitle)]. *)
Definition mapRange (sectionASheet sectionBSheet : option string)
    (entries : list (string * string)) (st : Fetched) (rangeObj : ValueRange)
  : Fetched :=
  let rangeName := range rangeObj in
  let val := default [] (values rangeObj) in
  if truthy sectionASheet && rangeHas rangeName (default "" sectionASheet) then
    {| studentA := Some val; studentB := studentB st;
       electiveRows := electiveRows st |}
  else if truthy sectionBSheet && rangeHas rangeName (default "" sectionBSheet) then
    {| studentA := studentA st; studentB := Some val;
       electiveRows := electiveRows st |}
  else
    match List.find (fun entry => rangeHas rangeName entry.2) entries with
    | Some entry =>
        {| studentA := studentA st; studentB := studentB st;
           electiveRows := <[ entry.1 := val ]> (electiveRows st) |}
    | None => st
    end.

Definition mapBack (sectionASheet sectionBSheet : option string)
    (entries : list (string * string)) (returnedRanges : list ValueRange)
  : Fetched :=
  fold_left (mapRange sectionASheet sectionBSheet entries) returnedRanges
    (mkFetched None None ∅).

(** [[...(studentDataMap['A'] || []), ...(studentDataMap['B'] || [])]] *)
Definition combinedStudentRows (st : Fetched) : list (list string) :=
  default [] (studentA st) ++ default [] (studentB st).

End Discovery.

(** ** The dashboard ([components/DashboardClient.tsx]) *)

(** [handleMarkAttendance]: [{ ...attendance, [id]: status }]. *)
Definition handleMarkAttendance (attendance : gmap string string)
    (id status : string) : gmap string string :=
  <[ id := status ]> attendance.

(** The month table of [parseSheetDate]. *)
Definition months : gmap string Z :=
  list_to_map
    [ ("Jan", 0%Z); ("Feb", 1%Z); ("Mar", 2%Z); ("Apr", 3%Z); ("May", 4%Z);
      ("Jun", 5%Z); ("Jul", 6%Z); ("Aug", 7%Z); ("Sep", 8%Z); ("Oct", 9%Z);
      ("Nov", 10%Z); ("Dec", 11%Z) ].

Section Dashboard.
(** [new Date(s).getTime()], [None] for an invalid date; [parseInt(s)],
    [None] for [NaN]; [new Date(year, month, day).getTime()], [None] for an
    invalid date. *)
Variable newDate : string -> option Z.
Variable parseInt : string -> option Z.
Variable makeDate : Z -> Z -> Z -> option Z.
(** [today], after [today.setHours(0, 0, 0, 0)]. *)
Variable today : Z.

(** [parseSheetDate]: the time of the date it returns; [None] stands for
    [null] and for an invalid date, which its two users treat alike. *)
Definition parseSheetDate (dateStr : string) : option Z :=
  if bool_decide (dateStr = "") then None
  else
    match newDate dateStr with
    | Some d => Some d
    | None =>
        match splitOn "-"%char dateStr with
        | [p0; p1; p2] =>
            match parseInt p0, months !! p1, parseInt p2 with
            | Some day, Some month, Some year =>
                if negb (day =? 0)%Z && negb (year =? 0)%Z
                then makeDate year month day
                else None
            | _, _, _ => None
            end
        | _ => None
        end
    end.

(** The callback of [myClasses.filter] in [groupedUpcoming]. *)
Definition isUpcoming (c : ClassSession) : bool :=
  match parseSheetDate (date c) with
  | Some d => (today <=? d)%Z
  | None => false
  end.

(** The callback of [future.forEach].  The keys are dates that
    [parseSheetDate] has read, none of them the name of a member of
    [Object.prototype]. *)
Definition groupStep (grouped : gmap string (list ClassSession))
    (c : ClassSession) : gmap string (list ClassSession) :=
  let grouped :=
    match grouped !! date c with
    | Some _ => grouped
    | None => <[ date c := [] ]> grouped
    end in
  alter (fun l => l ++ [c]) (date c) grouped.

Definition groupedUpcoming (myClasses : list ClassSession)
  : gmap string (list ClassSession) :=
  fold_left groupStep (filter (fun c => Is_true (isUpcoming c)) myClasses) ∅.

End Dashboard.

(** ** Reference notions, in the words of the specification

    These are not translations of the source: they say what the
    specification's sentences talk about, and the properties below compare
    them with the definitions above. *)

(** The first whitespace-separated token of a cell's text. *)
Definition firstToken (text : string) : option string :=
  head (Text.splitWs (Text.trim text)).

(** The section rule: the third token, upper-cased, when that is "A" or
    "B"; else the row-level section when that is exactly "A" or "B"; else
    null. *)
Definition sectionRule (thirdToken rowSection : option string)
  : option Section_ :=
  if bool_decide (Text.toUpperCase <$> thirdToken = Some "A") then Some SecA
  else if bool_decide (Text.toUpperCase <$> thirdToken = Some "B") then Some SecB
  else if bool_decide (rowSection = Some "A") then Some SecA
  else if bool_decide (rowSection = Some "B") then Some SecB
  else None.

(** The non-empty date of a row's date cell. *)
Definition nonEmptyDate (row : RowData) : option string :=
  if truthy (rowDate row) then rowDate row else None.

(** The most recent non-empty date among the date cells of [rows]. *)
Definition lastSeenDate (rows : list RowData) : option string :=
  last (omap nonEmptyDate rows).

(** The cell [c] stands in a slot column, labelled [slot], of the data
    row [row] of the grid, and [d] is the date of that row: its own when
    its date cell is not empty, else the most recent one among the earlier
    data rows that have a populated cell beyond the date. *)
Definition slotCell (data : GridData) (row : RowData) (d slot : string)
    (c : CellData) : Prop :=
  exists rows headerRow before after i,
    rowData data = Some rows /\ rows !! 1 ≫= values = Some headerRow /\
    drop 2 rows = before ++ row :: after /\
    Header.timeSlots headerRow !! i = Some slot /\
    cellAt row (i + 3) = Some c /\
    match nonEmptyDate row with
    | Some d' => d' = d
    | None =>
        lastSeenDate (filter (fun r => Is_true (hasData r)) before) = Some d
    end.

Section ReferenceGrid.
Context {num : Type}.
Variable courses : gmap string (Course num).

(** The sessions a data row contributes when it is parsed after the
    rows [before]. *)
Definition sessionsOfRow (timeSlots : list string)
    (before : list RowData) (row : RowData) : list ClassSession :=
  let st := parseRows courses timeSlots before in
  drop (length st.2) (parseRow courses timeSlots st row).2.

(** A cell's first token is unknown: neither it nor what is left of it
    after stripping the non-alphanumeric characters is a key. *)
Definition unknownToken (token : string) : Prop :=
  courses !! token = None /\ courses !! Text.stripNonAlnum token = None.

End ReferenceGrid.

(** A set of sessions is dated by the carried date [seen]. *)
Definition datedBy (seen : option string) (sessions : list ClassSession) : Prop :=
  forall d, seen = Some d -> forall s, s ∈ sessions -> date s = d.

(** Whitespace-normalized text: the only whitespace characters are single
    spaces, none at either end.  [noRun prev l] says that no two
    whitespace characters are adjacent in [l], nor is the first one
    whitespace when [prev] is set. *)
Fixpoint noRun (prev : bool) (l : list ascii) : Prop :=
  match l with
  | [] => True
  | c :: l' => (prev = true -> Text.isSpace c = false) /\ noRun (Text.isSpace c) l'
  end.

Definition normalizedText (s : string) : Prop :=
  let l := Text.chars s in
  Forall (fun c => Text.isSpace c = true -> c = Text.space) l
  /\ noRun false l
  /\ (forall c, head l = Some c -> Text.isSpace c = false)
  /\ (forall c, last l = Some c -> Text.isSpace c = false).

(** The characters of a text that are not whitespace. *)
Definition inkOf (s : string) : list ascii :=
  filter (fun c => Text.isSpace c = false) (Text.chars s).

(** The type that the catalog parser stores for a row. *)
Definition storedType (row : list string) : string :=
  match row !! 4 with
  | Some text => if bool_decide (normalizeType text = "") then "Unknown"
                 else normalizeType text
  | None => "Unknown"
  end.

(** A roster row's email column (index 3), trimmed and compared without
    regard to case, matches [email]. *)
Definition rosterMatch (email : string) (row : list string) : Prop :=
  exists e, row !! 3 = Some e /\
            Text.toLowerCase (Text.trim e) = Text.toLowerCase (Text.trim email).

(** [row] is the first row of [rows] that matches [email]. *)
Definition firstMatch (email : string) (rows : list (list string))
    (row : list string) : Prop :=
  exists before after,
    rows = before ++ row :: after /\ rosterMatch email row /\
    forall r, r ∈ before -> ~ rosterMatch email r.

(** The sessions of a course in a list, and those among them that the
    attendance map marks with [status]. *)
Definition sessionsOf (code : string) (sessions : list ClassSession)
  : list ClassSession :=
  filter (fun s => courseCode s = code) sessions.

Definition markedOf (attendance : gmap string string) (status : string)
    (code : string) (sessions : list ClassSession) : list ClassSession :=
  filter (fun s => attendance !! sessionKey s = Some status)
         (sessionsOf code sessions).

(** The counters of a course before [allowedLeaves] is filled in. *)
Definition tallyOf (attendance : gmap string string) (code : string)
    (sessions : list ClassSession) : CourseStat :=
  {| total := length (sessionsOf code sessions);
     attended := length (markedOf attendance "Present" code sessions);
     leaves := length (markedOf attendance "Absent" code sessions);
     allowedLeaves := 0 |}.

(** *** The remote calendar, as the reconciler sees it *)

(** Identifiers are unique and below the next one to be issued. *)
Definition wfRemote (r : Remote) : Prop :=
  NoDup (eventId <$> events r) /\
  forall e, e ∈ events r -> eventId e < nextId r.

(** [e] is an event of [r] that the listing returns and that carries the
    signature [sg]. *)
Definition sigListed (timeMin : Z) (r : Remote) (sg : string) (e : Event) : Prop :=
  e ∈ events r /\ listed timeMin e = true /\ signature (body e) = Some sg.

(** The listing holds at most one event per signature. *)
Definition uniqueListed (timeMin : Z) (r : Remote) : Prop :=
  forall sg e1 e2,
    sg <> "" -> sigListed timeMin r sg e1 -> sigListed timeMin r sg e2 -> e1 = e2.

(** The sessions of a list that are not cancelled. *)
Definition liveClasses (classes : list ClassSession) : list ClassSession :=
  filter (fun s => isCancelled s = false) classes.

Section ReferenceReconciler.
Context {num : Type}.
Variable Number : option string -> num.
Variable parseDate : string -> option Z.
Variable setHours : Z -> num -> num -> option Z.
Variable now : Z.
Variable courses : gmap string (Course num).

(** The sessions [processed] are settled in [r]: a cancelled one has no
    listed event under its signature, any other has its event. *)
Definition settled (processed : list ClassSession) (r : Remote) : Prop :=
  forall s, s ∈ processed ->
    if isCancelled s
    then forall e, ~ sigListed now r (signatureOf s) e
    else exists b e,
           eventBody Number parseDate setHours courses s = Some b /\
           e ∈ events r /\ body e = b.

(** The map [existing] still tells, for the sessions [pending], which
    listed event carries their signature. *)
Definition agrees (existing : gmap string nat) (pending : list ClassSession)
    (r : Remote) : Prop :=
  forall s id, s ∈ pending ->
    existing !! signatureOf s = Some id
    <-> exists e, sigListed now r (signatureOf s) e /\ eventId e = id.

(** Every event written for a session of [classes] ends after the
    listing bound, so that the next listing returns it. *)
Definition staysListed (classes : list ClassSession) : Prop :=
  forall s b, s ∈ classes ->
    eventBody Number parseDate setHours courses s = Some b ->
    (now < endTime b)%Z.

(** The call [o] is the one the loop makes for the session [s] when the
    map is [existing] and the calendar [r]; it leaves the calendar [r']. *)
Inductive callFor (existing : gmap string nat) (r : Remote)
    (s : ClassSession) : Op -> Remote -> Prop :=
| callDelete id r' :
    isCancelled s = true -> existing !! signatureOf s = Some id ->
    eventsDelete id r = Some r' ->
    callFor existing r s (Delete id) r'
| callInsert b :
    isCancelled s = false ->
    eventBody Number parseDate setHours courses s = Some b ->
    existing !! signatureOf s = None ->
    callFor existing r s (Insert b) (eventsInsert b r)
| callUpdate id b r' :
    isCancelled s = false ->
    eventBody Number parseDate setHours courses s = Some b ->
    existing !! signatureOf s = Some id ->
    eventsUpdate id b r = Some r' ->
    callFor existing r s (Update id b) r'.

(** The sessions a run that completes makes a call for: those that are
    not cancelled, and the cancelled ones whose signature the map holds. *)
Definition called (existing : gmap string nat) (s : ClassSession) : bool :=
  negb (isCancelled s) || bool_decide (is_Some (existing !! signatureOf s)).

(** The body an insert or an update writes. *)
Definition writtenBody (o : Op) : option EventBody :=
  match o with
  | Insert b => Some b
  | Update _ b => Some b
  | Delete _ => None
  end.

End ReferenceReconciler.

Section ReferenceCatalog.
Context {num : Type}.
Variable Number : option string -> num.
Variable numTruthy : num -> bool.
Variable zero : num.

(** The course a catalog row stands for, under the code [k]. *)
Definition courseOfRow (k : string) (row : list string) : Course num :=
  {| code := k;
     name := match row !! 1 with Some n => Text.trim n | None => "" end;
     credits := if numTruthy (Number (row !! 2)) then Number (row !! 2) else zero;
     type := storedType row |}.

End ReferenceCatalog.

(** A text has no whitespace at either end. *)
Definition trimmedText (s : string) : Prop :=
  (forall c, head (Text.chars s) = Some c -> Text.isSpace c = false) /\
  (forall c, last (Text.chars s) = Some c -> Text.isSpace c = false).

(** A session with its cancellation flag set to [b]. *)
Definition withCancelled (b : bool) (s : ClassSession) : ClassSession :=
  {| date := date s; timeSlot := timeSlot s; courseCode := courseCode s;
     sessionNumber := sessionNumber s; section := section s; raw := raw s;
     isCancelled := b |}.

(** The invariant of [lastDate]: null or a non-empty string. *)
Definition goodDate (o : option string) : Prop := o = None \/ truthy o = true.

(** ** Sample data *)

Module Sample.

Definition courses : gmap string (Course (option nat)) :=
  {[ "DT" := mkCourse "DT" "Design Thinking" (Some 3%nat) "Core" ]}.

(** Host numbers for the samples: a natural number, or [None] for
    [NaN].  [number] is [Number] on runs of decimal digits, where it
    agrees with the host, and [NaN] elsewhere. *)
Definition num : Type := option nat.

Definition number (o : option string) : num :=
  match o with
  | Some s =>
      if forallb Text.isDigit (Text.chars s) && negb (bool_decide (s = ""))
      then Some (fold_left (fun n c => (10 * n + (Text.code c - 48))%nat)
                           (Text.chars s) 0%nat)
      else None
  | None => None
  end.

Definition nonZero (n : num) : bool :=
  match n with Some k => negb (k =? 0)%nat | None => false end.

Definition zero : num := Some 0%nat.

(** The clock of the samples: 5 January 2026, 08:00, in milliseconds
    from the start of that day. *)
Definition startOfToday : Z := 0.
Definition now : Z := 8 * 3600000.
(** Two later readings of that day: 09:30 and 11:00. *)
Definition later : Z := 9 * 3600000 + 30 * 60000.
Definition afterClass : Z := 11 * 3600000.

Definition parseDate (s : string) : option Z :=
  if bool_decide (s = "05-Jan-2026") then Some 0%Z
  else if bool_decide (s = "12-Jan-2026") then Some (7 * 86400000)%Z
  else None.

Definition setHours (d : Z) (h m : num) : option Z :=
  match h, m with
  | Some h, Some m => Some (d + Z.of_nat h * 3600000 + Z.of_nat m * 60000)%Z
  | _, _ => None
  end.

Definition catalog : list (list string) :=
  [ ["Sl"; "Name"; "Credit"; "Code"; "Type"];
    ["1"; "Design Thinking"; "3"; "DT"; "Core"];
    ["2"; "Game Theory"; "3"; "GT"; "Compl. Elective"] ].

(** A roster row: the email is in column D and the section in column J. *)
Definition rosterRow (mail sec : string) : list string :=
  ["1"; "2026001"; "Asha"; mail; ""; ""; ""; ""; ""; sec].

(** Two sessions with one signature: the class of section A stands, the
    class of section B in the same slot is struck through. *)
Definition standing : ClassSession :=
  mkSession "05-Jan-2026" "09:00 - 10:15" "DT" "1" (Some SecA) "DT 1" false.
Definition struck : ClassSession :=
  mkSession "05-Jan-2026" "09:00 - 10:15" "DT" "1" (Some SecB) "DT 1" true.

(** A catalog with an elective, and a session of it. *)
Definition electiveCourses : gmap string (Course (option nat)) :=
  {[ "GT" := mkCourse "GT" "Game Theory" (Some 3%nat) "Elective" ]}.
Definition gtSession : ClassSession :=
  mkSession "05-Jan-2026" "09:00 - 10:15" "GT" "1" None "GT 1" false.

(** A class in a column whose header cell is empty: the slot is the
    fallback label. *)
Definition unlabelled : ClassSession :=
  mkSession "05-Jan-2026" "Slot 1" "DT" "1" (Some SecA) "DT 1" false.

(** A calendar that holds one event the application did not write. *)
Definition personal : Event :=
  mkEvent 0 (mkBody "Dentist" "" (9 * 3600000) (10 * 3600000) None None).
Definition ownCalendar : Remote := mkRemote [personal] 1.

(** The sheets of a workbook, and what a batch read of it returns. *)
Definition workbook : list (option string) :=
  [ Some "Time Table"; Some "Course Details"; Some "Section A";
    Some "Section B"; Some "List of students GT"; None ].
Definition gameTheory : Course (option nat) :=
  mkCourse "GT" "Game Theory" (Some 3%nat) "Compl. Elective".
Definition gameTheoryNamed : list (option string) :=
  [ Some "List of students GT"; Some "Game Theory roster" ].
Definition returned : list Discovery.ValueRange :=
  [ Discovery.mkRange (Some "'Section A'!A1:Z100")
      (Some [rosterRow "asha@example.org" "A"]);
    Discovery.mkRange (Some "'List of students GT'!A1:Z100")
      (Some [rosterRow "asha@example.org" ""]) ].

(** What the sync endpoint fetches for a workbook with a Core course
    and an Elective course, a class of each, and one student. *)
Definition mixedCourses : gmap string (Course (option nat)) :=
  <[ "GT" := mkCourse "GT" "Game Theory" (Some 3%nat) "Elective" ]> courses.
Definition syncData : ScheduleData (option nat) :=
  mkData mixedCourses [standing; gtSession]
    [rosterRow "asha@iimidr.ac.in" "A"].

(** A class of today that ended before the clock reading, and that
    class struck through. *)
Definition ended : ClassSession :=
  mkSession "05-Jan-2026" "06:00 - 07:00" "DT" "1" (Some SecA) "DT 1" false.
Definition endedStruck : ClassSession :=
  mkSession "05-Jan-2026" "06:00 - 07:00" "DT" "1" (Some SecA) "DT 1" true.

Definition dtSession (n : string) : ClassSession :=
  mkSession "05-Jan-2026" "09:00 - 10:15" "DT" n None ("DT " +:+ n) false.

Definition sixSessions : list ClassSession :=
  dtSession <$> ["1"; "2"; "3"; "4"; "5"; "6"].

Definition marks : gmap string string :=
  {[ "DT-1" := "Present"; "DT-2" := "Absent"; "DT-3" := "Present" ]}.

Definition textCell (s : string) : CellData := mkCell (Some s) None None.
Definition blank : CellData := mkCell None None None.

Definition slots : list string := ["09:00 - 10:15"].

(** A dated row with a class, a row that has a date and nothing else,
    and an undated row with a class. *)
Definition monday : RowData :=
  mkRow (Some [textCell "05-Jan-2026"; blank; textCell "A"; textCell "DT 1"]).
Definition dateOnly : RowData :=
  mkRow (Some [textCell "12-Jan-2026"; blank; blank; blank]).
Definition undated : RowData :=
  mkRow (Some [blank; blank; textCell "B"; textCell "DT 2"]).

Definition header : RowData :=
  mkRow (Some [textCell "Session Date"; textCell "Classroom";
               textCell "Section"; textCell "09:00 - 10:15"]).

Definition grid : GridData :=
  mkGrid (Some [mkRow None; header; monday; dateOnly; undated]).

(** A row of section B with the cells "DT 3 A" and "DT 3", and a grid
    that holds it under a header of two slot columns. *)
Definition sectionB : RowData :=
  mkRow (Some [textCell "05-Jan-2026"; blank; textCell "B";
               textCell "DT 3 A"; textCell "DT 3"]).
Definition headerB : RowData :=
  mkRow (Some [textCell "Session Date"; textCell "Classroom";
               textCell "Section"; textCell "09:00 - 10:15";
               textCell "10:30 - 11:45"]).
Definition gridB : GridData := mkGrid (Some [mkRow None; headerB; sectionB]).

(** A grid with a cell whose first token is the name of a member that
    object literals inherit. *)
Definition inheritedRow : RowData :=
  mkRow (Some [textCell "05-Jan-2026"; blank; textCell "A";
               textCell "constructor 1"]).
Definition inheritedGrid : GridData :=
  mkGrid (Some [mkRow None; header; inheritedRow]).
Definition inheritedSession : ClassSession :=
  mkSession "05-Jan-2026" "09:00 - 10:15" "constructor" "1" (Some SecA)
    "constructor 1" false.

(** The calendar after the standing class has been synced. *)
Definition synced : Remote :=
  remote (syncToCalendar number parseDate setHours now startOfToday courses
            emptyRemote [standing]).

End Sample.

(** * Properties *)

(** ** Text *)

Module TextFacts.
Import Text.

Lemma str_chars s : str (chars s) = s.
Proof. apply string_of_list_ascii_of_string. Qed.

Lemma chars_str l : chars (str l) = l.
Proof. apply list_ascii_of_string_of_list_ascii. Qed.

Lemma str_inj l1 l2 : str l1 = str l2 -> l1 = l2.
Proof. intros H. rewrite <- (chars_str l1), <- (chars_str l2). by rewrite H. Qed.

Lemma dropWhile_suffix {A} (p : A -> bool) l :
  exists pre, l = pre ++ dropWhile p l /\ Forall (fun x => p x = true) pre.
Proof.
  induction l as [|x l IH]; simpl.
  - by exists [].
  - destruct (p x) eqn:Hp.
    + destruct IH as (pre & Hl & Hpre). exists (x :: pre). split.
      * simpl. by rewrite <- Hl.
      * by constructor.
    + by exists [].
Qed.

Lemma dropWhile_head {A} (p : A -> bool) l x l' :
  dropWhile p l = x :: l' -> p x = false.
Proof.
  induction l as [|y l IH]; simpl; [done|].
  destruct (p y) eqn:Hp; [done|]. intros [= -> _]. done.
Qed.

End TextFacts.

(** ** The attendance filter *)

Section FilterFacts.
Context {num : Type}.
Implicit Types (courses : gmap string (Course num)) (s : ClassSession).

Lemma keepSession_spec courses profile s :
  keepSession courses profile s = true <->
  (courses !! courseCode s = None
   \/ (exists c, courses !! courseCode s = Some c /\ type c = "Elective"
                 /\ courseCode s ∈ electives profile)
   \/ (exists c, courses !! courseCode s = Some c /\ type c = "Core"
                 /\ (section s = None \/ section s = Some (userSection profile)))
   \/ (exists c, courses !! courseCode s = Some c
                 /\ type c <> "Elective" /\ type c <> "Core")).
Proof.
  unfold keepSession.
  destruct (courses !! courseCode s) as [c|] eqn:Hc; [|by split; auto].
  destruct (decide (type c = "Elective")) as [He|He].
  { rewrite (bool_decide_eq_true_2 _ He), bool_decide_eq_true. split.
    - intros Hin. right; left. eauto.
    - intros [?|[(c' & [= <-] & _ & Hin)|[(c' & [= <-] & Ht & _)|(c' & [= <-] & Ht & _)]]];
        [done | done | congruence | congruence]. }
  rewrite (bool_decide_eq_false_2 _ He).
  destruct (decide (type c = "Core")) as [Hk|Hk].
  { rewrite (bool_decide_eq_true_2 _ Hk). split.
    - intros Hsec. right; right; left. exists c. split_and!; [done..|].
      destruct (section s) as [sec|]; [|by left].
      right. by apply bool_decide_eq_true in Hsec as ->.
    - intros [?|[(c' & [= <-] & Ht & _)|[(c' & [= <-] & _ & Hsec)|(c' & [= <-] & _ & Ht)]]];
        [done | congruence | | congruence].
      destruct Hsec as [-> | ->]; [done|]. by apply bool_decide_eq_true. }
  rewrite (bool_decide_eq_false_2 _ Hk). split; [|done].
  intros _. right; right; right. eauto.
Qed.

(** C2.  [filterClassesForUser] keeps a session of the schedule exactly
    when its course code is not in the mapping, or the course is of type
    Elective and the code is among the profile's electives, or the course
    is of type Core and the session's section is null or the profile's
    section, or the course is of any other type. *)
Theorem filterClassesForUser_spec rawSchedule courses profile s :
  s ∈ filterClassesForUser rawSchedule courses profile <->
  s ∈ rawSchedule /\
  (courses !! courseCode s = None
   \/ (exists c, courses !! courseCode s = Some c /\ type c = "Elective"
                 /\ courseCode s ∈ electives profile)
   \/ (exists c, courses !! courseCode s = Some c /\ type c = "Core"
                 /\ (section s = None \/ section s = Some (userSection profile)))
   \/ (exists c, courses !! courseCode s = Some c
                 /\ type c <> "Elective" /\ type c <> "Core")).
Proof.
  unfold filterClassesForUser. rewrite list_elem_of_filter.
  rewrite <- keepSession_spec. rewrite Is_true_true. tauto.
Qed.

Lemma filterClassesForUser_keeps rawSchedule courses profile s :
  s ∈ filterClassesForUser rawSchedule courses profile ->
  keepSession courses profile s = true.
Proof.
  unfold filterClassesForUser. rewrite list_elem_of_filter, Is_true_true.
  by intros [? _].
Qed.

End FilterFacts.

(** ** The timetable grid *)

Section GridFacts.
Context {num : Type}.
Variable courses : gmap string (Course num).
Implicit Types (row : RowData) (s : ClassSession) (ts : list string).

Lemma hasCourse_true k :
  hasCourse courses k = true <-> is_Some (courses !! k) \/ inherited k = true.
Proof.
  unfold hasCourse. rewrite orb_true_iff, bool_decide_eq_true. done.
Qed.


Lemma resolveCode_key token :
  is_Some (courses !! token) -> resolveCode courses token = Some token.
Proof.
  intros H. unfold resolveCode.
  by rewrite (proj2 (hasCourse_true token)) by (by left).
Qed.

(** What a cell that produces a session looks like. *)
Lemma parseCell_Some d rs slot cell s :
  parseCell courses d rs slot cell = Some s ->
  exists c text first rest,
    cell = Some c /\ cellText cell = Some text /\
    text <> "" /\ Text.trim text <> "" /\
    Text.splitWs (Text.trim text) = first :: rest /\
    resolveCode courses first = Some (courseCode s) /\
    date s = d /\ timeSlot s = slot /\
    sessionNumber s = default "" (orElse (rest !! 0) (Some "")) /\
    section s = resolveSection (first :: rest) rs /\
    raw s = text /\
    isCancelled s = bool_decide (strikethrough c = Some true).
Proof.
  unfold parseCell.
  destruct (cellText cell) as [text|] eqn:Ht; [|done].
  destruct cell as [c|]; [|done].
  destruct (bool_decide (text = "")) eqn:E1; [done|].
  destruct (bool_decide (Text.trim text = "")) eqn:E2; [done|].
  destruct (Text.includes (Text.toLowerCase text) "lunch"); [done|].
  destruct (Text.includes (Text.toLowerCase text) "break"); [done|].
  simpl.
  destruct (Text.splitWs (Text.trim text)) as [|first rest] eqn:Hp; [done|].
  destruct (resolveCode courses first) as [cc|] eqn:Hc; [|done].
  intros [= <-]. simpl.
  exists c, text, first, rest.
  apply bool_decide_eq_false in E1, E2. by split_and!.
Qed.

Lemma elem_of_rowSessions ts d row s :
  s ∈ rowSessions courses ts d row <->
  exists i slot,
    ts !! i = Some slot /\
    parseCell courses d (rowSectionOf row) slot (cellAt row (i + 3)) = Some s.
Proof.
  unfold rowSessions. rewrite list_elem_of_omap. split.
  - intros (o & [i [slot [-> Hi]]]%elem_of_lookup_imap & Ho). eauto.
  - intros (i & slot & Hi & Hc). eexists. split; [|exact Hc].
    apply elem_of_lookup_imap. eauto.
Qed.

(** One step of the row loop: either the row is skipped, or it
    contributes its sessions under a date that becomes [lastDate]. *)
Lemma parseRow_cases ts st row :
  (parseRow courses ts st row = st /\
   (hasData row = false \/ (truthy (rowDate row) = false /\ truthy st.1 = false)))
  \/ (exists d, hasData row = true /\
        parseRow courses ts st row = (Some d, st.2 ++ rowSessions courses ts d row) /\
        d <> "" /\
        ((rowDate row = Some d /\ truthy (rowDate row) = true)
         \/ (truthy (rowDate row) = false /\ st.1 = Some d))).
Proof.
  destruct st as [lastDate sessions]. unfold parseRow. simpl.
  destruct (hasData row); simpl; [|by left; auto].
  destruct (truthy (rowDate row)) eqn:Hd.
  - destruct (rowDate row) as [d|] eqn:Hr; [|done].
    right. exists d. split_and!; auto.
    intros ->. done.
  - destruct (truthy lastDate) eqn:Hl.
    + destruct lastDate as [d|]; [|done].
      right. exists d. split_and!; auto. intros ->. done.
    + left. auto.
Qed.

Lemma parseRow_extends ts st row :
  exists new, (parseRow courses ts st row).2 = st.2 ++ new.
Proof.
  destruct (parseRow_cases ts st row) as [[-> _]|(d & _ & -> & _)].
  - exists []. by rewrite app_nil_r.
  - eauto.
Qed.

Lemma sessionsOfRow_eq ts before row new :
  (parseRow courses ts (parseRows courses ts before) row).2
    = (parseRows courses ts before).2 ++ new ->
  sessionsOfRow courses ts before row = new.
Proof. unfold sessionsOfRow. intros ->. by rewrite drop_app_length. Qed.

Lemma fold_parseRow_elem ts rows st s :
  s ∈ (fold_left (parseRow courses ts) rows st).2 ->
  s ∈ st.2 \/ exists row d, row ∈ rows /\ s ∈ rowSessions courses ts d row.
Proof.
  revert st. induction rows as [|row rows IH]; intros st; simpl; [auto|].
  intros [Hs|(row' & d & Hr & Hs)]%IH.
  - destruct (parseRow_cases ts st row) as [[Heq _]|(d & _ & Heq & _)];
      rewrite Heq in Hs; [auto|].
    simpl in Hs. apply elem_of_app in Hs as [?|?]; [auto|].
    right. exists row, d. split; [left|done].
  - right. exists row', d. split; [by right|done].
Qed.

(** Every session of the output comes from a cell of a data row. *)
Lemma elem_of_parseSchedule data s :
  s ∈ parseSchedule courses data ->
  exists rows headerRow row d i slot,
    rowData data = Some rows /\ rows !! 1 ≫= values = Some headerRow /\
    row ∈ drop 2 rows /\
    Header.timeSlots headerRow !! i = Some slot /\
    parseCell courses d (rowSectionOf row) slot (cellAt row (i + 3)) = Some s.
Proof.
  unfold parseSchedule.
  destruct (rowData data) as [rows|]; [|by intros ?%elem_of_nil].
  destruct (length rows <? 3)%nat; [by intros ?%elem_of_nil|].
  destruct (rows !! 1 ≫= values) as [headerRow|] eqn:Hh; [|by intros ?%elem_of_nil].
  unfold parseRows.
  intros [Hs|(row & d & Hr & Hs)]%fold_parseRow_elem; [by apply elem_of_nil in Hs|].
  apply elem_of_rowSessions in Hs as (i & slot & Hi & Hc).
  exists rows, headerRow, row, d, i, slot. done.
Qed.

End GridFacts.

Section GridProperties.
Context {num : Type}.
Variable courses : gmap string (Course num).
Implicit Types (row : RowData) (s : ClassSession) (ts : list string).

Lemma sectionOfString_rule r :
  sectionOfString r =
  if bool_decide (Some r = Some "A") then Some SecA
  else if bool_decide (Some r = Some "B") then Some SecB else None.
Proof.
  unfold sectionOfString. repeat case_bool_decide; congruence.
Qed.

Lemma resolveSection_rule parts rs :
  resolveSection parts rs = sectionRule (parts !! 2) rs.
Proof.
  unfold resolveSection, sectionRule.
  destruct (parts !! 2) as [p|], rs as [r|]; simpl;
    rewrite ?sectionOfString_rule; repeat case_bool_decide; congruence.
Qed.

End GridProperties.

Section DateFacts.
Context {num : Type}.
Variable courses : gmap string (Course num).
Implicit Types (row : RowData) (s : ClassSession) (ts : list string).

Lemma parseRow_goodDate ts st row :
  goodDate st.1 -> goodDate (parseRow courses ts st row).1.
Proof.
  intros Hg.
  destruct (parseRow_cases courses ts st row) as [[-> _]|(d & _ & -> & Hd & _)];
    [done|].
  right. simpl. by rewrite bool_decide_eq_false_2.
Qed.

Lemma lastSeenDate_cons row rows :
  lastSeenDate (row :: rows) =
  match lastSeenDate rows with
  | Some d => Some d
  | None => nonEmptyDate row
  end.
Proof.
  unfold lastSeenDate. simpl.
  destruct (nonEmptyDate row) as [d|]; simpl.
  - rewrite last_cons. by destruct (last _).
  - by destruct (last _).
Qed.

(** The [lastDate] after a run of rows is the last non-empty date
    among the rows that have data. *)
Lemma fold_parseRow_lastDate ts rows st :
  goodDate st.1 ->
  (fold_left (parseRow courses ts) rows st).1 =
  match lastSeenDate (filter (fun r => Is_true (hasData r)) rows) with
  | Some d => Some d
  | None => st.1
  end.
Proof.
  revert st. induction rows as [|row rows IH]; intros st Hg; simpl; [done|].
  rewrite IH by (by apply parseRow_goodDate).
  destruct (parseRow_cases courses ts st row)
    as [[-> [Hh|[Hd Hl]]]|(d & Hh & -> & Hne & Hd)].
  - rewrite filter_cons_False by (rewrite Hh; exact id). done.
  - destruct (hasData row) eqn:Hh.
    + rewrite filter_cons_True by (rewrite Hh; exact I). rewrite lastSeenDate_cons.
      unfold nonEmptyDate. rewrite Hd. by destruct (lastSeenDate _).
    + rewrite filter_cons_False by (rewrite Hh; exact id). done.
  - rewrite filter_cons_True by (rewrite Hh; exact I). rewrite lastSeenDate_cons.
    unfold nonEmptyDate. simpl.
    destruct (lastSeenDate _); [done|].
    destruct Hd as [[-> ->]|[-> ->]]; done.
Qed.

Lemma parseRows_lastDate ts rows :
  (parseRows courses ts rows).1 =
  lastSeenDate (filter (fun r => Is_true (hasData r)) rows).
Proof.
  unfold parseRows. rewrite fold_parseRow_lastDate by (by left).
  simpl. by destruct (lastSeenDate _).
Qed.

Lemma parseRows_snoc ts before row :
  (parseRows courses ts (before ++ [row])).2 =
  (parseRows courses ts before).2 ++ sessionsOfRow courses ts before row.
Proof.
  unfold parseRows at 1. rewrite fold_left_app. simpl.
  fold (parseRows courses ts before).
  destruct (parseRow_extends courses ts (parseRows courses ts before) row)
    as [new Hnew].
  by rewrite (sessionsOfRow_eq _ _ _ _ _ Hnew).
Qed.

Lemma rowSessions_date ts d row s :
  s ∈ rowSessions courses ts d row -> date s = d.
Proof.
  intros (i & slot & _ & Hc)%elem_of_rowSessions.
  by apply parseCell_Some in Hc as (? & ? & ? & ? & _ & _ & _ & _ & _ & _ & ? & _).
Qed.

Lemma fold_parseRow_goodDate ts rows st :
  goodDate st.1 -> goodDate (fold_left (parseRow courses ts) rows st).1.
Proof.
  revert st. induction rows as [|r rows IH]; intros st Hg; simpl; [done|].
  apply IH. by apply parseRow_goodDate.
Qed.

(** The sessions of a row, by cases on its date cell and on the carried
    date. *)
Lemma sessionsOfRow_cases ts before row :
  sessionsOfRow courses ts before row =
  if hasData row then
    match nonEmptyDate row,
          lastSeenDate (filter (fun r => Is_true (hasData r)) before) with
    | Some d, _ => rowSessions courses ts d row
    | None, Some d => rowSessions courses ts d row
    | None, None => []
    end
  else [].
Proof.
  pose proof (parseRows_lastDate ts before) as Hl.
  assert (goodDate (parseRows courses ts before).1) as Hg
    by (apply fold_parseRow_goodDate; by left).
  apply sessionsOfRow_eq.
  destruct (parseRow_cases courses ts (parseRows courses ts before) row)
    as [[-> [Hh|[Hd Hc]]]|(d & Hh & -> & Hne & Hd)].
  - rewrite Hh. by rewrite app_nil_r.
  - unfold nonEmptyDate. rewrite Hd, <- Hl.
    destruct Hg as [->|Hg]; [|congruence].
    destruct (hasData row); by rewrite app_nil_r.
  - rewrite Hh. simpl. unfold nonEmptyDate.
    destruct Hd as [[Hr Ht]|[Ht Hc]].
    + by rewrite Ht, Hr.
    + rewrite Ht, <- Hl, Hc. done.
Qed.

(** C7, as amended.  The sessions a data row contributes, after the rows
    [before]: none when the row has no populated cell beyond the date;
    none when its date cell is empty and no earlier row with a populated
    cell beyond the date had a date; and when its date cell is empty
    otherwise, its sessions under the most recent non-empty date among the
    earlier rows that have a populated cell beyond the date.  A date that
    stands in a row with no other populated cell is not recorded. *)
Theorem parseSchedule_carried_date ts before row :
  let carried :=
    lastSeenDate (filter (fun r => Is_true (hasData r)) before) in
  (parseRows courses ts (before ++ [row])).2 =
    (parseRows courses ts before).2 ++ sessionsOfRow courses ts before row
  /\ (hasData row = false -> sessionsOfRow courses ts before row = [])
  /\ (nonEmptyDate row = None -> carried = None ->
      sessionsOfRow courses ts before row = [])
  /\ (nonEmptyDate row = None -> hasData row = true ->
      forall d, carried = Some d ->
           sessionsOfRow courses ts before row = rowSessions courses ts d row)
  /\ (nonEmptyDate row = None ->
      datedBy carried (sessionsOfRow courses ts before row)).
Proof.
  intros carried. pose proof (sessionsOfRow_cases ts before row) as Hc.
  fold carried in Hc. split_and!.
  - apply parseRows_snoc.
  - intros Hh. by rewrite Hc, Hh.
  - intros Hd Hn. rewrite Hc, Hd, Hn. by destruct (hasData row).
  - intros Hd Hh d Hs. by rewrite Hc, Hd, Hh, Hs.
  - intros Hd d Hs s. rewrite Hc, Hd, Hs.
    destruct (hasData row); [apply rowSessions_date|by intros ?%elem_of_nil].
Qed.

End DateFacts.

(** C7 as it is worded fails: the date of a row that has nothing
    but a date is not carried to the undated row after it, which gets the
    date of the row before. *)
Lemma date_only_row_not_carried :
  nonEmptyDate Sample.undated = None /\
  lastSeenDate [Sample.monday; Sample.dateOnly] = Some "12-Jan-2026" /\
  date <$> parseSchedule Sample.courses Sample.grid
    = ["05-Jan-2026"; "05-Jan-2026"] /\
  ~ datedBy (lastSeenDate [Sample.monday; Sample.dateOnly])
      (sessionsOfRow Sample.courses Sample.slots
         [Sample.monday; Sample.dateOnly] Sample.undated).
Proof.
  split_and!; [reflexivity..|].
  intros H.
  specialize (H "12-Jan-2026" eq_refl
                (mkSession "05-Jan-2026" "09:00 - 10:15" "DT" "2" (Some SecB)
                   "DT 2" false)).
  assert (sessionsOfRow Sample.courses Sample.slots
            [Sample.monday; Sample.dateOnly] Sample.undated
          = [mkSession "05-Jan-2026" "09:00 - 10:15" "DT" "2" (Some SecB)
               "DT 2" false]) as Heq by reflexivity.
  rewrite Heq in H. specialize (H (list_elem_of_here _ _)). discriminate H.
Qed.

Lemma parseSchedule_carried_date_witness :
  sessionsOfRow Sample.courses Sample.slots [Sample.monday] Sample.undated
  = rowSessions Sample.courses Sample.slots "05-Jan-2026" Sample.undated.
Proof.
  apply (parseSchedule_carried_date Sample.courses Sample.slots
           [Sample.monday] Sample.undated); reflexivity.
Defined.

(** ** Sections of the sessions *)

Section SectionFacts.
Context {num : Type}.
Variable courses : gmap string (Course num).
Implicit Types (row : RowData) (s : ClassSession) (ts : list string).

Lemma fold_parseRow_extends ts rows st :
  exists new, (fold_left (parseRow courses ts) rows st).2 = st.2 ++ new.
Proof.
  revert st. induction rows as [|row rows IH]; intros st; simpl.
  - exists []. by rewrite app_nil_r.
  - destruct (IH (parseRow courses ts st row)) as [new2 ->].
    destruct (parseRow_extends courses ts st row) as [new1 ->].
    exists (new1 ++ new2). by rewrite (assoc_L (++)).
Qed.

Lemma hasData_cell row j c :
  cellAt row (S j) = Some c -> truthy (cellText (Some c)) = true ->
  hasData row = true.
Proof.
  unfold cellAt, hasData. destruct (values row) as [cells|]; [|done]. simpl.
  intros Hc Ht. apply existsb_exists. exists c. split; [|done].
  apply list_elem_of_In, (list_elem_of_lookup_2 _ j).
  by rewrite lookup_drop.
Qed.

(** The session of a cell in a slot column of a data row is in the
    output. *)
Lemma slotCell_session data row d slot c s :
  slotCell data row d slot c ->
  parseCell courses d (rowSectionOf row) slot (Some c) = Some s ->
  s ∈ parseSchedule courses data.
Proof.
  intros (rows & headerRow & before & after & i & Hr & Hh & Hd & Hi & Hc & Hdate)
         Hs.
  unfold parseSchedule. rewrite Hr.
  assert ((length rows <? 3)%nat = false) as ->.
  { apply Nat.ltb_ge. apply (f_equal length) in Hd.
    rewrite length_drop, length_app in Hd. simpl in Hd. lia. }
  rewrite Hh, Hd.
  replace (before ++ row :: after) with ((before ++ [row]) ++ after)
    by (by rewrite <- (assoc_L (++))).
  unfold parseRows. rewrite fold_left_app.
  destruct (fold_parseRow_extends (Header.timeSlots headerRow) after
              (fold_left (parseRow courses (Header.timeSlots headerRow))
                 (before ++ [row]) (None, []))) as [new ->].
  apply elem_of_app. left.
  fold (parseRows courses (Header.timeSlots headerRow) (before ++ [row])).
  rewrite parseRows_snoc. apply elem_of_app. right.
  rewrite sessionsOfRow_cases.
  assert (truthy (cellText (Some c)) = true) as Ht.
  { apply parseCell_Some in Hs as (c' & text & _ & _ & _ & -> & Hne & _).
    simpl. by rewrite bool_decide_eq_false_2. }
  replace (i + 3) with (S (i + 2)) in Hc by lia.
  rewrite (hasData_cell row _ c Hc Ht).
  assert (s ∈ rowSessions courses (Header.timeSlots headerRow) d row) as Hin.
  { apply elem_of_rowSessions. exists i, slot. split; [done|].
    replace (i + 3) with (S (i + 2)) by lia. by rewrite Hc. }
  destruct (nonEmptyDate row) as [d'|]; [by subst d'|]. by rewrite Hdate.
Qed.

(** C8.  The section of a session is given by the section rule applied
    to the third token of its cell and to the trimmed text of column 2 of
    its row, and every cell of a slot column of a data row that yields a
    session contributes it with that section.  With "DT" in the course
    mapping, the cell "DT 3 A" in a data row whose column 2 reads "B"
    gives a session of course DT, number 3, section A in the output of
    [parseSchedule], and the cell "DT 3" in such a row one of section
    B. *)
Theorem parseSchedule_section :
  (forall data s,
      s ∈ parseSchedule courses data ->
      exists rows row i text,
        rowData data = Some rows /\ row ∈ drop 2 rows /\
        cellText (cellAt row (i + 3)) = Some text /\ raw s = text /\
        section s =
          sectionRule (Text.splitWs (Text.trim text) !! 2)
                      (Text.trim <$> cellText (cellAt row 2)))
  /\
  (forall data row d slot c s,
      slotCell data row d slot c ->
      parseCell courses d (rowSectionOf row) slot (Some c) = Some s ->
      s ∈ parseSchedule courses data /\
      section s =
        sectionRule (Text.splitWs (Text.trim (raw s)) !! 2)
                    (Text.trim <$> cellText (cellAt row 2)))
  /\
  (forall data row d slot c,
      is_Some (courses !! "DT") ->
      slotCell data row d slot c ->
      cellText (cellAt row 2) = Some "B" ->
      cellText (Some c) = Some "DT 3 A" ->
      exists s, s ∈ parseSchedule courses data /\
                date s = d /\ timeSlot s = slot /\ raw s = "DT 3 A" /\
                courseCode s = "DT" /\ sessionNumber s = "3" /\
                section s = Some SecA)
  /\
  (forall data row d slot c,
      is_Some (courses !! "DT") ->
      slotCell data row d slot c ->
      cellText (cellAt row 2) = Some "B" ->
      cellText (Some c) = Some "DT 3" ->
      exists s, s ∈ parseSchedule courses data /\
                date s = d /\ timeSlot s = slot /\ raw s = "DT 3" /\
                courseCode s = "DT" /\ sessionNumber s = "3" /\
                section s = Some SecB).
Proof.
  split_and!.
  - intros data s Hs.
    apply elem_of_parseSchedule
      in Hs as (rows & hd & row & d & i & slot & Hrows & _ & Hrow & _ & Hc).
    apply parseCell_Some in Hc
      as (c & text & first & rest & _ & Ht & _ & _ & Hp & _ & _ & _ & _ & Hsec & Hraw & _).
    exists rows, row, i, text. split_and!; try done.
    rewrite Hsec, resolveSection_rule. by rewrite Hp.
  - intros data row d slot c s Hcell Hs.
    split; [by eapply slotCell_session|].
    apply parseCell_Some in Hs
      as (c' & text & first & rest & _ & _ & _ & _ & Hp & _ & _ & _ & _ & Hsec & Hraw & _).
    rewrite Hsec, resolveSection_rule, Hraw, Hp. done.
  - intros data row d slot c Hdt Hcell Hsec Ht.
    eexists. split.
    + apply (slotCell_session data row d slot c); [done|].
      unfold parseCell. rewrite Ht. simpl.
      rewrite (resolveCode_key courses "DT" Hdt). reflexivity.
    + unfold rowSectionOf. rewrite Hsec. done.
  - intros data row d slot c Hdt Hcell Hsec Ht.
    eexists. split.
    + apply (slotCell_session data row d slot c); [done|].
      unfold parseCell. rewrite Ht. simpl.
      rewrite (resolveCode_key courses "DT" Hdt). reflexivity.
    + unfold rowSectionOf. rewrite Hsec. done.
Qed.

End SectionFacts.

Lemma parseSchedule_section_witness :
  (exists s, s ∈ parseSchedule Sample.courses Sample.gridB /\
             date s = "05-Jan-2026" /\ timeSlot s = "09:00 - 10:15" /\
             raw s = "DT 3 A" /\ courseCode s = "DT" /\
             sessionNumber s = "3" /\ section s = Some SecA) /\
  (exists s, s ∈ parseSchedule Sample.courses Sample.gridB /\
             date s = "05-Jan-2026" /\ timeSlot s = "10:30 - 11:45" /\
             raw s = "DT 3" /\ courseCode s = "DT" /\
             sessionNumber s = "3" /\ section s = Some SecB).
Proof.
  destruct (parseSchedule_section Sample.courses) as (_ & _ & HA & HB).
  assert (is_Some (Sample.courses !! "DT")) as Hdt by (by eexists).
  split.
  - apply (HA Sample.gridB Sample.sectionB "05-Jan-2026" "09:00 - 10:15"
             (Sample.textCell "DT 3 A")); [done| |reflexivity..].
    by exists [mkRow None; Sample.headerB; Sample.sectionB],
              [Sample.textCell "Session Date"; Sample.textCell "Classroom";
               Sample.textCell "Section"; Sample.textCell "09:00 - 10:15";
               Sample.textCell "10:30 - 11:45"], [], [], 0.
  - apply (HB Sample.gridB Sample.sectionB "05-Jan-2026" "10:30 - 11:45"
             (Sample.textCell "DT 3")); [done| |reflexivity..].
    by exists [mkRow None; Sample.headerB; Sample.sectionB],
              [Sample.textCell "Session Date"; Sample.textCell "Classroom";
               Sample.textCell "Section"; Sample.textCell "09:00 - 10:15";
               Sample.textCell "10:30 - 11:45"], [], [], 1.
Defined.

(** C1.  The claim fails on the code.  The validation tests
    [courses[courseCode]] on an object literal, so a first token that is
    the name of a member inherited from [Object.prototype] passes it: the
    cell "constructor 1" yields a session although "constructor" is no
    key of the course mapping, with or without its non-alphanumeric
    characters. *)
Theorem inherited_name_passes_validation :
  firstToken "constructor 1" = Some "constructor" /\
  unknownToken Sample.courses "constructor" /\
  parseSchedule Sample.courses Sample.inheritedGrid
  = [ mkSession "05-Jan-2026" "09:00 - 10:15" "constructor" "1" (Some SecA)
        "constructor 1" false ] /\
  Sample.courses !! "constructor" = None.
Proof. split_and!; [reflexivity|split; reflexivity|reflexivity..]. Qed.

(** ** The course catalog *)

Module NormalizeFacts.
Import Text TextFacts.

Lemma noRun_weaken b l : noRun b l -> noRun false l.
Proof. destruct l; simpl; [done|]. intros [_ ?]. split; [done|assumption]. Qed.

Lemma noRun_collapse b l : noRun b (collapseWsL b l).
Proof.
  revert b. induction l as [|c l IH]; intros b; simpl; [done|].
  destruct (isSpace c) eqn:Hc.
  - destruct b; [apply IH|]. simpl. split; [done|]. apply IH.
  - simpl. rewrite Hc. split; [done|]. apply IH.
Qed.

Lemma collapse_only_spaces b l :
  Forall (fun c => isSpace c = true -> c = space) (collapseWsL b l).
Proof.
  revert b. induction l as [|c l IH]; intros b; simpl; [constructor|].
  destruct (isSpace c) eqn:Hc.
  - destruct b; [apply IH|]. constructor; [done|apply IH].
  - constructor; [congruence|apply IH].
Qed.

Lemma noRun_dropWhile p b l : noRun b l -> noRun false (dropWhile p l).
Proof.
  revert b. induction l as [|c l IH]; intros b; simpl; [done|].
  intros [H1 H2]. destruct (p c).
  - by apply IH in H2.
  - simpl. split; [done|assumption].
Qed.

Lemma Forall_dropWhile {A} (P : A -> Prop) p l :
  Forall P l -> Forall P (dropWhile p l).
Proof.
  induction 1 as [|x l Hx Hl IH]; simpl; [constructor|].
  destruct (p x); [done|by constructor].
Qed.

Lemma trimEndL_cons c l :
  trimEndL (c :: l) =
  match trimEndL l with
  | [] => if isSpace c then [] else [c]
  | t => c :: t
  end.
Proof. done. Qed.

Lemma noRun_trimEnd b l : noRun b l -> noRun b (trimEndL l).
Proof.
  revert b. induction l as [|c l IH]; intros b; [done|].
  intros [H1 H2]. rewrite trimEndL_cons.
  apply IH in H2.
  destruct (trimEndL l) as [|x t].
  - destruct (isSpace c) eqn:Hc; simpl; [done|]. by rewrite Hc.
  - split; [done|assumption].
Qed.

Lemma Forall_trimEnd (P : ascii -> Prop) l :
  Forall P l -> Forall P (trimEndL l).
Proof.
  induction 1 as [|c l Hc Hl IH]; [constructor|].
  rewrite trimEndL_cons. destruct (trimEndL l) as [|x t].
  - destruct (isSpace c); by repeat constructor.
  - by constructor.
Qed.

Lemma head_trimEnd l c :
  head (trimEndL l) = Some c -> head l = Some c.
Proof.
  destruct l as [|x l]; [done|]. rewrite trimEndL_cons.
  destruct (trimEndL l); [|done]. by destruct (isSpace x).
Qed.

Lemma last_trimEnd l c :
  last (trimEndL l) = Some c -> isSpace c = false.
Proof.
  induction l as [|x l IH]; [done|]. rewrite trimEndL_cons.
  destruct (trimEndL l) as [|y t] eqn:Ht.
  - destruct (isSpace x) eqn:Hx; [done|]. intros [= <-]. done.
  - rewrite last_cons_cons. exact IH.
Qed.

Lemma head_dropWhile_space l c :
  head (dropWhile isSpace l) = Some c -> isSpace c = false.
Proof.
  destruct (dropWhile isSpace l) as [|x t] eqn:Hd; [done|].
  intros [= <-]. by apply dropWhile_head in Hd.
Qed.

Lemma trimL_normal l :
  Forall (fun c => isSpace c = true -> c = space) l ->
  noRun false l ->
  normalizedText (str (trimL l)).
Proof.
  intros Hf Hn. unfold normalizedText. rewrite chars_str. unfold trimL, trimStartL.
  split_and!.
  - by apply Forall_trimEnd, Forall_dropWhile.
  - eapply noRun_trimEnd, noRun_dropWhile, Hn.
  - intros c Hc%head_trimEnd. by apply head_dropWhile_space in Hc.
  - apply last_trimEnd.
Qed.

Lemma normalizeType_normalized s : normalizedText (normalizeType s).
Proof.
  unfold normalizeType, trim, collapseWs. rewrite chars_str.
  apply trimL_normal; [apply collapse_only_spaces|apply noRun_collapse].
Qed.

(** Normalization only touches whitespace. *)
Lemma ink_dropWhile l :
  filter (fun c => isSpace c = false) (dropWhile isSpace l)
  = filter (fun c => isSpace c = false) l.
Proof.
  induction l as [|c l IH]; simpl; [done|].
  destruct (isSpace c) eqn:Hc; [|done].
  rewrite filter_cons_False by congruence. done.
Qed.

Lemma ink_trimEnd l :
  filter (fun c => isSpace c = false) (trimEndL l)
  = filter (fun c => isSpace c = false) l.
Proof.
  induction l as [|c l IH]; [done|]. rewrite trimEndL_cons.
  destruct (trimEndL l) as [|x t].
  - destruct (isSpace c) eqn:Hc.
    + rewrite filter_cons_False by congruence. by rewrite <- IH.
    + rewrite !filter_cons_True by done. by rewrite <- IH.
  - rewrite !(filter_cons _ c). by rewrite IH.
Qed.

Lemma ink_collapse b l :
  filter (fun c => isSpace c = false) (collapseWsL b l)
  = filter (fun c => isSpace c = false) l.
Proof.
  revert b. induction l as [|c l IH]; intros b; simpl; [done|].
  destruct (isSpace c) eqn:Hc.
  - rewrite (filter_cons_False _ c) by congruence.
    destruct b; [apply IH|]. rewrite filter_cons_False by done. apply IH.
  - rewrite !filter_cons_True by done. by rewrite IH.
Qed.

Lemma ink_newlines l :
  filter (fun c => isSpace c = false) (newlinesToSpacesL l)
  = filter (fun c => isSpace c = false) l.
Proof.
  induction l as [|c l IH]; simpl; [done|].
  case_bool_decide as Hc.
  - subst c. rewrite !filter_cons_False by done. exact IH.
  - rewrite !(filter_cons _ c). by rewrite IH.
Qed.

Lemma normalizeType_ink s : inkOf (normalizeType s) = inkOf s.
Proof.
  unfold inkOf, normalizeType, trim, collapseWs, newlinesToSpaces, trimL, trimStartL.
  rewrite !chars_str.
  by rewrite ink_trimEnd, ink_dropWhile, ink_collapse, ink_newlines.
Qed.

End NormalizeFacts.

Section CatalogFacts.
Context {num : Type}.
Variable Number : option string -> num.
Variable numTruthy : num -> bool.
Variable zero : num.
Implicit Types (courses : gmap string (Course num)) (row : list string).

Lemma storedType_eq row :
  default "Unknown" (orElse (normalizeType <$> row !! 4) (Some "Unknown"))
  = storedType row.
Proof.
  unfold storedType, orElse. destruct (row !! 4) as [text|]; simpl; [|done].
  by case_bool_decide.
Qed.

Lemma unknown_normalized : normalizedText "Unknown".
Proof.
  refine (conj _ (conj _ (conj _ _))).
  - repeat constructor; intros H; vm_compute in H; discriminate.
  - vm_compute. repeat split; discriminate.
  - intros c [= <-]. reflexivity.
  - intros c [= <-]. reflexivity.
Qed.

Lemma storedType_normalized row : normalizedText (storedType row).
Proof.
  unfold storedType. destruct (row !! 4) as [text|]; [|apply unknown_normalized].
  case_bool_decide; [apply unknown_normalized|].
  apply NormalizeFacts.normalizeType_normalized.
Qed.

(** A row either leaves the mapping alone or writes its course under
    its trimmed code. *)
Lemma parseCourseRow_lookup courses row k c :
  parseCourseRow Number numTruthy zero courses row !! k = Some c ->
  courses !! k = Some c
  \/ (Text.trim <$> row !! 3 = Some k /\ k <> "" /\ code c = k
      /\ type c = storedType row).
Proof.
  unfold parseCourseRow.
  destruct (Text.trim <$> row !! 3) as [cd|] eqn:Hcd; [|auto].
  case_bool_decide as He; [auto|].
  destruct (decide (cd = k)) as [->|Hne].
  - rewrite lookup_insert_eq. intros [= <-]. right. simpl.
    by rewrite storedType_eq.
  - rewrite lookup_insert_ne by done. auto.
Qed.

Lemma fold_parseCourseRow_lookup rows courses k c :
  fold_left (parseCourseRow Number numTruthy zero) rows courses !! k = Some c ->
  courses !! k = Some c
  \/ exists row, row ∈ rows /\ Text.trim <$> row !! 3 = Some k /\ k <> ""
                 /\ code c = k /\ type c = storedType row.
Proof.
  revert courses. induction rows as [|row rows IH]; intros courses; simpl; [auto|].
  intros [H|(row' & Hin & H)]%IH.
  - apply parseCourseRow_lookup in H as [H|H]; [auto|].
    right. exists row. split; [left|done].
  - right. exists row'. split; [by right|done].
Qed.

(** C4, as amended.  The type of every course of the catalog is the
    type text of a data row with that code, whitespace-normalized (line
    feeds and runs of whitespace collapsed to single spaces, then
    trimmed) and otherwise kept as it is, whether or not it is one of
    Core, Elective and Unknown; it is 'Unknown' when the column is
    missing or the normalized text is empty. *)
Theorem parseCourses_type rows k c :
  parseCourses Number numTruthy zero rows !! k = Some c ->
  exists row,
    row ∈ drop 1 rows /\ Text.trim <$> row !! 3 = Some k /\
    type c = storedType row /\
    normalizedText (type c) /\
    (row !! 4 = None -> type c = "Unknown") /\
    (forall text, row !! 4 = Some text ->
       (normalizeType text = "" -> type c = "Unknown") /\
       (normalizeType text <> "" ->
          type c = normalizeType text /\ inkOf (type c) = inkOf text)).
Proof.
  unfold parseCourses.
  intros [H|(row & Hin & Hk & _ & _ & Ht)]%fold_parseCourseRow_lookup;
    [by rewrite lookup_empty in H|].
  exists row. split_and!; try done.
  - rewrite Ht. apply storedType_normalized.
  - intros Hn. by rewrite Ht; unfold storedType; rewrite Hn.
  - intros text Htx. rewrite Ht. unfold storedType. rewrite Htx.
    case_bool_decide as He; split; try done.
    intros _. split; [done|]. apply NormalizeFacts.normalizeType_ink.
Qed.

End CatalogFacts.

(** C4 as it is worded fails: a type text outside the enumeration is
    kept, not turned into 'Unknown'. *)
Lemma free_text_type_is_kept :
  exists c,
    parseCourses Sample.number Sample.nonZero Sample.zero Sample.catalog !! "GT" = Some c
    /\ type c = "Compl. Elective"
    /\ type c ∉ ["Core"; "Elective"; "Unknown"].
Proof.
  eexists. split; [reflexivity|]. split; [reflexivity|].
  simpl. rewrite !elem_of_cons, elem_of_nil. intros [?|[?|[?|[]]]]; discriminate.
Qed.

Lemma parseCourses_type_witness :
  exists row,
    row ∈ drop 1 Sample.catalog /\ Text.trim <$> row !! 3 = Some "DT" /\
    "Core" = storedType row.
Proof.
  destruct (parseCourses_type Sample.number Sample.nonZero Sample.zero Sample.catalog
              "DT" (mkCourse "DT" "Design Thinking" (Some 3%nat) "Core") eq_refl)
    as (row & H1 & H2 & H3 & _).
  exists row. split_and!; assumption.
Defined.

(** ** The roster lookup *)

Section RosterFacts.
Implicit Types (row : list string) (rows : list (list string)).

Lemma emailMatches_spec email row :
  emailMatches (Text.toLowerCase (Text.trim email)) row = true
  <-> rosterMatch email row.
Proof.
  unfold emailMatches, rosterMatch. rewrite bool_decide_eq_true.
  destruct (row !! 3) as [e|]; simpl; split.
  - intros [= H]. eauto.
  - intros (e' & [= <-] & H). by rewrite H.
  - done.
  - by intros (e' & ? & _).
Qed.

Lemma find_none_iff email rows :
  List.find (emailMatches (Text.toLowerCase (Text.trim email))) rows = None
  <-> forall row, row ∈ rows -> ~ rosterMatch email row.
Proof.
  induction rows as [|r rows IH]; simpl.
  - split; [by intros _ ? ?%elem_of_nil|done].
  - destruct (emailMatches _ r) eqn:Hm.
    + split; [done|]. intros H. exfalso. apply (H r); [left|].
      by apply emailMatches_spec.
    + rewrite IH. split.
      * intros H row [->|?]%elem_of_cons; [|by apply H].
        intros Hr%emailMatches_spec. congruence.
      * intros H row Hin. apply H. by right.
Qed.

Lemma find_first email rows row :
  firstMatch email rows row ->
  List.find (emailMatches (Text.toLowerCase (Text.trim email))) rows = Some row.
Proof.
  intros (before & after & -> & Hm & Hb).
  induction before as [|r before IH]; simpl.
  - apply emailMatches_spec in Hm. by rewrite Hm.
  - destruct (emailMatches _ r) eqn:Hr.
    + exfalso. apply (Hb r); [left|]. by apply emailMatches_spec.
    + apply IH. intros r' Hin. apply Hb. by right.
Qed.

Lemma electives_nil email rows emap :
  (forall code rs row, (code, rs) ∈ emap -> row ∈ rs -> ~ rosterMatch email row) ->
  electives (parseStudentProfile email rows emap) = [].
Proof.
  intros H. unfold parseStudentProfile. simpl.
  induction emap as [|[code rs] emap IH]; [done|].
  rewrite filter_cons_False.
  - apply IH. intros code' rs' row Hin. apply (H code' rs' row). by right.
  - simpl. intros Hex%Is_true_true. apply existsb_exists in Hex as (row & Hin & Hm).
    apply (H code rs row); [left| by apply list_elem_of_In | by apply emailMatches_spec].
Qed.

(** C9, as amended.  When no roster row matches the email (column 3,
    trimmed, without regard to case), or the first matching row has no
    column 9 or one whose value, trimmed and upper-cased, is neither "A"
    nor "B", the profile has section A; when no row of any elective
    roster matches, its electives are empty.  The profile is returned in
    every case and carries the email as given. *)
Theorem parseStudentProfile_defaults mail rows emap :
  let profile := parseStudentProfile mail rows emap in
  ((forall row, row ∈ rows -> ~ rosterMatch mail row) ->
     userSection profile = SecA)
  /\ (forall row, firstMatch mail rows row ->
        (forall v, row !! 9 = Some v ->
              Text.toUpperCase (Text.trim v) <> "A" /\
              Text.toUpperCase (Text.trim v) <> "B") ->
        userSection profile = SecA)
  /\ ((forall code rs row,
         (code, rs) ∈ emap -> row ∈ rs -> ~ rosterMatch mail row) ->
      electives profile = [])
  /\ email profile = mail.
Proof.
  intros profile. split_and!.
  - intros H%find_none_iff. unfold profile, parseStudentProfile. simpl.
    by rewrite H.
  - intros row Hf%find_first Hv. unfold profile, parseStudentProfile. simpl.
    rewrite Hf. simpl. destruct (row !! 9) as [v|]; simpl; [|done].
    destruct (Hv v eq_refl) as [HA HB]. unfold sectionOfString.
    by rewrite !bool_decide_eq_false_2.
  - apply electives_nil.
  - done.
Qed.

End RosterFacts.

(** C9 as it is worded fails: the value "b" of column 9 is neither "A"
    nor "B", and the profile has section B. *)
Lemma lower_case_section_is_read :
  let rows := [Sample.rosterRow "asha@iimidr.ac.in" "b"] in
  firstMatch "asha@iimidr.ac.in" rows (Sample.rosterRow "asha@iimidr.ac.in" "b")
  /\ Sample.rosterRow "asha@iimidr.ac.in" "b" !! 9 = Some "b"
  /\ "b" <> "A" /\ "b" <> "B"
  /\ userSection (parseStudentProfile "asha@iimidr.ac.in" rows []) = SecB.
Proof.
  split_and!; try done.
  exists [], []. split_and!; [done| |by intros ? ?%elem_of_nil].
  by eexists.
Qed.

Lemma parseStudentProfile_defaults_witness :
  userSection (parseStudentProfile "ravi@iimidr.ac.in"
                 [Sample.rosterRow "asha@iimidr.ac.in" "B"] []) = SecA
  /\ electives (parseStudentProfile "ravi@iimidr.ac.in"
                  [Sample.rosterRow "asha@iimidr.ac.in" "B"] []) = [].
Proof.
  pose proof (parseStudentProfile_defaults "ravi@iimidr.ac.in"
                [Sample.rosterRow "asha@iimidr.ac.in" "B"] []) as (H1 & _ & H3 & _).
  split.
  - apply H1. intros row ->%list_elem_of_singleton (e & [= <-] & He).
    vm_compute in He. discriminate He.
  - apply H3. by intros code rs row ?%elem_of_nil.
Defined.

(** ** The sync endpoint *)

Section RouteFacts.
Context {num : Type}.
Variable Number : option string -> num.
Variable parseDate : string -> option Z.
Variable setHours : Z -> num -> num -> option Z.
Variable now : Z.
Variable startOfToday : Z.

Lemma myClasses_no_elective mail (data : ScheduleData num) s c :
  s ∈ myClasses mail data ->
  dataCourses data !! courseCode s = Some c ->
  type c <> "Elective".
Proof.
  unfold myClasses. intros Hs Hc He.
  apply filterClassesForUser_keeps in Hs.
  unfold keepSession in Hs. rewrite Hc in Hs.
  rewrite (bool_decide_eq_true_2 _ He) in Hs.
  apply bool_decide_eq_true in Hs. simpl in Hs. by apply elem_of_nil in Hs.
Qed.

(** C10.  Whenever the handler starts the reconciler, the profile was
    built from an empty elective-roster map and has no electives, and the
    list handed to [syncToCalendar] holds no session of a course whose
    type is Elective. *)
Theorem sync_route_never_syncs_electives session spreadsheetId fetched r resp run :
  POST Number parseDate setHours now startOfToday
       session spreadsheetId fetched r = (resp, Some run) ->
  exists auth mail data,
    session = Some auth /\ userEmail auth = Some mail /\ fetched = Some data /\
    electives (parseStudentProfile mail (studentMaster data) []) = [] /\
    run = syncToCalendar Number parseDate setHours now startOfToday
            (dataCourses data) r (myClasses mail data) /\
    forall s c,
      s ∈ myClasses mail data ->
      dataCourses data !! courseCode s = Some c ->
      type c <> "Elective".
Proof.
  unfold POST.
  destruct session as [[token mail]|]; [|done].
  destruct (truthy token && truthy mail) eqn:Ha; [|done].
  destruct (truthy spreadsheetId); [|done].
  destruct fetched as [data|]; [|done].
  apply andb_true_iff in Ha as [_ Hm].
  destruct mail as [mail|]; [|done]. simpl.
  intros Hr.
  exists (mkAuth token (Some mail)), mail, data. split_and!; try done.
  - by destruct (completed _); injection Hr as _ <-.
  - apply myClasses_no_elective.
Qed.

End RouteFacts.

Lemma sync_route_never_syncs_electives_witness :
  let mail := "asha@iimidr.ac.in" in
  let run :=
    syncToCalendar Sample.number Sample.parseDate Sample.setHours
      Sample.now Sample.startOfToday Sample.mixedCourses emptyRemote
      (myClasses mail Sample.syncData) in
  POST Sample.number Sample.parseDate Sample.setHours Sample.now
    Sample.startOfToday (Some (mkAuth (Some "token") (Some mail)))
    (Some "sheet") (Some Sample.syncData) emptyRemote
  = (Success 1, Some run) /\
  type <$> (Sample.mixedCourses !! courseCode Sample.gtSession)
  = Some "Elective" /\
  Sample.gtSession ∈ dataSchedule Sample.syncData /\
  (Sample.gtSession ∉ myClasses mail Sample.syncData) /\
  exists auth mail' data,
    Some (mkAuth (Some "token") (Some mail)) = Some auth /\
    userEmail auth = Some mail' /\ Some Sample.syncData = Some data /\
    electives (parseStudentProfile mail' (studentMaster data) []) = [] /\
    run = syncToCalendar Sample.number Sample.parseDate Sample.setHours
            Sample.now Sample.startOfToday (dataCourses data) emptyRemote
            (myClasses mail' data) /\
    forall s c,
      s ∈ myClasses mail' data ->
      dataCourses data !! courseCode s = Some c ->
      type c <> "Elective".
Proof.
  intros mail run.
  assert (POST Sample.number Sample.parseDate Sample.setHours Sample.now
            Sample.startOfToday (Some (mkAuth (Some "token") (Some mail)))
            (Some "sheet") (Some Sample.syncData) emptyRemote
          = (Success 1, Some run)) as Hpost by reflexivity.
  split_and!; [exact Hpost|reflexivity| | |].
  - apply elem_of_cons. right. apply list_elem_of_singleton, eq_refl.
  - change (myClasses mail Sample.syncData) with [Sample.standing].
    intros [=]%list_elem_of_singleton.
  - exact (sync_route_never_syncs_electives
             Sample.number Sample.parseDate Sample.setHours
             Sample.now Sample.startOfToday
             (Some (mkAuth (Some "token") (Some mail)))
             (Some "sheet") (Some Sample.syncData) emptyRemote
             (Success 1) run Hpost).
Defined.

(** ** Attendance statistics *)

Section StatsFacts.
Variable attendance : gmap string string.
Implicit Types (s : ClassSession) (stats : gmap string CourseStat).

Lemma Qfloor_fifth n :
  Qfloor (inject_Z (Z.of_nat n) * (20 # 100)) = (Z.of_nat n / 5)%Z.
Proof.
  unfold Qfloor, Qmult, inject_Z. simpl Qnum. simpl Qden.
  change (Z.pos (1 * 100)) with (5 * 20)%Z.
  apply Z.div_mul_cancel_r; lia.
Qed.

Lemma floorOfFifth_div n : floorOfFifth n = (n / 5)%nat.
Proof.
  unfold floorOfFifth. rewrite Qfloor_fifth.
  change 5%Z with (Z.of_nat 5). rewrite <- Nat2Z.inj_div. apply Nat2Z.id.
Qed.

Lemma tallyOf_snoc code sessions s :
  tallyOf attendance code (sessions ++ [s]) =
  if bool_decide (courseCode s = code) then
    let st := addTotal (tallyOf attendance code sessions) in
    if bool_decide (attendance !! sessionKey s = Some "Present")
    then addAttended st
    else if bool_decide (attendance !! sessionKey s = Some "Absent")
         then addLeave st else st
  else tallyOf attendance code sessions.
Proof.
  unfold tallyOf, markedOf, sessionsOf. rewrite !filter_app.
  case_bool_decide as Hc.
  - rewrite !(filter_cons_True _ s [] Hc), !length_app, filter_nil.
    repeat case_bool_decide; simplify_eq.
    + rewrite (filter_cons_True _ s) by done.
      rewrite (filter_cons_False _ s) by congruence.
      unfold addAttended, addTotal. simpl. f_equal; lia.
    + rewrite (filter_cons_False _ s) by congruence.
      rewrite (filter_cons_True _ s) by done.
      unfold addLeave, addTotal. simpl. f_equal; lia.
    + rewrite !(filter_cons_False _ s) by congruence.
      unfold addTotal. simpl. f_equal; lia.
  - rewrite (filter_cons_False _ s) by done. rewrite filter_nil.
    by rewrite !app_nil_r.
Qed.

Lemma sessionsOf_snoc code sessions s :
  sessionsOf code (sessions ++ [s]) =
  sessionsOf code sessions ++ (if bool_decide (courseCode s = code) then [s] else []).
Proof.
  unfold sessionsOf. rewrite filter_app. f_equal.
  case_bool_decide; [by rewrite filter_cons_True|by rewrite filter_cons_False].
Qed.

(** The counters after the loop over the sessions: a code that is the
    name of an inherited member never gets a record. *)
Lemma fold_countSession sessions code :
  fold_left (countSession attendance) sessions ∅ !! code =
  if bool_decide (sessionsOf code sessions = []) || inherited code
  then None else Some (tallyOf attendance code sessions).
Proof.
  induction sessions as [|s sessions IH] using rev_ind.
  - simpl. by rewrite lookup_empty.
  - rewrite fold_left_app. simpl.
    set (stats := fold_left (countSession attendance) sessions ∅) in *.
    rewrite tallyOf_snoc, sessionsOf_snoc.
    unfold countSession.
    set (stats1 := if bool_decide (is_Some (stats !! courseCode s))
                      || inherited (courseCode s)
                   then stats
                   else <[courseCode s := mkStat 0 0 0 0]> stats).
    destruct (decide (courseCode s = code)) as [Hc|Hc].
    + rewrite (bool_decide_eq_true_2 _ Hc).
      rewrite (bool_decide_eq_false_2 (_ ++ [s] = []))
        by (by destruct (sessionsOf _ _)).
      destruct (inherited code) eqn:Hi.
      * rewrite orb_true_r in IH.
        assert (stats1 !! code = None) as H1.
        { unfold stats1. by rewrite Hc, Hi, orb_true_r, IH. }
        simpl. rewrite Hc.
        repeat case_bool_decide; rewrite ?lookup_alter_eq, H1; done.
      * rewrite orb_false_r in IH.
        assert (stats1 !! code = Some (tallyOf attendance code sessions)) as H1.
        { unfold stats1. rewrite Hc, Hi, orb_false_r, IH.
          destruct (decide (sessionsOf code sessions = [])) as [He|He].
          - rewrite (bool_decide_eq_true_2 _ He).
            rewrite bool_decide_eq_false_2 by (by intros [? ?]).
            rewrite lookup_insert_eq. unfold tallyOf, markedOf. by rewrite He.
          - rewrite (bool_decide_eq_false_2 _ He).
            rewrite bool_decide_eq_true_2 by eauto.
            by rewrite IH, (bool_decide_eq_false_2 _ He). }
        simpl. rewrite Hc.
        repeat case_bool_decide; rewrite ?lookup_alter_eq, H1; done.
    + rewrite (bool_decide_eq_false_2 _ Hc), app_nil_r.
      assert (stats1 !! code = stats !! code) as H1.
      { unfold stats1.
        destruct (bool_decide (is_Some (stats !! courseCode s))
                  || inherited (courseCode s)); [done|].
        by rewrite lookup_insert_ne. }
      rewrite <- IH, <- H1.
      repeat case_bool_decide; by rewrite ?lookup_alter_ne by done.
Qed.

Lemma markedOf_disjoint code sessions :
  length (markedOf attendance "Present" code sessions)
  + length (markedOf attendance "Absent" code sessions)
  <= length (sessionsOf code sessions).
Proof.
  unfold markedOf. induction (sessionsOf code sessions) as [|s l IH]; [done|].
  rewrite !filter_cons. repeat case_decide; simpl; try lia. congruence.
Qed.

(** C3.  Every record of [calculateStats] has [allowedLeaves] equal to
    the floor of a fifth of [total], [attended + leaves] at most [total],
    and [total] equal to the number of sessions of that code in the
    list, whatever their dates. *)
Theorem calculateStats_record sessions code st :
  calculateStats sessions attendance !! code = Some st ->
  Z.of_nat (allowedLeaves st)
    = Qfloor (inject_Z (Z.of_nat (total st)) * (20 # 100))
  /\ allowedLeaves st = (total st / 5)%nat
  /\ attended st + leaves st <= total st
  /\ total st = length (sessionsOf code sessions)
  /\ attended st = length (markedOf attendance "Present" code sessions)
  /\ leaves st = length (markedOf attendance "Absent" code sessions).
Proof.
  unfold calculateStats. rewrite lookup_fmap, fold_countSession.
  destruct (bool_decide (sessionsOf code sessions = []) || inherited code);
    [done|].
  intros [= <-].
  unfold setAllowedLeaves, tallyOf. cbn [allowedLeaves total attended leaves].
  split_and!; try done.
  - rewrite floorOfFifth_div, Qfloor_fifth. apply (Nat2Z.inj_div _ 5).
  - apply floorOfFifth_div.
  - apply markedOf_disjoint.
Qed.

End StatsFacts.

(** On the session counts a timetable can reach, the product evaluated in
    binary64 has the same floor as the exact one. *)
Lemma floorOfFifth_binary64 :
  forallb (fun n => (Binary64.floorOfFifth n =? Z.of_nat (floorOfFifth n))%Z)
          (seq 0 4096) = true.
Proof. vm_compute. reflexivity. Qed.

Lemma calculateStats_record_witness :
  calculateStats Sample.sixSessions Sample.marks !! "DT" = Some (mkStat 6 2 1 1)
  /\ (1 = 6 / 5)%nat /\ 2 + 1 <= 6.
Proof.
  assert (calculateStats Sample.sixSessions Sample.marks !! "DT"
          = Some (mkStat 6 2 1 1)) as H by reflexivity.
  split; [exact H|].
  destruct (calculateStats_record Sample.marks Sample.sixSessions "DT" _ H)
    as (_ & H2 & H3 & _).
  split; [exact H2|exact H3].
Defined.

(** ** The remote calendar *)

Section RemoteFacts.
Implicit Types (r : Remote) (e : Event) (b : EventBody).

Lemma event_eta e : mkEvent (eventId e) (body e) = e.
Proof. by destruct e. Qed.

Lemma hasEvent_true id r :
  hasEvent id r = true <-> exists e, e ∈ events r /\ eventId e = id.
Proof.
  unfold hasEvent. rewrite existsb_exists. split.
  - intros (e & Hin%list_elem_of_In & He%bool_decide_eq_true). eauto.
  - intros (e & Hin%list_elem_of_In & He). exists e.
    by rewrite bool_decide_eq_true.
Qed.

(** In a well-formed calendar an identifier names one event. *)
Lemma wf_id_inj r e1 e2 :
  wfRemote r -> e1 ∈ events r -> e2 ∈ events r ->
  eventId e1 = eventId e2 -> e1 = e2.
Proof.
  intros [Hnd _]. induction (events r) as [|e l IH]; [by intros ?%elem_of_nil|].
  rewrite fmap_cons in Hnd. apply NoDup_cons in Hnd as [Hni Hnd].
  intros [->|H1]%elem_of_cons [->|H2]%elem_of_cons Heq; [done|..].
  - exfalso. apply Hni. rewrite Heq. by apply list_elem_of_fmap_2.
  - exfalso. apply Hni. rewrite <- Heq. by apply list_elem_of_fmap_2.
  - by apply IH.
Qed.

Lemma elem_of_eventsInsert b r e :
  e ∈ events (eventsInsert b r) <-> e ∈ events r \/ e = mkEvent (nextId r) b.
Proof. simpl. rewrite elem_of_app, list_elem_of_singleton. done. Qed.

Lemma wf_eventsInsert b r : wfRemote r -> wfRemote (eventsInsert b r).
Proof.
  intros [Hnd Hlt]. split; simpl.
  - rewrite fmap_app. apply NoDup_app. split_and!; [done| |apply NoDup_singleton].
    intros id (e & -> & Hin)%list_elem_of_fmap Heq%list_elem_of_singleton.
    apply Hlt in Hin. simpl in Heq. lia.
  - intros e [Hin| ->]%elem_of_eventsInsert; [apply Hlt in Hin; lia|simpl; lia].
Qed.

Lemma eventsDelete_Some id r r' :
  eventsDelete id r = Some r' ->
  (exists e, e ∈ events r /\ eventId e = id) /\
  nextId r' = nextId r /\
  forall e, e ∈ events r' <-> e ∈ events r /\ eventId e <> id.
Proof.
  unfold eventsDelete. destruct (hasEvent id r) eqn:Hh; [|done].
  intros [= <-]. simpl. split_and!; [by apply hasEvent_true|done|].
  intros e. rewrite list_elem_of_filter. tauto.
Qed.

Lemma wf_eventsDelete id r r' :
  wfRemote r -> eventsDelete id r = Some r' -> wfRemote r'.
Proof.
  intros [Hnd Hlt]. unfold eventsDelete. destruct (hasEvent id r); [|done].
  intros [= <-]. split; simpl.
  - clear Hlt. induction (events r) as [|e l IH]; [done|].
    rewrite fmap_cons in Hnd. apply NoDup_cons in Hnd as [Hni Hnd].
    rewrite filter_cons. case_decide; [|by apply IH].
    rewrite fmap_cons. apply NoDup_cons. split; [|by apply IH].
    intros (e' & Heq & [_ Hin]%list_elem_of_filter)%list_elem_of_fmap.
    apply Hni. rewrite Heq. by apply list_elem_of_fmap_2.
  - intros e [_ Hin]%list_elem_of_filter. by apply Hlt.
Qed.

Lemma eventsUpdate_Some id b r r' :
  eventsUpdate id b r = Some r' ->
  (exists e, e ∈ events r /\ eventId e = id) /\
  nextId r' = nextId r /\
  eventId <$> events r' = eventId <$> events r /\
  forall e, e ∈ events r' <->
            (e ∈ events r /\ eventId e <> id) \/ e = mkEvent id b.
Proof.
  unfold eventsUpdate. destruct (hasEvent id r) eqn:Hh; [|done].
  intros [= <-]. simpl. apply hasEvent_true in Hh.
  split_and!; [done|done|..].
  - rewrite <- list_fmap_compose. apply list_fmap_ext.
    intros i e _. simpl. by case_bool_decide.
  - intros e. rewrite list_elem_of_fmap. split.
    + intros (e' & -> & Hin). case_bool_decide; [by right|by left].
    + intros [[Hin Hne]| ->].
      * exists e. by rewrite bool_decide_eq_false_2.
      * destruct Hh as (e0 & Hin & Hid). exists e0.
        by rewrite bool_decide_eq_true_2.
Qed.

Lemma wf_eventsUpdate id b r r' :
  wfRemote r -> eventsUpdate id b r = Some r' -> wfRemote r'.
Proof.
  intros [Hnd Hlt] (Hex & Hn & Hids & Hel)%eventsUpdate_Some.
  split; [by rewrite Hids|].
  intros e [[Hin _]| ->]%Hel; rewrite Hn; [by apply Hlt|]. simpl.
  destruct Hex as (e0 & Hin & <-). by apply Hlt.
Qed.

(** Writing to an event the body it already has changes nothing. *)
Lemma eventsUpdate_same r e :
  wfRemote r -> e ∈ events r ->
  eventsUpdate (eventId e) (body e) r = Some r.
Proof.
  intros Hwf Hin. unfold eventsUpdate.
  rewrite (proj2 (hasEvent_true _ _)) by eauto.
  f_equal. destruct r as [evs nid]. simpl in *. f_equal.
  rewrite <- (list_fmap_id evs) at 2. apply list_fmap_ext.
  intros i e' Hi. simpl. case_bool_decide as Heq; [|done].
  rewrite event_eta. symmetry. apply (wf_id_inj _ _ _ Hwf); [|done..].
  by eapply list_elem_of_lookup_2.
Qed.

End RemoteFacts.

(** ** The reconciler *)

Section ReconcilerFacts.
Context {num : Type}.
Variable Number : option string -> num.
Variable parseDate : string -> option Z.
Variable setHours : Z -> num -> num -> option Z.
Variable now : Z.
Variable startOfToday : Z.
Variable courses : gmap string (Course num).
Implicit Types (r : Remote) (e : Event) (b : EventBody) (s : ClassSession)
  (run : Run) (M : gmap string nat).

Local Abbreviation bodyOf := (eventBody Number parseDate setHours courses).
Local Abbreviation step := (syncStep Number parseDate setHours courses).
Local Abbreviation future := (futureClasses parseDate startOfToday).
Local Abbreviation sync :=
  (syncToCalendar Number parseDate setHours now startOfToday courses).
Local Abbreviation call := (callFor Number parseDate setHours courses).

Lemma signatureOf_nonempty s : signatureOf s <> "".
Proof. unfold signatureOf. destruct (date s); vm_compute; discriminate. Qed.

Lemma eventBody_Some s b :
  bodyOf s = Some b ->
  signature b = Some (signatureOf s) /\ source b = Some "ipm-tracker".
Proof.
  unfold eventBody.
  destruct (Text.trim <$> splitOn "-" (timeSlot s)) as [|st [|en rest]]; [done..|].
  destruct (parseDate (date s)) as [d|]; [|done]. simpl.
  destruct (slotTime Number setHours d st); [|done]. simpl.
  destruct (slotTime Number setHours d en); [|done]. simpl.
  by intros [= <-].
Qed.

(** The map built from a listing: the last listed event of a signature
    wins. *)
Lemma existingMap_fold items M sg :
  sg <> "" ->
  fold_left
    (fun m e =>
       if truthy (signature (body e))
       then <[ default "" (signature (body e)) := eventId e ]> m
       else m) items M !! sg
  = match last (filter (fun e => signature (body e) = Some sg) items) with
    | Some e => Some (eventId e)
    | None => M !! sg
    end.
Proof.
  intros Hne. revert M. induction items as [|e items IH]; intros M; simpl; [done|].
  rewrite IH. rewrite filter_cons. case_decide as Hs.
  - rewrite last_cons. destruct (last _); [done|].
    rewrite Hs. simpl. rewrite bool_decide_eq_false_2 by done. simpl.
    by rewrite lookup_insert_eq.
  - destruct (last _); [done|].
    destruct (truthy (signature (body e))) eqn:Ht; [|done].
    destruct (signature (body e)) as [sg'|]; [|done]. simpl.
    rewrite lookup_insert_ne; [done|congruence].
Qed.

Lemma existingMap_Some items sg id :
  sg <> "" ->
  existingMap items !! sg = Some id ->
  exists e, e ∈ items /\ signature (body e) = Some sg /\ eventId e = id.
Proof.
  intros Hne. unfold existingMap. rewrite existingMap_fold by done.
  destruct (last _) as [e|] eqn:Hl; [|by rewrite lookup_empty].
  intros [= <-]. exists e.
  assert (e ∈ filter (fun e => signature (body e) = Some sg) items) as Hin.
  { apply last_Some in Hl as [l' ->]. apply elem_of_app. right. left. }
  apply list_elem_of_filter in Hin as [? ?]. done.
Qed.

Lemma existingMap_None items sg e :
  sg <> "" ->
  existingMap items !! sg = None ->
  e ∈ items -> signature (body e) <> Some sg.
Proof.
  intros Hne. unfold existingMap. rewrite existingMap_fold by done.
  destruct (last _) as [e'|] eqn:Hl; [done|]. intros _ Hin Hs.
  apply last_None in Hl.
  assert (e ∈ filter (fun e => signature (body e) = Some sg) items) as Hin'
    by by apply list_elem_of_filter.
  rewrite Hl in Hin'. by apply elem_of_nil in Hin'.
Qed.

(** What the listing-based map says about a calendar whose listing has
    one event per signature. *)
Lemma existingMap_listed r sg id :
  sg <> "" -> uniqueListed now r ->
  existingMap (eventsList now r) !! sg = Some id
  <-> exists e, sigListed now r sg e /\ eventId e = id.
Proof.
  intros Hne Hu. split.
  - intros (e & Hin & Hs & Hid)%existingMap_Some; [|done].
    apply list_elem_of_filter in Hin as [Hl%Is_true_true Hin].
    exists e. by repeat split.
  - intros (e & (Hin & Hl & Hs) & Hid).
    destruct (existingMap (eventsList now r) !! sg) as [id'|] eqn:Hm.
    + apply existingMap_Some in Hm as (e' & Hin' & Hs' & Hid'); [|done].
      apply list_elem_of_filter in Hin' as [Hl'%Is_true_true Hin'].
      assert (e = e') as <- by by apply (Hu sg).
      congruence.
    + exfalso. eapply (existingMap_None _ _ e Hne Hm); [|done].
      apply list_elem_of_filter. by rewrite Is_true_true.
Qed.

(** One iteration of the loop, when the run goes on. *)
Lemma syncStep_completed M run s :
  completed (step M run s) = true ->
  completed run = true /\
  ((isCancelled s = true /\ M !! signatureOf s = None /\ step M run s = run)
   \/ (isCancelled s = true /\
       exists id r', M !! signatureOf s = Some id /\
                     eventsDelete id (remote run) = Some r' /\
                     step M run s = record s (Delete id) r' run)
   \/ (isCancelled s = false /\
       exists b, bodyOf s = Some b /\ M !! signatureOf s = None /\
                 step M run s
                 = record s (Insert b) (eventsInsert b (remote run)) run)
   \/ (isCancelled s = false /\
       exists b id r', bodyOf s = Some b /\ M !! signatureOf s = Some id /\
                       eventsUpdate id b (remote run) = Some r' /\
                       step M run s = record s (Update id b) r' run)).
Proof.
  unfold syncStep. destruct (completed run) eqn:Hc; simpl; [|by rewrite Hc].
  intros H. split; [done|].
  destruct (isCancelled s).
  - destruct (M !! signatureOf s) as [id|]; [|by left].
    destruct (eventsDelete id (remote run)) as [r'|] eqn:Hd; [|done].
    right; left. split; [done|]. by exists id, r'.
  - destruct (bodyOf s) as [b|]; [|done].
    destruct (M !! signatureOf s) as [id|].
    + destruct (eventsUpdate id b (remote run)) as [r'|] eqn:Hu; [|done].
      right; right; right. split; [done|]. by exists b, id, r'.
    + right; right; left. split; [done|]. by exists b.
Qed.

Lemma fold_syncStep_completed M classes run :
  completed (fold_left (step M) classes run) = true -> completed run = true.
Proof.
  revert run. induction classes as [|s classes IH]; intros run; simpl; [done|].
  intros H%IH. by apply syncStep_completed in H as [? _].
Qed.

(** One iteration, whether or not the run goes on. *)
Lemma syncStep_cases M run s :
  step M run s = run \/ step M run s = abort run \/
  exists o r', completed run = true /\ call M (remote run) s o r' /\
               step M run s = record s o r' run.
Proof.
  unfold syncStep. destruct (completed run) eqn:Hc; simpl; [|by left].
  destruct (isCancelled s) eqn:Hcan.
  - destruct (M !! signatureOf s) as [id|] eqn:Hm; [|by left].
    destruct (eventsDelete id (remote run)) as [r'|] eqn:Hd; [|by right; left].
    right; right. exists (Delete id), r'. split_and!; [done| |done].
    by constructor.
  - destruct (bodyOf s) as [b|] eqn:Hb; [|by right; left].
    destruct (M !! signatureOf s) as [id|] eqn:Hm.
    + destruct (eventsUpdate id b (remote run)) as [r'|] eqn:Hu; [|by right; left].
      right; right. exists (Update id b), r'. split_and!; [done| |done].
      by constructor.
    + right; right. exists (Insert b), (eventsInsert b (remote run)).
      split_and!; [done| |done]. by constructor.
Qed.

Lemma callFor_wf M r s o r' : call M r s o r' -> wfRemote r -> wfRemote r'.
Proof.
  intros [id r1 _ _ Hd|b _ _ _|id b r1 _ _ _ Hu] Hwf.
  - by eapply wf_eventsDelete.
  - by apply wf_eventsInsert.
  - by eapply wf_eventsUpdate.
Qed.

Lemma callFor_nextId M r s o r' : call M r s o r' -> nextId r <= nextId r'.
Proof.
  intros [id r1 _ _ Hd|b _ _ _|id b r1 _ _ _ Hu].
  - apply eventsDelete_Some in Hd as (_ & -> & _). done.
  - simpl. lia.
  - apply eventsUpdate_Some in Hu as (_ & -> & _). done.
Qed.

(** A call leaves alone every event whose identifier the map does not
    hold. *)
Lemma callFor_spares M r s o r' e :
  call M r s o r' -> e ∈ events r ->
  (forall sg, M !! sg <> Some (eventId e)) -> e ∈ events r'.
Proof.
  intros [id r1 _ Hm Hd|b _ _ _|id b r1 _ _ Hm Hu] Hin Hid.
  - apply eventsDelete_Some in Hd as (_ & _ & Hel). apply Hel. split; [done|].
    intros Heq. apply (Hid (signatureOf s)). by rewrite Heq.
  - apply elem_of_eventsInsert. by left.
  - apply eventsUpdate_Some in Hu as (_ & _ & _ & Hel). apply Hel. left.
    split; [done|]. intros Heq. apply (Hid (signatureOf s)). by rewrite Heq.
Qed.

(** What holds of a whole loop: the calendar stays well formed, spared
    events stay, and each call recorded is a call for a session of the
    list. *)
Lemma fold_syncStep_general M classes : forall run,
  let run' := fold_left (step M) classes run in
  (wfRemote (remote run) -> wfRemote (remote run')) /\
  nextId (remote run) <= nextId (remote run') /\
  (forall e, e ∈ events (remote run) ->
             (forall sg, M !! sg <> Some (eventId e)) ->
             e ∈ events (remote run')) /\
  (exists new, ops run' = ops run ++ new /\
               length new <= length classes /\
               forall s o, (s, o) ∈ new ->
                 s ∈ classes /\ exists r1 r2, call M r1 s o r2).
Proof.
  induction classes as [|s classes IH]; intros run; simpl.
  - split_and!; [done..|]. exists []. rewrite app_nil_r.
    split_and!; [done..|]. by intros ? ? ?%elem_of_nil.
  - destruct (IH (step M run s)) as (IHwf & IHn & IHsp & new & Hnew & Hlen & Hcalls).
    destruct (syncStep_cases M run s)
      as [Heq|[Heq|(o & r' & Hc & Hcall & Heq)]]; rewrite Heq in *.
    + split_and!; [done..|]. exists new. split_and!; [done|lia|].
      intros s' o' Hin. destruct (Hcalls s' o' Hin) as [? ?]. split; [by right|done].
    + split_and!; [done..|]. exists new. split_and!; [done|lia|].
      intros s' o' Hin. destruct (Hcalls s' o' Hin) as [? ?]. split; [by right|done].
    + simpl in *. split_and!.
      * intros Hwf. apply IHwf. by eapply callFor_wf.
      * pose proof (callFor_nextId _ _ _ _ _ Hcall). lia.
      * intros e Hin Hid. apply IHsp; [|done]. by eapply callFor_spares.
      * exists ((s, o) :: new). split_and!.
        -- by rewrite Hnew, <- (assoc_L (++)).
        -- simpl. lia.
        -- intros s' o' [[= -> ->]|Hin]%elem_of_cons.
           ++ split; [left|eauto].
           ++ destruct (Hcalls s' o' Hin) as [? ?]. split; [by right|done].
Qed.

Lemma callFor_shape M r s o r' :
  call M r s o r' ->
  match o with
  | Delete id => isCancelled s = true /\ M !! signatureOf s = Some id
  | Insert b =>
      isCancelled s = false /\ M !! signatureOf s = None /\ bodyOf s = Some b
  | Update id b =>
      isCancelled s = false /\ M !! signatureOf s = Some id /\ bodyOf s = Some b
  end.
Proof. intros [id r1 ? ? ?|b ? ? ?|id b r1 ? ? ? ?]; done. Qed.

Lemma existingMap_ids r sg id :
  existingMap (eventsList now r) !! sg = Some id ->
  exists e, e ∈ events r /\ listed now e = true /\ eventId e = id.
Proof.
  destruct (decide (sg = "")) as [->|Hne].
  - unfold existingMap. intros H. exfalso. revert H.
    generalize (eventsList now r).
    assert (forall l (m : gmap string nat), m !! "" = None ->
              fold_left
                (fun m e => if truthy (signature (body e))
                            then <[default "" (signature (body e)) := eventId e]> m
                            else m) l m !! "" = None) as Hfold.
    { induction l as [|e l IH]; intros m Hm; simpl; [done|]. apply IH.
      destruct (signature (body e)) as [sg|]; simpl; [|done].
      case_bool_decide as He; simpl; [done|]. by rewrite lookup_insert_ne. }
    intros l. by rewrite Hfold.
  - intros (e & [Hl%Is_true_true Hin]%list_elem_of_filter & _ & Hid)%existingMap_Some;
      [|done]. by exists e.
Qed.

End ReconcilerFacts.

Section Idempotence.
Context {num : Type}.
Variable Number : option string -> num.
Variable parseDate : string -> option Z.
Variable setHours : Z -> num -> num -> option Z.
Variable now : Z.
Variable startOfToday : Z.
Variable courses : gmap string (Course num).
Implicit Types (r : Remote) (e : Event) (b : EventBody) (s : ClassSession)
  (run : Run) (M : gmap string nat).

Local Abbreviation bodyOf := (eventBody Number parseDate setHours courses).
Local Abbreviation step := (syncStep Number parseDate setHours courses).
Local Abbreviation future := (futureClasses parseDate startOfToday).
Local Abbreviation sync :=
  (syncToCalendar Number parseDate setHours now startOfToday courses).
Local Abbreviation settled' := (settled Number parseDate setHours now courses).

(** A step for a session of signature [sg] only touches the events of
    that signature.  [frame sg r r'] says the others are as they were. *)
Lemma frame_sigListed sg r r' :
  (forall e, signature (body e) <> Some sg -> e ∈ events r <-> e ∈ events r') ->
  forall sg' e, sg' <> sg -> sigListed now r sg' e <-> sigListed now r' sg' e.
Proof.
  intros Hf sg' e Hne. unfold sigListed. split.
  - intros (Hin & Hl & Hs). split_and!; [|done..]. apply Hf; [congruence|done].
  - intros (Hin & Hl & Hs). split_and!; [|done..]. apply Hf; [congruence|done].
Qed.

Lemma frame_invariant sg r r' M P Q :
  (forall e, signature (body e) <> Some sg -> e ∈ events r <-> e ∈ events r') ->
  (forall e1 e2, sigListed now r' sg e1 -> sigListed now r' sg e2 -> e1 = e2) ->
  sg ∉ signatureOf <$> P -> sg ∉ signatureOf <$> Q ->
  uniqueListed now r -> settled' P r -> agrees now M Q r ->
  uniqueListed now r' /\ settled' P r' /\ agrees now M Q r'.
Proof.
  intros Hf Hone HP HQ Hu Hs Ha.
  pose proof (frame_sigListed sg r r' Hf) as Hfr.
  split_and!.
  - intros sg' e1 e2 Hne H1 H2. destruct (decide (sg' = sg)) as [->|Hd].
    + by apply Hone.
    + apply (Hu sg'); [done|by apply Hfr..].
  - intros s Hin. specialize (Hs s Hin).
    assert (signatureOf s <> sg) as Hd.
    { intros <-. apply HP. by apply list_elem_of_fmap_2. }
    destruct (isCancelled s).
    + intros e He. apply (Hs e). by apply Hfr.
    + destruct Hs as (b & e & Hb & Hin' & He). exists b, e. split_and!; [done| |done].
      apply Hf; [|done]. rewrite He.
      apply eventBody_Some in Hb as [-> _]. congruence.
  - intros s id Hin.
    assert (signatureOf s <> sg) as Hd.
    { intros <-. apply HQ. by apply list_elem_of_fmap_2. }
    rewrite (Ha s id Hin). split; intros (e & He & Hid); exists e;
      (split; [by apply Hfr|done]).
Qed.

(** One iteration keeps the calendar well formed. *)
Lemma syncStep_wf M run s :
  completed (step M run s) = true ->
  wfRemote (remote run) -> wfRemote (remote (step M run s)).
Proof.
  intros Hc Hwf.
  destruct (syncStep_completed _ _ _ _ _ _ _ Hc)
    as (_ & [(_ & _ & ->)|[(_ & id & r' & _ & Hd & ->)
            |[(_ & b & _ & _ & ->)|(_ & b & id & r' & _ & _ & Hu & ->)]]]);
    simpl; [done| |by apply wf_eventsInsert|].
  - by eapply wf_eventsDelete.
  - by eapply wf_eventsUpdate.
Qed.

(** One iteration, for a session whose signature no other session of
    the list has. *)
Lemma syncStep_invariant M P s Q run :
  completed (step M run s) = true ->
  signatureOf s ∉ signatureOf <$> P ->
  signatureOf s ∉ signatureOf <$> Q ->
  wfRemote (remote run) -> uniqueListed now (remote run) ->
  settled' P (remote run) -> agrees now M (s :: Q) (remote run) ->
  let r' := remote (step M run s) in
  uniqueListed now r' /\ settled' (P ++ [s]) r' /\ agrees now M Q r'.
Proof.
  intros Hc HP HQ Hwf Hu Hs Ha r'.
  assert (forall id, M !! signatureOf s = Some id <->
            exists e, sigListed now (remote run) (signatureOf s) e /\ eventId e = id)
    as Hhere by (intros id; apply Ha; left).
  assert (agrees now M Q (remote run)) as HaQ
    by (intros s' id Hin; apply Ha; by right).
  (* it is enough to settle [s] and to bound what changes *)
  enough ((forall e, signature (body e) <> Some (signatureOf s) ->
                     e ∈ events (remote run) <-> e ∈ events r') /\
          (forall e1 e2, sigListed now r' (signatureOf s) e1 ->
                         sigListed now r' (signatureOf s) e2 -> e1 = e2) /\
          settled' [s] r') as (Hf & Hone & Hnew).
  { destruct (frame_invariant _ _ _ M P Q Hf Hone HP HQ Hu Hs HaQ)
      as (Hu' & Hs' & Ha').
    split_and!; [done| |done].
    intros s' [Hin|Hin]%elem_of_app; [by apply Hs'|by apply Hnew]. }
  subst r'.
  destruct (syncStep_completed _ _ _ _ _ _ _ Hc)
    as (_ & [(Hcan & Hm & ->)|[(Hcan & id & r' & Hm & Hd & ->)
            |[(Hcan & b & Hb & Hm & ->)|(Hcan & b & id & r' & Hb & Hm & Hup & ->)]]]);
    cbn [remote record].
  - (* cancelled, nothing listed *)
    assert (forall e, ~ sigListed now (remote run) (signatureOf s) e) as Hno.
    { intros e He. assert (M !! signatureOf s = Some (eventId e)) as Hx
        by (apply Hhere; eauto). congruence. }
    split_and!; [done|by intros e1 e2 ?%Hno|].
    intros s' ->%list_elem_of_singleton. by rewrite Hcan.
  - (* cancelled, the listed event is deleted *)
    apply Hhere in Hm as (e0 & He0 & Hid).
    apply eventsDelete_Some in Hd as (_ & _ & Hel).
    assert (forall e, ~ sigListed now r' (signatureOf s) e) as Hno.
    { intros e (Hin & Hl & Hsg). apply Hel in Hin as [Hin Hne].
      apply Hne. rewrite <- Hid. f_equal.
      by apply (Hu (signatureOf s)); [apply signatureOf_nonempty| |]. }
    split_and!; [|by intros e1 e2 ?%Hno|].
    + intros e Hsg. rewrite Hel. split; [|by intros [? _]].
      intros Hin. split; [done|]. intros Heq. apply Hsg.
      destruct He0 as (Hin0 & _ & Hsg0).
      assert (e = e0) as -> by (apply (wf_id_inj _ _ _ Hwf); congruence).
      done.
    + intros s' ->%list_elem_of_singleton. by rewrite Hcan.
  - (* a new event is inserted *)
    assert (forall e, ~ sigListed now (remote run) (signatureOf s) e) as Hno.
    { intros e He. assert (M !! signatureOf s = Some (eventId e)) as Hx
        by (apply Hhere; eauto). congruence. }
    pose proof (eventBody_Some _ _ _ _ _ _ Hb) as [Hsg _].
    split_and!.
    + intros e He. rewrite elem_of_eventsInsert. split; [by left|].
      intros [?| ->]; [done|]. by simpl in He.
    + intros e1 e2 (Hin1 & Hl1 & Hs1) (Hin2 & Hl2 & Hs2).
      apply elem_of_eventsInsert in Hin1 as [Hin1| ->];
        [by exfalso; apply (Hno e1)|].
      apply elem_of_eventsInsert in Hin2 as [Hin2| ->];
        [by exfalso; apply (Hno e2)|done].
    + intros s' ->%list_elem_of_singleton. rewrite Hcan.
      exists b, (mkEvent (nextId (remote run)) b). split_and!; [done| |done].
      apply elem_of_eventsInsert. by right.
  - (* the listed event is updated *)
    apply Hhere in Hm as (e0 & He0 & Hid).
    apply eventsUpdate_Some in Hup as (_ & _ & _ & Hel).
    pose proof (eventBody_Some _ _ _ _ _ _ Hb) as [Hsg _].
    assert (forall e, e ∈ events (remote run) -> eventId e = id -> e = e0) as Hsame.
    { intros e Hin Heq. destruct He0 as (Hin0 & _ & _).
      apply (wf_id_inj _ _ _ Hwf); congruence. }
    split_and!.
    + intros e Hne. rewrite Hel. split.
      * intros Hin. left. split; [done|]. intros Heq.
        apply Hsame in Heq as ->; [|done]. by destruct He0 as (_ & _ & ?).
      * intros [[? _]| ->]; [done|]. by simpl in Hne.
    + intros e1 e2 (Hin1 & Hl1 & Hs1) (Hin2 & Hl2 & Hs2).
      assert (forall e, e ∈ events r' -> listed now e = true ->
                        signature (body e) = Some (signatureOf s) ->
                        e = mkEvent id b) as Hthe.
      { intros e [[Hin Hne]| ->]%Hel Hl Hse; [|done].
        exfalso. apply Hne. rewrite <- Hid. f_equal.
        by apply (Hu (signatureOf s)); [apply signatureOf_nonempty| |]. }
      rewrite (Hthe e1), (Hthe e2); done.
    + intros s' ->%list_elem_of_singleton. rewrite Hcan.
      exists b, (mkEvent id b). split_and!; [done| |done].
      apply Hel. by right.
Qed.

(** The loop over a list of pairwise distinct signatures. *)
Lemma fold_syncStep_invariant M Q : forall P run,
  completed (fold_left (step M) Q run) = true ->
  NoDup (signatureOf <$> (P ++ Q)) ->
  wfRemote (remote run) -> uniqueListed now (remote run) ->
  settled' P (remote run) -> agrees now M Q (remote run) ->
  let r' := remote (fold_left (step M) Q run) in
  wfRemote r' /\ uniqueListed now r' /\ settled' (P ++ Q) r'.
Proof.
  induction Q as [|s Q IH]; intros P run Hc Hnd Hwf Hu Hs Ha; simpl.
  - by rewrite app_nil_r.
  - simpl in Hc. pose proof (fold_syncStep_completed _ _ _ _ _ _ _ Hc) as Hc1.
    rewrite fmap_app, fmap_cons in Hnd.
    pose proof Hnd as Hnd'.
    apply NoDup_app in Hnd as (HndP & Hdis & [HsQ HndQ]%NoDup_cons).
    assert (signatureOf s ∉ signatureOf <$> P) as HsP.
    { intros Hin. apply (Hdis _ Hin). left. }
    destruct (syncStep_invariant M P s Q run Hc1 HsP HsQ Hwf Hu Hs Ha)
      as (Hu1 & Hs1 & Ha1).
    rewrite (cons_middle s P Q), (assoc_L (++)).
    apply IH; try done.
    + rewrite !fmap_app, <- (assoc_L (++)). exact Hnd'.
    + by apply syncStep_wf.
Qed.

Lemma countOps_record p s o r run :
  countOps p (record s o r run) = countOps p run + (if p o then 1 else 0).
Proof.
  unfold countOps, record. simpl. rewrite filter_app, length_app. f_equal.
  rewrite filter_cons, filter_nil. simpl. by destruct (p o).
Qed.

(** A run that completes makes one insert or update for each session
    that is not cancelled, and only inserts when the map is empty. *)
Lemma fold_syncStep_counts M classes : forall run,
  completed (fold_left (step M) classes run) = true ->
  let run' := fold_left (step M) classes run in
  inserts run' + updates run'
    = inserts run + updates run + length (liveClasses classes)
  /\ (M = ∅ -> updates run' = updates run).
Proof.
  induction classes as [|s classes IH]; intros run Hc; simpl.
  - split; [unfold liveClasses; simpl; lia|done].
  - simpl in Hc. pose proof (fold_syncStep_completed _ _ _ _ _ _ _ Hc) as Hc1.
    destruct (IH _ Hc) as [IH1 IH2]. rewrite IH1. unfold liveClasses.
    rewrite filter_cons. fold (liveClasses classes).
    destruct (syncStep_completed _ _ _ _ _ _ _ Hc1)
      as (_ & [(Hcan & Hm & Heq)|[(Hcan & id & r' & Hm & Hd & Heq)
              |[(Hcan & b & Hb & Hm & Heq)|(Hcan & b & id & r' & Hb & Hm & Hup & Heq)]]]);
      rewrite Heq in *; rewrite decide_bool_decide, Hcan;
      unfold inserts, updates in *; rewrite ?countOps_record; simpl.
    + split; [lia|done].
    + split; [lia|]. intros HM. rewrite (IH2 HM), countOps_record. simpl. lia.
    + split; [lia|]. intros HM. rewrite (IH2 HM), countOps_record. simpl. lia.
    + split; [lia|]. intros ->. by rewrite lookup_empty in Hm.
Qed.

(** The second run: every session is settled already, so the standing
    ones are rewritten as they are and the cancelled ones are skipped. *)
Lemma fold_syncStep_settled r all : forall classes ops,
  wfRemote r -> uniqueListed now r ->
  settled' all r ->
  staysListed Number parseDate setHours now courses (liveClasses all) ->
  classes ⊆ all ->
  exists ops',
    fold_left (step (existingMap (eventsList now r))) classes (mkRun r ops true)
      = mkRun r (ops ++ ops') true /\
    Forall (fun so => isUpdate so.2 = true) ops' /\
    length ops' = length (liveClasses classes).
Proof.
  intros classes ops Hwf Hu Hs Hv. revert ops.
  induction classes as [|s classes IH]; intros ops Hsub; simpl.
  - exists []. by rewrite app_nil_r.
  - assert (s ∈ all) as Hin by (apply Hsub; left).
    assert (classes ⊆ all) as Hsub' by (intros x ?; apply Hsub; by right).
    specialize (Hs s Hin). unfold liveClasses. rewrite filter_cons.
    fold (liveClasses classes). rewrite decide_bool_decide.
    unfold syncStep at 2. simpl.
    destruct (isCancelled s) eqn:Hcan; simpl.
    + destruct (existingMap (eventsList now r) !! signatureOf s) as [id|] eqn:Hm.
      { apply existingMap_listed in Hm as (e & He & _);
          [|apply signatureOf_nonempty|done]. by apply Hs in He. }
      apply IH; done.
    + destruct Hs as (b & e & Hb & Hine & Hbe). rewrite Hb.
      pose proof (eventBody_Some _ _ _ _ _ _ Hb) as [Hsg Hsrc].
      assert (sigListed now r (signatureOf s) e) as He.
      { split_and!; [done| |by rewrite Hbe].
        unfold listed. rewrite Hbe, Hsrc.
        rewrite bool_decide_eq_true_2 by done. simpl.
        apply Z.ltb_lt. apply (Hv s); [|done].
        by apply list_elem_of_filter. }
      assert (existingMap (eventsList now r) !! signatureOf s = Some (eventId e))
        as -> by (apply existingMap_listed;
                  [apply signatureOf_nonempty|done|by exists e]).
      rewrite <- Hbe, eventsUpdate_same by done.
      destruct (IH (ops ++ [(s, Update (eventId e) (body e))]) Hsub')
        as (ops' & Heq & Hall & Hlen).
      exists ((s, Update (eventId e) (body e)) :: ops'). split_and!.
      * unfold record. simpl. rewrite Heq. by rewrite <- (assoc_L (++)).
      * by constructor.
      * simpl. by rewrite Hlen.
Qed.

Lemma countOps_all_updates ops r c :
  Forall (fun so => isUpdate so.2 = true) ops ->
  inserts (mkRun r ops c) = 0 /\ deletes (mkRun r ops c) = 0 /\
  updates (mkRun r ops c) = length ops.
Proof.
  unfold inserts, updates, deletes, countOps. simpl.
  induction 1 as [|[s o] ops Ho _ IH]; [done|].
  destruct IH as (IH1 & IH2 & IH3). simpl in Ho.
  rewrite !filter_cons. destruct o; try done. simpl.
  rewrite IH1, IH2, IH3. done.
Qed.

End Idempotence.

Section TwoRuns.
Context {num : Type}.
Variable Number : option string -> num.
Variable parseDate : string -> option Z.
Variable setHours : Z -> num -> num -> option Z.
(** The clock of the first run and the clock of the second. *)
Variable now1 : Z.
Variable startOfToday1 : Z.
Variable now2 : Z.
Variable startOfToday2 : Z.
Variable courses : gmap string (Course num).
Implicit Types (r : Remote) (e : Event) (b : EventBody) (s : ClassSession)
  (run : Run) (M : gmap string nat).

Local Abbreviation future1 := (futureClasses parseDate startOfToday1).
Local Abbreviation sync1 :=
  (syncToCalendar Number parseDate setHours now1 startOfToday1 courses).
Local Abbreviation sync2 :=
  (syncToCalendar Number parseDate setHours now2 startOfToday2 courses).

(** What a later listing returns, an earlier one returns too. *)
Lemma sigListed_later r sg e :
  (now1 <= now2)%Z -> sigListed now2 r sg e -> sigListed now1 r sg e.
Proof.
  intros Hle (Hin & Hl & Hs). split_and!; [done| |done].
  unfold listed in *. apply andb_true_iff in Hl as [Ht Hl%Z.ltb_lt].
  rewrite Ht. simpl. apply Z.ltb_lt. lia.
Qed.

Lemma uniqueListed_later r :
  (now1 <= now2)%Z -> uniqueListed now1 r -> uniqueListed now2 r.
Proof.
  intros Hle Hu sg e1 e2 Hne H1 H2.
  apply (Hu sg); [done|by apply sigListed_later..].
Qed.

Lemma settled_later all r :
  (now1 <= now2)%Z ->
  settled Number parseDate setHours now1 courses all r ->
  settled Number parseDate setHours now2 courses all r.
Proof.
  intros Hle Hs s Hin. specialize (Hs s Hin).
  destruct (isCancelled s); [|done].
  intros e He. apply (Hs e). by apply sigListed_later.
Qed.

(** C5, as amended.  Two runs in succession over the same sessions and
    courses, the second at the same or a later clock reading at which the
    same sessions are dated today or later, and on the calendar the first
    run left.  When the calendar the first run starts from is well formed
    and its listing holds at most one event per signature, the sessions
    dated today or later have pairwise distinct signatures, the first run
    completes, and every event written for a session that is not
    cancelled ends after the second run's listing bound, then the second
    run completes, leaves the calendar exactly as the first run left it,
    inserts and deletes nothing, and makes as many updates as the first
    run made inserts and updates together; that is the first run's insert
    count when the first run's listing was empty. *)
Theorem syncToCalendar_idempotent r classes :
  wfRemote r -> uniqueListed now1 r ->
  (now1 <= now2)%Z ->
  futureClasses parseDate startOfToday2 classes = future1 classes ->
  NoDup (signatureOf <$> future1 classes) ->
  staysListed Number parseDate setHours now2 courses
    (liveClasses (future1 classes)) ->
  completed (sync1 r classes) = true ->
  let run1 := sync1 r classes in
  let run2 := sync2 (remote run1) classes in
  completed run2 = true /\
  remote run2 = remote run1 /\
  inserts run2 = 0 /\ deletes run2 = 0 /\
  updates run2 = inserts run1 + updates run1 /\
  (eventsList now1 r = [] -> updates run2 = inserts run1).
Proof.
  intros Hwf Hu Hle Hfut Hnd Hv Hc run1 run2.
  unfold syncToCalendar in Hc, run1.
  set (M0 := existingMap (eventsList now1 r)) in *.
  assert (agrees now1 M0 (future1 classes) r) as Ha.
  { intros s id _. apply existingMap_listed; [apply signatureOf_nonempty|done]. }
  assert (settled Number parseDate setHours now1 courses [] r) as Hs0
    by (by intros s ?%elem_of_nil).
  destruct (fold_syncStep_invariant Number parseDate setHours now1 courses
              M0 (future1 classes) [] _ Hc Hnd Hwf Hu Hs0 Ha)
    as (Hwf1 & Hu1 & Hs1).
  fold run1 in Hwf1, Hu1, Hs1. simpl in Hs1.
  destruct (fold_syncStep_counts Number parseDate setHours courses
              M0 (future1 classes) _ Hc) as [Hcnt Hemp].
  fold run1 in Hcnt, Hemp.
  destruct (fold_syncStep_settled Number parseDate setHours now2 courses
              (remote run1) (future1 classes) (future1 classes) [] Hwf1
              (uniqueListed_later _ Hle Hu1) (settled_later _ _ Hle Hs1) Hv
              (reflexivity _))
    as (ops' & Heq & Hall & Hlen).
  assert (run2 = mkRun (remote run1) ops' true) as ->.
  { unfold run2, syncToCalendar. rewrite Hfut. exact Heq. }
  destruct (countOps_all_updates ops' (remote run1) true Hall) as (Hi & Hd & Hup).
  split_and!; try done.
  - rewrite Hup, Hlen, Hcnt. unfold inserts, updates, countOps. simpl. lia.
  - intros He. rewrite Hup, Hlen.
    assert (M0 = ∅) as HM by (unfold M0; by rewrite He).
    rewrite (Hemp HM) in Hcnt. unfold inserts, updates, countOps in *.
    simpl in *. lia.
Qed.

End TwoRuns.

Section Cancelled.
Context {num : Type}.
Variable Number : option string -> num.
Variable parseDate : string -> option Z.
Variable setHours : Z -> num -> num -> option Z.
Variable now : Z.
Variable startOfToday : Z.
Variable courses : gmap string (Course num).
Implicit Types (r : Remote) (e : Event) (b : EventBody) (s : ClassSession)
  (run : Run) (M : gmap string nat).

Local Abbreviation bodyOf := (eventBody Number parseDate setHours courses).
Local Abbreviation step := (syncStep Number parseDate setHours courses).
Local Abbreviation future := (futureClasses parseDate startOfToday).
Local Abbreviation sync :=
  (syncToCalendar Number parseDate setHours now startOfToday courses).
Local Abbreviation call := (callFor Number parseDate setHours courses).

Lemma hasEvent_false id r :
  hasEvent id r = false <-> forall e, e ∈ events r -> eventId e <> id.
Proof.
  split.
  - intros Hh e Hin Heq. assert (hasEvent id r = true) as Ht
      by (apply hasEvent_true; eauto). congruence.
  - intros Hno. destruct (hasEvent id r) eqn:Hh; [|done].
    apply hasEvent_true in Hh as (e & Hin & Heq). by destruct (Hno e Hin).
Qed.

(** An identifier that was issued and names no event any more names none
    after a call either. *)
Lemma callFor_gone M r s o r' id :
  call M r s o r' -> id < nextId r -> hasEvent id r = false ->
  hasEvent id r' = false.
Proof.
  intros Hcall Hlt Hno. rewrite hasEvent_false in Hno. apply hasEvent_false.
  destruct Hcall as [id' r1 _ _ Hd|b _ _ _|id' b r1 _ _ _ Hu].
  - apply eventsDelete_Some in Hd as (_ & _ & Hel).
    intros e [Hin _]%Hel. by apply Hno.
  - intros e [Hin| ->]%elem_of_eventsInsert; [by apply Hno|]. simpl. lia.
  - apply eventsUpdate_Some in Hu as ((e0 & Hin0 & Hid0) & _ & _ & Hel).
    intros e [[Hin _]| ->]%Hel; [by apply Hno|]. simpl.
    intros ->. by apply (Hno e0).
Qed.

Lemma fold_syncStep_gone M classes id : forall run,
  id < nextId (remote run) -> hasEvent id (remote run) = false ->
  hasEvent id (remote (fold_left (step M) classes run)) = false.
Proof.
  induction classes as [|t classes IH]; intros run Hlt Hno; simpl; [done|].
  destruct (syncStep_cases Number parseDate setHours courses M run t)
    as [Heq|[Heq|(o & r' & _ & Hcall & Heq)]]; rewrite Heq.
  - by apply IH.
  - by apply IH.
  - apply IH; simpl.
    + pose proof (callFor_nextId _ _ _ _ _ _ _ _ _ Hcall). lia.
    + by eapply callFor_gone.
Qed.

(** In a run that completes, a cancelled session whose signature the
    map holds has its delete recorded, and the event is gone for good. *)
Lemma fold_syncStep_deletes M classes t eid : forall run,
  completed (fold_left (step M) classes run) = true ->
  wfRemote (remote run) ->
  t ∈ classes -> isCancelled t = true -> M !! signatureOf t = Some eid ->
  (t, Delete eid) ∈ ops (fold_left (step M) classes run) /\
  hasEvent eid (remote (fold_left (step M) classes run)) = false.
Proof.
  induction classes as [|u classes IH]; intros run Hc Hwf Hin Hcan Hm;
    [by apply elem_of_nil in Hin|].
  simpl in Hc |- *.
  pose proof (fold_syncStep_completed _ _ _ _ _ _ _ Hc) as Hc1.
  apply elem_of_cons in Hin as [Htu|Hin].
  - subst u.
    destruct (syncStep_completed _ _ _ _ _ _ _ Hc1)
      as (_ & [(_ & Hm' & _)|[(_ & id' & r' & Hm' & Hd & Heq)
              |[(Hcan' & _)|(Hcan' & _)]]]); [congruence| |congruence..].
    assert (id' = eid) as -> by congruence.
    rewrite Heq.
    destruct (fold_syncStep_general Number parseDate setHours courses M
                classes (record t (Delete eid) r' run))
      as (_ & _ & _ & new & -> & _).
    split.
    + apply elem_of_app. left. simpl. apply elem_of_app. right. left.
    + pose proof Hd as Hd'.
      apply eventsDelete_Some in Hd as ((e0 & Hin0 & Hid0) & Hn & Hel).
      apply fold_syncStep_gone; simpl.
      * rewrite Hn, <- Hid0. by apply Hwf.
      * apply hasEvent_false. by intros e [_ ?]%Hel.
  - apply IH; [done| |done..].
    by apply (syncStep_wf Number parseDate setHours courses).
Qed.

(** Where the events of a calendar come from after a loop: they were
    there before, or were written for a session that is not cancelled and
    carry its signature. *)
Lemma fold_syncStep_origin M classes : forall run e,
  e ∈ events (remote (fold_left (step M) classes run)) ->
  e ∈ events (remote run) \/
  exists u, u ∈ classes /\ isCancelled u = false /\
            signature (body e) = Some (signatureOf u).
Proof.
  induction classes as [|t classes IH]; intros run e; simpl; [by left|].
  intros [Hin|(u & Hu & Hlive & Hsg)]%IH; [|right; exists u; by split; [right|]].
  destruct (syncStep_cases Number parseDate setHours courses M run t)
    as [Heq|[Heq|(o & r' & _ & Hcall & Heq)]]; rewrite Heq in Hin;
    [by left..|].
  simpl in Hin.
  destruct Hcall as [id r1 _ _ Hd|b Hlive Hb _|id b r1 Hlive Hb _ Hup].
  - apply eventsDelete_Some in Hd as (_ & _ & Hel).
    destruct (proj1 (Hel e) Hin) as [? _]. by left.
  - apply elem_of_eventsInsert in Hin as [?| ->]; [by left|].
    right. exists t. split_and!; [left|done|].
    simpl. by apply eventBody_Some in Hb as [? _].
  - apply eventsUpdate_Some in Hup as (_ & _ & _ & Hel).
    destruct (proj1 (Hel e) Hin) as [[? _]| ->]; [by left|].
    right. exists t. split_and!; [left|done|].
    simpl. by apply eventBody_Some in Hb as [? _].
Qed.

(** C6, as amended.  For a cancelled session of the list that is dated
    today or later: the only call a run makes for it is the delete of the
    identifier that the map built from the listing at the start of the
    run holds under its signature, never an insert or an update.  In a
    run that completes on a well-formed calendar, when the map holds an
    identifier, that listed event is deleted and is absent at the end.
    When no session dated today or later that is not cancelled has the
    same signature, an event left with the signature was in the calendar
    before the run, and, in such a run on a calendar whose listing holds
    at most one event per signature, it is one the listing did not
    return.  Against a calendar
    with no events the run makes no call for the session, and leaves no
    event with its signature unless such a session shares it. *)
Theorem syncToCalendar_cancelled r classes s :
  s ∈ classes -> isFuture parseDate startOfToday s = true ->
  isCancelled s = true ->
  let run := sync r classes in
  let existing := existingMap (eventsList now r) in
  let unshared :=
    forall s', s' ∈ future classes -> isCancelled s' = false ->
               signatureOf s' <> signatureOf s in
  (forall o, (s, o) ∈ ops run ->
     exists id, o = Delete id /\ existing !! signatureOf s = Some id)
  /\
  (wfRemote r -> completed run = true ->
   forall id, existing !! signatureOf s = Some id ->
     (exists e, sigListed now r (signatureOf s) e /\ eventId e = id) /\
     (s, Delete id) ∈ ops run /\
     hasEvent id (remote run) = false)
  /\
  (unshared ->
   forall e, e ∈ events (remote run) ->
     signature (body e) = Some (signatureOf s) ->
     e ∈ events r /\
     (wfRemote r -> uniqueListed now r -> completed run = true ->
      listed now e = false))
  /\
  (events r = [] ->
   (forall o, (s, o) ∉ ops run) /\
   (unshared ->
    forall e, e ∈ events (remote run) ->
              signature (body e) <> Some (signatureOf s))).
Proof.
  intros Hin Hf Hcan run existing unshared.
  assert (s ∈ future classes) as Hfs.
  { apply list_elem_of_filter. split; [by apply Is_true_true|done]. }
  assert (forall o, (s, o) ∈ ops run ->
            exists id, o = Delete id /\ existing !! signatureOf s = Some id)
    as Hcalls.
  { intros o Ho. unfold run, syncToCalendar in Ho. fold existing in Ho.
    destruct (fold_syncStep_general Number parseDate setHours courses existing
                (future classes) (mkRun r [] true))
      as (_ & _ & _ & new & Hnew & _ & Hshape).
    simpl in Hnew. rewrite Hnew in Ho.
    destruct (Hshape s o Ho) as (_ & r1 & r2 & Hcall%callFor_shape).
    destruct o as [b|id b|id]; [destruct Hcall; congruence..|].
    exists id. by destruct Hcall. }
  assert (wfRemote r -> completed run = true ->
          forall id, existing !! signatureOf s = Some id ->
            (exists e, sigListed now r (signatureOf s) e /\ eventId e = id) /\
            (s, Delete id) ∈ ops run /\ hasEvent id (remote run) = false)
    as Hdel.
  { intros Hwf Hc id Hm. split.
    - apply existingMap_Some in Hm as (e & He & Hs & Hid);
        [|apply signatureOf_nonempty].
      apply list_elem_of_filter in He as [Hl%Is_true_true He].
      exists e. by repeat split.
    - by apply (fold_syncStep_deletes existing (future classes) s id
                  (mkRun r [] true)). }
  assert (unshared ->
          forall e, e ∈ events (remote run) ->
            signature (body e) = Some (signatureOf s) -> e ∈ events r)
    as Horigin.
  { intros Hun e He Hs.
    apply fold_syncStep_origin in He as [He|(u & Hu & Hlive & Hsu)]; [done|].
    exfalso. apply (Hun u Hu Hlive). congruence. }
  split_and!; [done|done| |].
  - intros Hun e He Hs. split; [by apply Horigin|].
    intros Hwf Hu Hc. destruct (listed now e) eqn:Hl; [|done]. exfalso.
    assert (existing !! signatureOf s = Some (eventId e)) as Hm.
    { apply existingMap_listed; [apply signatureOf_nonempty|done|].
      exists e. split; [|done]. split_and!; [|done..]. by apply Horigin. }
    destruct (Hdel Hwf Hc _ Hm) as (_ & _ & Hgone).
    rewrite hasEvent_false in Hgone. by apply (Hgone e).
  - intros Hemp. split.
    + intros o (id & _ & Hm)%Hcalls. unfold existing, eventsList in Hm.
      rewrite Hemp, filter_nil in Hm. unfold existingMap in Hm.
      simpl in Hm. by rewrite lookup_empty in Hm.
    + intros Hun e He Hs. pose proof (Horigin Hun e He Hs) as He'.
      rewrite Hemp in He'. by apply elem_of_nil in He'.
Qed.

End Cancelled.

(** C5 as it is worded fails.  With a class that stands and a class struck
    through under the same signature, the first run against an empty
    calendar inserts one event and the second run deletes it; and once a
    calendar is in sync, a run makes no insert, so the update count of the
    run after it is not that run's insert count. *)
Lemma second_run_changes_calendar :
  let sync :=
    syncToCalendar Sample.number Sample.parseDate Sample.setHours
      Sample.now Sample.startOfToday Sample.courses in
  (let run1 := sync emptyRemote [Sample.standing; Sample.struck] in
   let run2 := sync (remote run1) [Sample.standing; Sample.struck] in
   completed run1 = true /\ completed run2 = true /\
   length (events (remote run1)) = 1 /\ events (remote run2) = [] /\
   remote run2 <> remote run1)
  /\
  (let run1 := sync emptyRemote [Sample.standing] in
   let run2 := sync (remote run1) [Sample.standing] in
   let run3 := sync (remote run2) [Sample.standing] in
   completed run2 = true /\ completed run3 = true /\
   inserts run2 = 0 /\ updates run3 = 1 /\ updates run3 <> inserts run2).
Proof.
  split; vm_compute; split_and!; try reflexivity; discriminate.
Qed.

Lemma syncToCalendar_idempotent_witness :
  let run1 :=
    syncToCalendar Sample.number Sample.parseDate Sample.setHours
      Sample.now Sample.startOfToday Sample.courses
      emptyRemote [Sample.endedStruck; Sample.standing] in
  let run2 :=
    syncToCalendar Sample.number Sample.parseDate Sample.setHours
      Sample.later Sample.startOfToday Sample.courses
      (remote run1) [Sample.endedStruck; Sample.standing] in
  completed run2 = true /\ remote run2 = remote run1 /\
  inserts run2 = 0 /\ deletes run2 = 0 /\
  updates run2 = inserts run1 + updates run1 /\
  updates run2 = inserts run1 /\ inserts run1 = 1.
Proof.
  intros run1 run2.
  destruct (syncToCalendar_idempotent Sample.number Sample.parseDate
              Sample.setHours Sample.now Sample.startOfToday
              Sample.later Sample.startOfToday Sample.courses
              emptyRemote [Sample.endedStruck; Sample.standing])
    as (H1 & H2 & H3 & H4 & H5 & H6).
  - split; [apply NoDup_nil_2|by intros e ?%elem_of_nil].
  - by intros sg e1 e2 _ [?%elem_of_nil _].
  - vm_compute. discriminate.
  - reflexivity.
  - apply (bool_decide_eq_true_1 _). vm_compute. reflexivity.
  - intros s b Hin Hb. vm_compute in Hin.
    apply list_elem_of_singleton in Hin as ->.
    vm_compute in Hb. injection Hb as <-. reflexivity.
  - reflexivity.
  - split_and!; [exact H1|exact H2|exact H3|exact H4|exact H5
                 |exact (H6 eq_refl)|reflexivity].
Defined.

(** C6 as it is worded fails.  Against an empty calendar, the struck class
    is skipped, and the event inserted for the standing class of the same
    date, slot and course is left with its signature. *)
Lemma cancelled_signature_remains :
  let run :=
    syncToCalendar Sample.number Sample.parseDate Sample.setHours
      Sample.now Sample.startOfToday Sample.courses
      emptyRemote [Sample.standing; Sample.struck] in
  isCancelled Sample.struck = true /\
  completed run = true /\
  exists e, e ∈ events (remote run) /\
            signature (body e) = Some (signatureOf Sample.struck).
Proof.
  split_and!; [reflexivity..|].
  vm_compute. eexists. split; [left|reflexivity].
Qed.

Lemma syncToCalendar_cancelled_witness :
  let run :=
    syncToCalendar Sample.number Sample.parseDate Sample.setHours
      Sample.now Sample.startOfToday Sample.courses
      Sample.synced [Sample.struck] in
  hasEvent 0 Sample.synced = true /\
  (exists e, sigListed Sample.now Sample.synced
               (signatureOf Sample.struck) e /\ eventId e = 0) /\
  (Sample.struck, Delete 0) ∈ ops run /\
  hasEvent 0 (remote run) = false.
Proof.
  intros run. split; [reflexivity|].
  assert (wfRemote Sample.synced) as Hwf.
  { split.
    - vm_compute. apply NoDup_singleton.
    - intros e He. vm_compute in He.
      apply list_elem_of_singleton in He as ->. vm_compute. lia. }
  destruct (syncToCalendar_cancelled Sample.number Sample.parseDate
              Sample.setHours Sample.now Sample.startOfToday Sample.courses
              Sample.synced [Sample.struck] Sample.struck)
    as (_ & Hdel & _ & _); [apply list_elem_of_singleton, eq_refl
                           |reflexivity..|].
  exact (Hdel Hwf eq_refl 0 eq_refl).
Defined.

(** The bound on the listing matters.  The loop takes the classes from
    the start of today, the listing only the events that end after the
    clock reading: a class of today that has ended is not found in the
    listing, and each run inserts it again, whether it had ended before
    the first run or ended between the two. *)
Lemma ended_class_is_inserted_again :
  (let sync :=
     syncToCalendar Sample.number Sample.parseDate Sample.setHours
       Sample.now Sample.startOfToday Sample.courses in
   let run1 := sync emptyRemote [Sample.ended] in
   let run2 := sync (remote run1) [Sample.ended] in
   inserts run1 = 1 /\ inserts run2 = 1 /\
   length (events (remote run2)) = 2)
  /\
  (let run1 :=
     syncToCalendar Sample.number Sample.parseDate Sample.setHours
       Sample.now Sample.startOfToday Sample.courses
       emptyRemote [Sample.standing] in
   let run2 :=
     syncToCalendar Sample.number Sample.parseDate Sample.setHours
       Sample.afterClass Sample.startOfToday Sample.courses
       (remote run1) [Sample.standing] in
   inserts run1 = 1 /\ inserts run2 = 1 /\
   length (events (remote run2)) = 2).
Proof. vm_compute. done. Qed.

Lemma filterClassesForUser_spec_witness :
  Sample.standing ∈
    filterClassesForUser [Sample.standing; Sample.struck] Sample.courses
      (mkProfile "asha@iimidr.ac.in" SecA []).
Proof.
  apply filterClassesForUser_spec. split; [left|].
  right; right; left. eexists. split; [reflexivity|]. split; [reflexivity|].
  by right.
Defined.

(** * Further properties *)

(** ** The course catalog, continued *)

Section CatalogMore.
Context {num : Type}.
Variable Number : option string -> num.
Variable numTruthy : num -> bool.
Variable zero : num.
Implicit Types (courses : gmap string (Course num)) (row : list string).

Lemma trim_trimmed s : trimmedText (Text.trim s).
Proof.
  unfold trimmedText, Text.trim. rewrite TextFacts.chars_str.
  unfold Text.trimL, Text.trimStartL. split.
  - intros c Hc%NormalizeFacts.head_trimEnd.
    by apply NormalizeFacts.head_dropWhile_space in Hc.
  - apply NormalizeFacts.last_trimEnd.
Qed.

Lemma parseCourseRow_written courses row k :
  Text.trim <$> row !! 3 = Some k -> k <> "" ->
  parseCourseRow Number numTruthy zero courses row
  = <[ k := courseOfRow Number numTruthy zero k row ]> courses.
Proof.
  intros Hk Hne. unfold parseCourseRow. rewrite Hk.
  rewrite bool_decide_eq_false_2 by done. f_equal.
  unfold courseOfRow. f_equal.
  - destruct (row !! 1) as [n|]; simpl; [|done]. unfold orElse. simpl.
    by case_bool_decide.
  - apply storedType_eq.
Qed.

Lemma parseCourseRow_other courses row k :
  Text.trim <$> row !! 3 <> Some k ->
  parseCourseRow Number numTruthy zero courses row !! k = courses !! k.
Proof.
  intros Hk. unfold parseCourseRow.
  destruct (Text.trim <$> row !! 3) as [k'|]; [|done].
  case_bool_decide; [done|]. rewrite lookup_insert_ne; [done|congruence].
Qed.

Lemma fold_parseCourseRow_other rows courses k :
  (forall row, row ∈ rows -> Text.trim <$> row !! 3 <> Some k) ->
  fold_left (parseCourseRow Number numTruthy zero) rows courses !! k
  = courses !! k.
Proof.
  revert courses. induction rows as [|row rows IH]; intros courses H; simpl; [done|].
  rewrite IH by (intros r ?; apply H; by right).
  apply parseCourseRow_other, H. left.
Qed.

(** X1.  The keys of the catalog are never empty and carry no whitespace
    at either end, and each course is filed under its own code. *)
Theorem parseCourses_keys rows k c :
  parseCourses Number numTruthy zero rows !! k = Some c ->
  k <> "" /\ trimmedText k /\ code c = k.
Proof.
  unfold parseCourses.
  intros [H|(row & _ & Hk & Hne & Hc & _)]%fold_parseCourseRow_lookup;
    [by rewrite lookup_empty in H|].
  split_and!; [done| |done].
  destruct (row !! 3) as [v|]; [|done]. injection Hk as <-. apply trim_trimmed.
Qed.

(** X2.  The header row is not read, a code that no data row carries is
    absent, and among the data rows that carry a code the last one wins:
    the course filed under the code is the one that row stands for. *)
Theorem parseCourses_last_row_wins header :
  (forall body k,
      (forall row, row ∈ body -> Text.trim <$> row !! 3 <> Some k) ->
      parseCourses Number numTruthy zero (header :: body) !! k = None)
  /\
  (forall before row after k,
      Text.trim <$> row !! 3 = Some k -> k <> "" ->
      (forall r, r ∈ after -> Text.trim <$> r !! 3 <> Some k) ->
      parseCourses Number numTruthy zero (header :: before ++ row :: after) !! k
      = Some (courseOfRow Number numTruthy zero k row)).
Proof.
  split.
  - intros body k H. unfold parseCourses.
    change (drop 1 (header :: body)) with body.
    by rewrite fold_parseCourseRow_other.
  - intros before row after k Hk Hne Hafter. unfold parseCourses.
    change (drop 1 (header :: before ++ row :: after))
      with (before ++ row :: after).
    rewrite fold_left_app. cbn [fold_left].
    rewrite fold_parseCourseRow_other by done.
    rewrite (parseCourseRow_written _ _ _ Hk Hne). apply lookup_insert_eq.
Qed.

End CatalogMore.

Lemma parseCourses_keys_witness :
  "DT" <> "" /\ trimmedText "DT".
Proof.
  destruct (parseCourses_keys Sample.number Sample.nonZero Sample.zero
              Sample.catalog "DT" _ eq_refl) as (H1 & H2 & _).
  by split.
Defined.

Lemma parseCourses_last_row_wins_witness :
  parseCourses Sample.number Sample.nonZero Sample.zero
    [ ["Sl"]; ["1"; "Old"; "2"; "DT"; "Core"]; ["2"; "New"; "3"; " DT "; "Core"] ]
    !! "DT"
  = Some (mkCourse "DT" "New" (Some 3%nat) "Core").
Proof.
  exact (proj2 (parseCourses_last_row_wins Sample.number Sample.nonZero
                  Sample.zero ["Sl"])
           [["1"; "Old"; "2"; "DT"; "Core"]]
           ["2"; "New"; "3"; " DT "; "Core"] [] "DT" eq_refl
           ltac:(discriminate) ltac:(by intros r ?%elem_of_nil)).
Defined.

(** ** The timetable grid, continued *)

Section GridMore.
Context {num : Type}.
Variable courses : gmap string (Course num).
Implicit Types (row : RowData) (s : ClassSession) (ts : list string).

Lemma omap_length_le {A B} (f : A -> option B) (l : list A) :
  length (omap f l) <= length l.
Proof.
  induction l as [|x l IH]; csimpl; [done|]. destruct (f x); csimpl; lia.
Qed.

Lemma rowSessions_length ts d row :
  length (rowSessions courses ts d row) <= length ts.
Proof.
  unfold rowSessions.
  etrans; [apply omap_length_le|]. by rewrite length_imap.
Qed.

Lemma fold_parseRow_length ts rows st :
  length (fold_left (parseRow courses ts) rows st).2
  <= length st.2 + length rows * length ts.
Proof.
  revert st. induction rows as [|row rows IH]; intros st; simpl; [lia|].
  etrans; [apply IH|].
  destruct (parseRow_cases courses ts st row) as [[-> _]|(d & _ & -> & _)];
    simpl; [lia|].
  rewrite length_app. pose proof (rowSessions_length ts d row). lia.
Qed.

(** While no row has both a date and a populated cell beyond it, nothing
    is produced and no date is carried. *)
Lemma fold_parseRow_undated ts rows :
  (forall row, row ∈ rows -> hasData row = true -> truthy (rowDate row) = false) ->
  fold_left (parseRow courses ts) rows (None, []) = (None, []).
Proof.
  induction rows as [|row rows IH]; intros H; cbn [fold_left]; [done|].
  assert (parseRow courses ts (None, []) row = (None, [])) as ->.
  { unfold parseRow. destruct (hasData row) eqn:Hh; simpl; [|done].
    rewrite (H row); [done|left|done]. }
  apply IH. intros r ?. apply H. by right.
Qed.

(** X3.  [parseSchedule] yields sessions only for a grid of at least
    three rows whose second row has more than three cells, and in which
    some data row has a date together with a populated cell beyond the
    date column; and it never yields more sessions than data rows times
    slot columns. *)
Theorem parseSchedule_needs data :
  (parseSchedule courses data <> [] ->
   exists rows headerRow row,
     rowData data = Some rows /\ 3 <= length rows /\
     rows !! 1 ≫= values = Some headerRow /\ 3 < length headerRow /\
     row ∈ drop 2 rows /\ hasData row = true /\ truthy (rowDate row) = true)
  /\
  (forall rows headerRow,
     rowData data = Some rows -> rows !! 1 ≫= values = Some headerRow ->
     length (parseSchedule courses data)
     <= (length rows - 2) * (length headerRow - 3)).
Proof.
  split.
  - unfold parseSchedule.
    destruct (rowData data) as [rows|]; [|done].
    destruct (length rows <? 3)%nat eqn:Hlen; [done|].
    destruct (rows !! 1 ≫= values) as [headerRow|] eqn:Hhd; [|done].
    apply Nat.ltb_ge in Hlen. intros Hne.
    destruct (decide (3 < length headerRow)) as [Hh|Hh].
    + destruct (decide (Exists (fun row => hasData row = true /\
                                          truthy (rowDate row) = true)
                               (drop 2 rows))) as [Hex|Hno].
      * apply Exists_exists in Hex as (row & Hin & Hd & Ht).
        exists rows, headerRow, row. by split_and!.
      * exfalso. apply Hne. unfold parseRows.
        rewrite fold_parseRow_undated; [done|].
        intros row Hin Hd. destruct (truthy (rowDate row)) eqn:Ht; [|done].
        exfalso. apply Hno, Exists_exists. by exists row.
    + exfalso. apply Hne.
      pose proof (fold_parseRow_length (Header.timeSlots headerRow)
                    (drop 2 rows) (None, [])) as Hb.
      unfold Header.timeSlots in Hb at 2.
      rewrite length_imap, !length_drop in Hb. simpl in Hb.
      unfold parseRows.
      destruct (fold_left _ _ _).2; [done|]. simpl in Hb.
      replace (length headerRow - 3) with 0 in Hb by lia.
      rewrite Nat.mul_0_r in Hb. exfalso. lia.
  - intros rows headerRow Hr Hh. unfold parseSchedule. rewrite Hr, Hh.
    destruct (length rows <? 3)%nat; [apply Nat.le_0_l|].
    pose proof (fold_parseRow_length (Header.timeSlots headerRow)
                  (drop 2 rows) (None, [])) as Hb.
    unfold Header.timeSlots in Hb at 2.
    rewrite length_imap, !length_drop in Hb. by simpl in Hb.
Qed.

(** X4.  Striking a cell through does not remove its session: the cell
    yields the session it yields unstruck, with the cancellation flag set
    exactly when [strikethrough] is [true]. *)
Theorem parseCell_strikethrough d rs slot sv fv st :
  parseCell courses d rs slot (Some (mkCell sv fv st))
  = withCancelled (bool_decide (st = Some true))
      <$> parseCell courses d rs slot (Some (mkCell sv fv None)).
Proof.
  unfold parseCell, cellText. simpl.
  destruct (orElse sv fv) as [text|]; [|done].
  destruct (_ || _ || _ || _); [done|]. simpl.
  destruct (Text.splitWs (Text.trim text)) as [|first rest]; [done|].
  destruct (resolveCode courses first); done.
Qed.

(** X5.  A cell whose text holds "lunch" or "break" anywhere, in any
    case, yields nothing, even when its first token is a course code. *)
Theorem parseCell_lunch_break d rs slot cell text :
  cellText cell = Some text ->
  Text.includes (Text.toLowerCase text) "lunch" = true
  \/ Text.includes (Text.toLowerCase text) "break" = true ->
  parseCell courses d rs slot cell = None.
Proof.
  intros Ht Hl. unfold parseCell. rewrite Ht. destruct cell as [c|]; [|done].
  destruct Hl as [-> | ->]; by rewrite ?orb_true_r.
Qed.


End GridMore.

Lemma parseSchedule_needs_witness :
  exists rows headerRow row,
    rowData Sample.grid = Some rows /\ 3 <= length rows /\
    rows !! 1 ≫= values = Some headerRow /\ 3 < length headerRow /\
    row ∈ drop 2 rows /\ hasData row = true /\ truthy (rowDate row) = true.
Proof.
  apply (proj1 (parseSchedule_needs Sample.courses Sample.grid)).
  vm_compute. discriminate.
Defined.

Lemma parseCell_lunch_break_witness :
  parseCell Sample.courses "05-Jan-2026" None "09:00 - 10:15"
    (Some (Sample.textCell "DT 4 (after Lunch)")) = None.
Proof.
  apply (parseCell_lunch_break Sample.courses _ _ _ _ "DT 4 (after Lunch)");
    [reflexivity|by left].
Defined.


(** ** The roster lookup and the filter, continued *)

Section ProfileMore.
Context {num : Type}.
Implicit Types (courses : gmap string (Course num)) (s : ClassSession)
  (rows : list (list string)) (emap : list (string * list (list string))).

Lemma elem_of_electives mail rows emap k :
  k ∈ electives (parseStudentProfile mail rows emap) <->
  exists rs row, (k, rs) ∈ emap /\ row ∈ rs /\ rosterMatch mail row.
Proof.
  unfold parseStudentProfile. simpl. rewrite list_elem_of_fmap. split.
  - intros ([k' rs] & -> & [Hex%Is_true_true Hin]%list_elem_of_filter).
    simpl in *. apply existsb_exists in Hex as (row & Hr%list_elem_of_In & Hm).
    exists rs, row. split_and!; [done..|]. by apply emailMatches_spec.
  - intros (rs & row & Hin & Hr & Hm). exists (k, rs). split; [done|].
    apply list_elem_of_filter. split; [|done]. simpl. apply Is_true_true.
    apply existsb_exists. exists row. split; [by apply list_elem_of_In|].
    by apply emailMatches_spec.
Qed.

Lemma userSection_unmatched mail rows emap :
  (forall row, row ∈ rows -> ~ rosterMatch mail row) ->
  userSection (parseStudentProfile mail rows emap) = SecA.
Proof.
  intros H%find_none_iff. unfold parseStudentProfile. simpl. by rewrite H.
Qed.

(** X7.  The section is read from column 9 of the first roster row that
    matches the email, whatever rows follow and whatever the case of the
    letter or the whitespace around it. *)
Theorem parseStudentProfile_section_read mail rows emap row v :
  firstMatch mail rows row -> row !! 9 = Some v ->
  (Text.toUpperCase (Text.trim v) = "A" ->
   userSection (parseStudentProfile mail rows emap) = SecA)
  /\ (Text.toUpperCase (Text.trim v) = "B" ->
      userSection (parseStudentProfile mail rows emap) = SecB).
Proof.
  intros Hf%find_first Hv. unfold parseStudentProfile. simpl.
  rewrite Hf. simpl. rewrite Hv. simpl. unfold sectionOfString.
  split; intros ->; done.
Qed.

(** X8.  A course code is among the profile's electives exactly when some
    row of a roster filed under that code matches the email; the section
    rosters play no part. *)
Theorem parseStudentProfile_electives mail rows emap k :
  k ∈ electives (parseStudentProfile mail rows emap) <->
  exists rs row, (k, rs) ∈ emap /\ row ∈ rs /\ rosterMatch mail row.
Proof. apply elem_of_electives. Qed.

(** X9.  The filter only removes sessions, keeping the order of the
    others, and filtering a filtered list changes nothing. *)
Theorem filterClassesForUser_idempotent rawSchedule courses profile :
  filterClassesForUser rawSchedule courses profile `sublist_of` rawSchedule
  /\ filterClassesForUser (filterClassesForUser rawSchedule courses profile)
       courses profile
     = filterClassesForUser rawSchedule courses profile.
Proof.
  unfold filterClassesForUser. split; [apply sublist_filter|].
  apply list_filter_filter_l. done.
Qed.

(** X10.  A session of a Core course that names a section is shown to
    the users of that section and to no user of the other one, whatever
    their electives. *)
Theorem core_session_one_section rawSchedule courses c s sec pA pB :
  s ∈ rawSchedule ->
  courses !! courseCode s = Some c -> type c = "Core" ->
  section s = Some sec ->
  userSection pA = SecA -> userSection pB = SecB ->
  (s ∈ filterClassesForUser rawSchedule courses pA <-> sec = SecA)
  /\ (s ∈ filterClassesForUser rawSchedule courses pB <-> sec = SecB).
Proof.
  intros Hin Hc Ht Hs HA HB. unfold filterClassesForUser.
  rewrite !list_elem_of_filter, !Is_true_true. unfold keepSession.
  rewrite Hc, Ht, Hs, HA, HB. simpl. rewrite !bool_decide_eq_true.
  split; (split; [by intros [? _]|done]).
Qed.

(** X11.  From the rosters to the schedule: a session of a course of type
    Elective is shown to a user exactly when some row of the roster filed
    under the session's course code matches the user's email. *)
Theorem elective_shown_iff_enrolled rawSchedule courses c s mail rows emap :
  courses !! courseCode s = Some c -> type c = "Elective" ->
  s ∈ filterClassesForUser rawSchedule courses
        (parseStudentProfile mail rows emap)
  <-> s ∈ rawSchedule /\
      exists rs row, (courseCode s, rs) ∈ emap /\ row ∈ rs /\ rosterMatch mail row.
Proof.
  intros Hc Ht. unfold filterClassesForUser.
  rewrite list_elem_of_filter, Is_true_true. unfold keepSession.
  rewrite Hc, Ht. rewrite (bool_decide_eq_true_2 _ (eq_refl "Elective")).
  rewrite bool_decide_eq_true, elem_of_electives. tauto.
Qed.

(** X12.  A user whose email is in no section roster is shown, of a Core
    course, the sessions of section A and the common ones, and none of
    section B. *)
Theorem unlisted_user_sees_section_A rawSchedule courses c s mail rows emap :
  (forall row, row ∈ rows -> ~ rosterMatch mail row) ->
  courses !! courseCode s = Some c -> type c = "Core" ->
  s ∈ filterClassesForUser rawSchedule courses
        (parseStudentProfile mail rows emap)
  <-> s ∈ rawSchedule /\ section s <> Some SecB.
Proof.
  intros Hno Hc Ht. unfold filterClassesForUser.
  rewrite list_elem_of_filter, Is_true_true. unfold keepSession.
  rewrite Hc, Ht, (userSection_unmatched _ _ _ Hno). simpl.
  destruct (section s) as [[]|]; simpl; rewrite ?bool_decide_eq_true;
    split; intros [? ?]; split; done.
Qed.

End ProfileMore.

Lemma parseStudentProfile_section_read_witness :
  userSection (parseStudentProfile " Asha@IIMIDR.ac.in "
                 [Sample.rosterRow "asha@iimidr.ac.in" " b";
                  Sample.rosterRow "asha@iimidr.ac.in" "A"] []) = SecB.
Proof.
  apply (parseStudentProfile_section_read " Asha@IIMIDR.ac.in "
           [Sample.rosterRow "asha@iimidr.ac.in" " b";
            Sample.rosterRow "asha@iimidr.ac.in" "A"] []
           (Sample.rosterRow "asha@iimidr.ac.in" " b") " b");
    [|reflexivity..].
  exists [], [Sample.rosterRow "asha@iimidr.ac.in" "A"].
  split_and!; [done|by eexists|by intros ? ?%elem_of_nil].
Defined.

Lemma core_session_one_section_witness :
  Sample.standing ∈ filterClassesForUser [Sample.standing] Sample.courses
                      (mkProfile "a" SecA [])
  <-> SecA = SecA.
Proof.
  apply (core_session_one_section [Sample.standing] Sample.courses
           (mkCourse "DT" "Design Thinking" (Some 3%nat) "Core")
           Sample.standing SecA (mkProfile "a" SecA []) (mkProfile "b" SecB []));
    [left|reflexivity..].
Defined.

Lemma elective_shown_iff_enrolled_witness :
  Sample.gtSession ∈
    filterClassesForUser [Sample.gtSession] Sample.electiveCourses
      (parseStudentProfile "asha@iimidr.ac.in" []
         [("GT", [Sample.rosterRow "asha@iimidr.ac.in" ""])]).
Proof.
  apply (elective_shown_iff_enrolled [Sample.gtSession] Sample.electiveCourses
           (mkCourse "GT" "Game Theory" (Some 3%nat) "Elective")
           Sample.gtSession "asha@iimidr.ac.in" []
           [("GT", [Sample.rosterRow "asha@iimidr.ac.in" ""])]);
    [reflexivity..|].
  split; [left|]. eexists _, _. split_and!; [left|left|by eexists].
Defined.

Lemma unlisted_user_sees_section_A_witness :
  Sample.standing ∈
    filterClassesForUser [Sample.standing] Sample.courses
      (parseStudentProfile "ravi@iimidr.ac.in"
         [Sample.rosterRow "asha@iimidr.ac.in" "B"] []).
Proof.
  apply (unlisted_user_sees_section_A [Sample.standing] Sample.courses
           (mkCourse "DT" "Design Thinking" (Some 3%nat) "Core")
           Sample.standing "ravi@iimidr.ac.in"
           [Sample.rosterRow "asha@iimidr.ac.in" "B"] []);
    [|reflexivity..|by split; [left|]].
  intros row ->%list_elem_of_singleton (e & [= <-] & He).
  vm_compute in He. discriminate He.
Defined.

(** ** Attendance statistics, continued *)

Section StatsMore.
Implicit Types (s : ClassSession) (att : gmap string string).

Lemma sessionsOf_nil_iff k sessions :
  sessionsOf k sessions = [] <-> k ∉ courseCode <$> sessions.
Proof.
  unfold sessionsOf. split.
  - intros Hnil (s & -> & Hin)%list_elem_of_fmap.
    assert (s ∈ filter (fun x => courseCode x = courseCode s) sessions) as H
      by by apply list_elem_of_filter.
    rewrite Hnil in H. by apply elem_of_nil in H.
  - intros Hno. apply elem_of_nil_inv. intros s [Hc Hin]%list_elem_of_filter.
    apply Hno. rewrite <- Hc. by apply list_elem_of_fmap_2.
Qed.

(** X13.  The statistics have a record for exactly the course codes
    that occur in the session list and are not the name of a member that
    object literals inherit ("constructor", "toString", ...): for such a
    name [stats[code]] is truthy before any record exists, so none is
    created.  An empty list gives no record. *)
Theorem calculateStats_codes sessions att k :
  is_Some (calculateStats sessions att !! k) <->
  k ∈ courseCode <$> sessions /\ inherited k = false.
Proof.
  unfold calculateStats. rewrite lookup_fmap, fold_countSession.
  destruct (decide (sessionsOf k sessions = [])) as [Hn|Hn].
  - rewrite (bool_decide_eq_true_2 _ Hn). simpl.
    apply sessionsOf_nil_iff in Hn. split; [by intros [? ?]|by intros [? _]].
  - rewrite (bool_decide_eq_false_2 _ Hn). simpl.
    assert (k ∈ courseCode <$> sessions) as Hin.
    { destruct (decide (k ∈ courseCode <$> sessions)) as [|Hno]; [done|].
      by apply sessionsOf_nil_iff in Hno. }
    destruct (inherited k); simpl.
    + split; [by intros [? ?]|by intros [_ ?]].
    + split; [done|by eexists].
Qed.

Lemma calculateStats_codes_witness :
  is_Some (calculateStats Sample.sixSessions Sample.marks !! "DT") /\
  calculateStats [Sample.dtSession "1"; Sample.inheritedSession] Sample.marks
    !! "constructor" = None.
Proof.
  split.
  - apply calculateStats_codes. split; [|reflexivity].
    apply elem_of_cons. by left.
  - destruct (calculateStats [Sample.dtSession "1"; Sample.inheritedSession]
                Sample.marks !! "constructor") as [st|] eqn:H; [|done].
    assert (is_Some (calculateStats [Sample.dtSession "1"; Sample.inheritedSession]
                       Sample.marks !! "constructor")) as Hs by (by eexists).
    apply calculateStats_codes in Hs as [_ Hs]. discriminate Hs.
Defined.

(** X14.  The statistics do not depend on the order of the sessions. *)
Theorem calculateStats_permutation sessions1 sessions2 att :
  sessions1 ≡ₚ sessions2 ->
  calculateStats sessions1 att = calculateStats sessions2 att.
Proof.
  intros Hp. apply map_eq. intros k. unfold calculateStats.
  rewrite !lookup_fmap, !fold_countSession.
  assert (sessionsOf k sessions1 ≡ₚ sessionsOf k sessions2) as Hs
    by (unfold sessionsOf; by rewrite Hp).
  destruct (inherited k); [by rewrite !orb_true_r|]. rewrite !orb_false_r.
  case_bool_decide as H1; case_bool_decide as H2.
  - done.
  - rewrite H1 in Hs. by apply Permutation_nil_l in Hs.
  - rewrite H2 in Hs. by apply Permutation_nil_r in Hs.
  - simpl. do 2 f_equal. unfold tallyOf, markedOf.
    f_equal; apply Permutation_length; by rewrite Hs.
Qed.

Lemma countSession_key att stats s s' :
  courseCode s = courseCode s' -> sessionNumber s = sessionNumber s' ->
  countSession att stats s = countSession att stats s'.
Proof. intros Hc Hn. unfold countSession, sessionKey. by rewrite Hc, Hn. Qed.

(** X15.  The statistics read only the course code and the session
    number of each session: two lists that agree on those, session by
    session, have the same statistics, whatever the dates, sections and
    cancellation flags.  A cancelled class counts like any other. *)
Theorem calculateStats_reads_code_and_number sessions1 sessions2 att :
  (fun s => (courseCode s, sessionNumber s)) <$> sessions1
  = (fun s => (courseCode s, sessionNumber s)) <$> sessions2 ->
  calculateStats sessions1 att = calculateStats sessions2 att.
Proof.
  intros H. unfold calculateStats. f_equal.
  generalize (∅ : gmap string CourseStat).
  revert sessions2 H. induction sessions1 as [|s l1 IH]; intros [|s' l2] H m;
    try done.
  simpl. injection H as Hc Hn Hl.
  rewrite (countSession_key att m s s' Hc Hn). by apply IH.
Qed.

Lemma filter_ext_in {A} (P1 P2 : A -> Prop)
    `{!forall x, Decision (P1 x), !forall x, Decision (P2 x)} (l : list A) :
  (forall x, x ∈ l -> P1 x <-> P2 x) -> filter P1 l = filter P2 l.
Proof.
  induction l as [|x l IH]; intros Hx; [done|].
  rewrite !filter_cons, IH by (intros y ?; apply Hx; by right).
  apply decide_ext, Hx. left.
Qed.

Lemma markedOf_mark att id status status' k sessions :
  markedOf (handleMarkAttendance att id status) status' k sessions
  = filter (fun s => (sessionKey s = id /\ status = status') \/
                     (sessionKey s <> id /\ att !! sessionKey s = Some status'))
           (sessionsOf k sessions).
Proof.
  unfold markedOf, handleMarkAttendance. apply list_filter_iff. intros s.
  destruct (decide (sessionKey s = id)) as [Hk|Hk].
  - rewrite Hk, lookup_insert_eq. split; [intros [= ->]; by left|].
    intros [[_ ->]|[? _]]; done.
  - rewrite lookup_insert_ne by done. split; [by right|].
    intros [[? _]|[_ ?]]; done.
Qed.

(** X16.  Marking an id that no session of the list carries changes no
    statistic.  After an id is marked Present, every session that carries
    the id counts as attended and none of them as leave, whatever mark the
    id had before; the other sessions count as they did. *)
Theorem calculateStats_after_mark sessions att id :
  ((forall s, s ∈ sessions -> sessionKey s <> id) ->
   forall status,
     calculateStats sessions (handleMarkAttendance att id status)
     = calculateStats sessions att)
  /\
  (forall k st,
     calculateStats sessions (handleMarkAttendance att id "Present") !! k
       = Some st ->
     total st = length (sessionsOf k sessions) /\
     attended st
       = length (filter (fun s => sessionKey s = id \/
                                  att !! sessionKey s = Some "Present")
                        (sessionsOf k sessions)) /\
     leaves st
       = length (filter (fun s => sessionKey s <> id /\
                                  att !! sessionKey s = Some "Absent")
                        (sessionsOf k sessions))).
Proof.
  split.
  - intros Hno status. apply map_eq. intros k. unfold calculateStats.
    rewrite !lookup_fmap, !fold_countSession.
    destruct (bool_decide (sessionsOf k sessions = []) || inherited k);
      [done|].
    simpl. do 2 f_equal.
    unfold tallyOf. rewrite !markedOf_mark. unfold markedOf.
    assert (forall st', filter (fun s => (sessionKey s = id /\ status = st') \/
                        (sessionKey s <> id /\ att !! sessionKey s = Some st'))
                     (sessionsOf k sessions)
                 = filter (fun s => att !! sessionKey s = Some st')
                     (sessionsOf k sessions)) as Heq.
    { intros st'. apply filter_ext_in.
      intros s [_ Hin]%list_elem_of_filter. pose proof (Hno s Hin). tauto. }
    by rewrite !Heq.
  - intros k st. unfold calculateStats.
    rewrite lookup_fmap, fold_countSession.
    destruct (bool_decide (sessionsOf k sessions = []) || inherited k);
      [done|].
    intros [= <-].
    unfold setAllowedLeaves, tallyOf. cbn [total attended leaves].
    rewrite !markedOf_mark. split_and!; [done|..]; f_equal;
      apply list_filter_iff; intros s;
      destruct (decide (sessionKey s = id)); intuition congruence.
Qed.

End StatsMore.

Lemma calculateStats_permutation_witness :
  calculateStats (Sample.dtSession <$> ["2"; "1"]) Sample.marks
  = calculateStats (Sample.dtSession <$> ["1"; "2"]) Sample.marks.
Proof.
  apply calculateStats_permutation. apply perm_swap.
Defined.

Lemma calculateStats_reads_code_and_number_witness :
  calculateStats [Sample.standing] Sample.marks
  = calculateStats [Sample.struck] Sample.marks.
Proof. by apply calculateStats_reads_code_and_number. Defined.

(** ** The reconciler, continued *)

Section ReconcilerMore.
Context {num : Type}.
Variable Number : option string -> num.
Variable parseDate : string -> option Z.
Variable setHours : Z -> num -> num -> option Z.
Variable now : Z.
Variable startOfToday : Z.
Variable courses : gmap string (Course num).
Implicit Types (r : Remote) (e : Event) (b : EventBody) (s : ClassSession)
  (run : Run) (M : gmap string nat).

Local Abbreviation bodyOf := (eventBody Number parseDate setHours courses).
Local Abbreviation step := (syncStep Number parseDate setHours courses).
Local Abbreviation future := (futureClasses parseDate startOfToday).
Local Abbreviation sync :=
  (syncToCalendar Number parseDate setHours now startOfToday courses).
Local Abbreviation call := (callFor Number parseDate setHours courses).

(** X17.  Every call of a run is made for a session of the list that is
    dated today or later under [Date.parse]; a session whose date does not
    parse, or lies before today, gets no call, and there are never more
    calls than such sessions.  A delete is made only for a cancelled
    session, for the identifier the starting listing gave its signature;
    an insert or update only for a session that is not cancelled, and the
    event written carries the tag and the session's signature. *)
Theorem syncToCalendar_calls r classes :
  let run := sync r classes in
  let existing := existingMap (eventsList now r) in
  length (ops run) <= length (future classes) /\
  forall s o, (s, o) ∈ ops run ->
    s ∈ classes /\ isFuture parseDate startOfToday s = true /\
    match o with
    | Delete id =>
        isCancelled s = true /\ existing !! signatureOf s = Some id
    | Insert b =>
        isCancelled s = false /\ existing !! signatureOf s = None /\
        signature b = Some (signatureOf s) /\ source b = Some "ipm-tracker"
    | Update id b =>
        isCancelled s = false /\ existing !! signatureOf s = Some id /\
        signature b = Some (signatureOf s) /\ source b = Some "ipm-tracker"
    end.
Proof.
  intros run existing. unfold run, syncToCalendar. fold existing.
  destruct (fold_syncStep_general Number parseDate setHours courses existing (future classes) (mkRun r [] true))
    as (_ & _ & _ & new & Hnew & Hlen & Hcalls).
  simpl in Hnew. rewrite Hnew. split; [done|].
  intros s o Hin. destruct (Hcalls s o Hin) as (Hs & r1 & r2 & Hcall).
  apply list_elem_of_filter in Hs as [Hf%Is_true_true Hs].
  split_and!; [done..|].
  apply callFor_shape in Hcall.
  destruct o as [b|id b|id]; [| |done].
  - destruct Hcall as (? & ? & [? ?]%eventBody_Some). done.
  - destruct Hcall as (? & ? & [? ?]%eventBody_Some). done.
Qed.

(** X18.  A run leaves every event that the listing does not return
    (one without the tag, or one that has ended) in the calendar as it is,
    whether the run completes or stops. *)
Theorem syncToCalendar_spares_unlisted r classes e :
  wfRemote r -> e ∈ events r -> listed now e = false ->
  e ∈ events (remote (sync r classes)).
Proof.
  intros Hwf Hin Hl. unfold syncToCalendar.
  destruct (fold_syncStep_general Number parseDate setHours courses (existingMap (eventsList now r))
              (future classes) (mkRun r [] true)) as (_ & _ & Hsp & _).
  apply Hsp; [done|]. intros sg (e' & Hin' & Hl' & Hid)%existingMap_ids.
  assert (e' = e) as -> by by apply (wf_id_inj r).
  congruence.
Qed.

(** X19.  A run keeps the calendar well formed: identifiers stay unique
    and below the next one to be issued, which never goes down. *)
Theorem syncToCalendar_wf r classes :
  wfRemote r ->
  wfRemote (remote (sync r classes)) /\
  nextId r <= nextId (remote (sync r classes)).
Proof.
  intros Hwf. unfold syncToCalendar.
  destruct (fold_syncStep_general Number parseDate setHours courses (existingMap (eventsList now r))
              (future classes) (mkRun r [] true)) as (H1 & H2 & _).
  split; [by apply H1|done].
Qed.

Lemma splitOnGo_absent sep cur l :
  sep ∉ l -> splitOnGo sep cur l = [rev cur ++ l].
Proof.
  revert cur. induction l as [|c l IH]; intros cur Hn; simpl.
  - by rewrite app_nil_r.
  - apply not_elem_of_cons in Hn as [Hc Hl].
    rewrite bool_decide_eq_false_2 by done.
    rewrite IH by done. simpl. by rewrite <- (assoc_L (++)).
Qed.

Lemma eventBody_no_hyphen s :
  "-"%char ∉ Text.chars (timeSlot s) -> bodyOf s = None.
Proof.
  intros Hn. unfold eventBody, splitOn. by rewrite splitOnGo_absent.
Qed.

Lemma fold_syncStep_stopped M classes run :
  completed run = false -> completed (fold_left (step M) classes run) = false.
Proof.
  intros Hc. destruct (completed (fold_left _ _ _)) eqn:H; [|done].
  apply fold_syncStep_completed in H. congruence.
Qed.

Lemma fold_syncStep_aborts M classes s : forall run,
  s ∈ classes -> isCancelled s = false -> bodyOf s = None ->
  completed (fold_left (step M) classes run) = false.
Proof.
  induction classes as [|s' classes IH]; intros run Hin Hcan Hb.
  - by apply elem_of_nil in Hin.
  - apply elem_of_cons in Hin as [<-|Hin]; [|by apply IH].
    simpl. apply fold_syncStep_stopped. unfold syncStep.
    destruct (completed run) eqn:Hc; simpl; [|done].
    by rewrite Hcan, Hb.
Qed.

(** X20.  One session dated today or later that is not cancelled and
    whose time slot holds no hyphen (the fallback label "Slot N" of a
    column without a header is one) stops the run: [split('-')] yields one
    piece, the end time is [undefined], and the run does not complete. *)
Theorem syncToCalendar_stops_without_hyphen r classes s :
  s ∈ classes -> isFuture parseDate startOfToday s = true ->
  isCancelled s = false -> "-"%char ∉ Text.chars (timeSlot s) ->
  completed (sync r classes) = false.
Proof.
  intros Hin Hf Hcan Hn. unfold syncToCalendar.
  apply (fold_syncStep_aborts _ _ s); [|done|by apply eventBody_no_hyphen].
  apply list_elem_of_filter. split; [by apply Is_true_true|done].
Qed.

Lemma fold_syncStep_called M classes : forall run,
  completed (fold_left (step M) classes run) = true ->
  (fold_left (step M) classes run).(ops).*1
  = run.(ops).*1 ++ filter (fun s => Is_true (called M s)) classes.
Proof.
  induction classes as [|s classes IH]; intros run Hc; simpl.
  - by rewrite app_nil_r.
  - simpl in Hc. pose proof (fold_syncStep_completed _ _ _ _ _ _ _ Hc) as Hc1.
    rewrite (IH _ Hc).
    destruct (syncStep_completed _ _ _ _ _ _ _ Hc1)
      as (_ & [(Hcan & Hm & ->)|[(Hcan & id & r' & Hm & _ & ->)
              |[(Hcan & b & _ & Hm & ->)|(Hcan & id & b & r' & _ & Hm & _ & ->)]]]).
    + rewrite filter_cons_False; [done|]. unfold called. rewrite Hcan, Hm.
      intros [H|H]%Is_true_true%orb_true_iff; [done|].
      by apply bool_decide_eq_true in H as [? ?].
    + rewrite filter_cons_True.
      * simpl. by rewrite fmap_app, <- (assoc_L (++)).
      * unfold called. rewrite Hm. rewrite bool_decide_eq_true_2 by eauto.
        by rewrite orb_true_r.
    + rewrite filter_cons_True.
      * simpl. by rewrite fmap_app, <- (assoc_L (++)).
      * unfold called. by rewrite Hcan.
    + rewrite filter_cons_True.
      * simpl. by rewrite fmap_app, <- (assoc_L (++)).
      * unfold called. by rewrite Hcan.
Qed.

(** X21.  In a run that completes, the sessions that got a call are, in
    the order of the list, exactly the sessions dated today or later that
    are not cancelled or whose signature the starting listing holds: one
    call each; a cancelled session without an event gets none. *)
Theorem syncToCalendar_completed_calls r classes :
  completed (sync r classes) = true ->
  (sync r classes).(ops).*1
  = filter (fun s => Is_true (called (existingMap (eventsList now r)) s))
           (future classes).
Proof.
  intros Hc. unfold syncToCalendar in *.
  by rewrite (fold_syncStep_called _ _ _ Hc).
Qed.

End ReconcilerMore.

Lemma syncToCalendar_spares_unlisted_witness :
  wfRemote Sample.ownCalendar /\
  Sample.personal ∈ events Sample.ownCalendar /\
  listed Sample.now Sample.personal = false /\
  Sample.personal ∈
    events (remote (syncToCalendar Sample.number Sample.parseDate
                      Sample.setHours Sample.now Sample.startOfToday
                      Sample.courses Sample.ownCalendar [Sample.standing])).
Proof.
  assert (wfRemote Sample.ownCalendar) as Hwf.
  { split.
    - vm_compute. apply NoDup_singleton.
    - intros e ->%list_elem_of_singleton. vm_compute. lia. }
  assert (Sample.personal ∈ events Sample.ownCalendar) as Hin
    by apply list_elem_of_singleton, eq_refl.
  split_and!; [done..|reflexivity|].
  exact (syncToCalendar_spares_unlisted Sample.number Sample.parseDate
           Sample.setHours Sample.now Sample.startOfToday Sample.courses
           Sample.ownCalendar [Sample.standing] Sample.personal
           Hwf Hin eq_refl).
Defined.

Lemma syncToCalendar_wf_witness :
  let run :=
    syncToCalendar Sample.number Sample.parseDate Sample.setHours
      Sample.now Sample.startOfToday Sample.courses
      Sample.ownCalendar [Sample.standing] in
  wfRemote Sample.ownCalendar /\ wfRemote (remote run) /\
  nextId Sample.ownCalendar <= nextId (remote run).
Proof.
  intros run.
  assert (wfRemote Sample.ownCalendar) as Hwf.
  { split.
    - vm_compute. apply NoDup_singleton.
    - intros e ->%list_elem_of_singleton. vm_compute. lia. }
  split; [done|].
  exact (syncToCalendar_wf Sample.number Sample.parseDate
           Sample.setHours Sample.now Sample.startOfToday Sample.courses
           Sample.ownCalendar [Sample.standing] Hwf).
Defined.

Lemma syncToCalendar_stops_without_hyphen_witness :
  completed
    (syncToCalendar Sample.number Sample.parseDate Sample.setHours
       Sample.now Sample.startOfToday Sample.courses
       emptyRemote [Sample.standing; Sample.unlabelled]) = false.
Proof.
  apply (syncToCalendar_stops_without_hyphen Sample.number Sample.parseDate
           Sample.setHours Sample.now Sample.startOfToday Sample.courses
           emptyRemote [Sample.standing; Sample.unlabelled] Sample.unlabelled).
  - apply elem_of_cons. right. apply list_elem_of_singleton, eq_refl.
  - reflexivity.
  - reflexivity.
  - vm_compute. intros H. repeat (apply elem_of_cons in H as [H|H]; [discriminate H|]).
    by apply elem_of_nil in H.
Defined.

Lemma syncToCalendar_completed_calls_witness :
  let run :=
    syncToCalendar Sample.number Sample.parseDate Sample.setHours
      Sample.now Sample.startOfToday Sample.courses
      emptyRemote [Sample.standing; Sample.struck] in
  completed run = true /\ run.(ops).*1 = [Sample.standing].
Proof.
  intros run. split; [reflexivity|].
  exact (syncToCalendar_completed_calls Sample.number Sample.parseDate
           Sample.setHours Sample.now Sample.startOfToday Sample.courses
           emptyRemote [Sample.standing; Sample.struck] eq_refl).
Defined.

(** ** Sheet discovery *)

Module DiscoveryFacts.
Import Discovery.

Lemma isPrefix_nil_iff p : Text.isPrefix p [] = true -> p = [].
Proof. by destruct p. Qed.

Lemma includes_empty sub : Text.includes "" sub = true -> sub = "".
Proof.
  unfold Text.includes. simpl. rewrite orb_false_r.
  intros H%isPrefix_nil_iff. rewrite <- (TextFacts.str_chars sub), H. done.
Qed.

Lemma toLowerCase_empty s : Text.toLowerCase s = "" -> s = "".
Proof.
  unfold Text.toLowerCase. intros H.
  rewrite <- (TextFacts.str_chars s).
  destruct (Text.chars s) as [|c l]; [done|].
  apply (f_equal Text.chars) in H. rewrite TextFacts.chars_str in H. done.
Qed.

Lemma find_elem {A} (f : A -> bool) l x :
  List.find f l = Some x -> x ∈ l /\ f x = true.
Proof. intros [?%list_elem_of_In ?]%find_some. done. Qed.

Lemma find_is_Some {A} (f : A -> bool) l x :
  x ∈ l -> f x = true -> is_Some (List.find f l).
Proof.
  intros Hin Hf. destruct (List.find f l) eqn:H; [eauto|].
  apply list_elem_of_In in Hin. pose proof (find_none _ _ H _ Hin). congruence.
Qed.

Lemma listFor_Some k sheet :
  listFor k sheet = true ->
  let title := default "" (Text.toLowerCase <$> sheet) in
  Text.includes title k = true /\ Text.includes title "list" = true.
Proof.
  unfold listFor. intros [H1 H2]%andb_true_iff.
  assert (default "" (orElse (Text.toLowerCase <$> sheet) (Some ""))
          = default "" (Text.toLowerCase <$> sheet)) as Heq.
  { destruct sheet as [t|]; simpl; [|done]. unfold orElse. simpl.
    case_bool_decide as Ht; simpl; [by rewrite Ht|done]. }
  rewrite Heq in H1, H2. done.
Qed.

Section ElectiveFacts.
Context {num : Type}.
Implicit Types (course : Course num) (sheetList : list (option string)).

(** X22.  A sheet is recorded for a course only if the course's type
    reads as an elective, and the title recorded is the non-empty title of a
    sheet of the workbook which, in lower case, contains the course's name,
    or the word "list" together with the course's code or with the part of
    the code before the first hyphen when that part is longer than one
    character. *)
Theorem electiveSheetTitle_sound sheetList course title :
  electiveSheetTitle sheetList course = Some title ->
  isElectiveType course = true /\ Some title ∈ sheetList /\ title <> "" /\
  let lower := Text.toLowerCase title in
  ( Text.includes lower (Text.toLowerCase (name course)) = true
    \/ (Text.includes lower "list" = true /\
        ( Text.includes lower (Text.toLowerCase (code course)) = true
          \/ (1 < String.length (shortCode (code course)) /\
              Text.includes lower (shortCode (code course)) = true)))).
Proof.
  unfold electiveSheetTitle. destruct (isElectiveType course); [|done].
  destruct (matchElectiveSheet sheetList course) as [[t|]|] eqn:Hm; [|done..].
  case_bool_decide as Ht; [done|]. intros [= ->]. split; [done|].
  unfold matchElectiveSheet in Hm.
  destruct (List.find (titleHas _) sheetList) as [m|] eqn:H1.
  { injection Hm as ->. apply find_elem in H1 as [Hin Hh].
    split_and!; [done..|]. by left. }
  destruct (List.find (listFor (Text.toLowerCase _)) sheetList) as [m|] eqn:H2.
  { injection Hm as ->. apply find_elem in H2 as [Hin [Hc Hl]%listFor_Some].
    split_and!; [done..|]. right. split; [done|by left]. }
  destruct (1 <? _)%nat eqn:Hlen; [|done].
  apply find_elem in Hm as [Hin [Hc Hl]%listFor_Some].
  split_and!; [done..|]. right. split; [done|]. right.
  split; [by apply Nat.ltb_lt|done].
Qed.

(** X23.  The name has priority: when the course's type reads as an
    elective, its name is not empty and some sheet's title contains the
    name (case-insensitively), a title is recorded and it contains the
    name, whatever sheets the code would have matched. *)
Theorem electiveSheetTitle_name_first sheetList course t0 :
  isElectiveType course = true -> name course <> "" ->
  Some t0 ∈ sheetList ->
  Text.includes (Text.toLowerCase t0) (Text.toLowerCase (name course)) = true ->
  exists title,
    electiveSheetTitle sheetList course = Some title /\
    Text.includes (Text.toLowerCase title) (Text.toLowerCase (name course))
    = true.
Proof.
  intros He Hn Hin Hinc. unfold electiveSheetTitle, matchElectiveSheet.
  rewrite He.
  destruct (find_is_Some (titleHas (Text.toLowerCase (name course)))
              sheetList (Some t0) Hin Hinc) as [m Hm].
  rewrite Hm. apply find_elem in Hm as [_ Hh].
  destruct m as [t|]; [|done]. simpl in Hh.
  exists t. split; [|done].
  rewrite bool_decide_eq_false_2; [done|]. intros ->.
  apply includes_empty, toLowerCase_empty in Hh. done.
Qed.

End ElectiveFacts.

(** X24.  The course sheet and the time-table sheet are found by
    keyword wherever they stand: when some sheet's title contains the
    keyword (case-insensitively), the title picked contains it, and the
    position is not looked at.  The title picked is never empty. *)
Theorem pickSheet_keyword keyword i fallback sheetList :
  keyword <> "" -> fallback <> "" ->
  pickSheet keyword i fallback sheetList <> "" /\
  forall t0, Some t0 ∈ sheetList ->
    Text.includes (Text.toLowerCase t0) keyword = true ->
    Text.includes (Text.toLowerCase (pickSheet keyword i fallback sheetList))
      keyword = true /\
    Some (pickSheet keyword i fallback sheetList) ∈ sheetList.
Proof.
  intros Hk Hf. split.
  - unfold pickSheet.
    destruct (orElse (findTitle keyword sheetList) (sheetList !! i ≫= id))
      as [t|] eqn:H1; unfold orElse at 1; simpl.
    + case_bool_decide as Ht; simpl; done.
    + done.
  - intros t0 Hin Hinc. unfold pickSheet, findTitle.
    destruct (find_is_Some (titleHas keyword) sheetList (Some t0) Hin Hinc)
      as [m Hm].
    rewrite Hm. apply find_elem in Hm as [Hm Hh].
    destruct m as [t|]; [|done]. simpl in Hh.
    assert (t <> "") as Ht.
    { intros ->. by apply includes_empty in Hh. }
    unfold orElse. simpl. rewrite (bool_decide_eq_false_2 _ Ht). simpl.
    rewrite (bool_decide_eq_false_2 _ Ht). simpl. done.
Qed.

Lemma mapRange_electiveRows a b entries st rg c rows :
  electiveRows (mapRange a b entries st rg) !! c = Some rows ->
  electiveRows st !! c = Some rows \/
  exists title,
    rows = default [] (values rg) /\ (c, title) ∈ entries /\
    rangeHas (range rg) title = true /\
    (truthy a && rangeHas (range rg) (default "" a) = false) /\
    (truthy b && rangeHas (range rg) (default "" b) = false).
Proof.
  unfold mapRange.
  destruct (truthy a && _) eqn:Ha; [by left|].
  destruct (truthy b && _) eqn:Hb; [by left|].
  destruct (List.find _ entries) as [[c' title]|] eqn:Hfind; [|by left].
  apply find_elem in Hfind as [Hin Hh]. simpl in *.
  destruct (decide (c' = c)) as [->|Hne].
  - rewrite lookup_insert_eq. intros [= <-]. right. by exists title.
  - rewrite lookup_insert_ne by done. by left.
Qed.

(** X25.  The rows kept as the roster of an elective are the values of
    a returned range whose name contains the title of the sheet discovered
    for that course and contains neither the section A sheet's title nor
    the section B sheet's: a range that names a section sheet is never
    taken for an elective's roster. *)
Theorem mapBack_elective_rows a b entries returnedRanges c rows :
  electiveRows (mapBack a b entries returnedRanges) !! c = Some rows ->
  exists rg title,
    rg ∈ returnedRanges /\ rows = default [] (values rg) /\
    (c, title) ∈ entries /\ rangeHas (range rg) title = true /\
    (forall t, a = Some t -> t <> "" -> rangeHas (range rg) t = false) /\
    (forall t, b = Some t -> t <> "" -> rangeHas (range rg) t = false).
Proof.
  unfold mapBack.
  assert (forall st,
            electiveRows (fold_left (mapRange a b entries) returnedRanges st)
              !! c = Some rows ->
            electiveRows st !! c = Some rows \/
            exists rg title,
              rg ∈ returnedRanges /\ rows = default [] (values rg) /\
              (c, title) ∈ entries /\ rangeHas (range rg) title = true /\
              (forall t, a = Some t -> t <> "" -> rangeHas (range rg) t = false) /\
              (forall t, b = Some t -> t <> "" -> rangeHas (range rg) t = false))
    as Hgen.
  { induction returnedRanges as [|rg l IH]; intros st; simpl; [by left|].
    intros [H|(rg' & title & Hin & ?)]%IH.
    - apply mapRange_electiveRows in H
        as [H|(title & Hrows & Hin & Hh & Ha & Hb)]; [by left|].
      right. exists rg, title. split_and!; [left|done..| |].
      + intros t -> Ht. simpl in Ha.
        by rewrite (bool_decide_eq_false_2 _ Ht) in Ha.
      + intros t -> Ht. simpl in Hb.
        by rewrite (bool_decide_eq_false_2 _ Ht) in Hb.
    - right. exists rg', title. split; [by right|done]. }
  intros [H|H]%Hgen; [|done]. simpl in H. by rewrite lookup_empty in H.
Qed.

End DiscoveryFacts.

Lemma electiveSheetTitle_sound_witness :
  Discovery.electiveSheetTitle Sample.workbook Sample.gameTheory
  = Some "List of students GT" /\
  Text.includes (Text.toLowerCase "List of students GT") "list" = true.
Proof.
  split; [reflexivity|].
  destruct (DiscoveryFacts.electiveSheetTitle_sound Sample.workbook
              Sample.gameTheory "List of students GT" eq_refl)
    as (_ & _ & _ & [H|[H _]]); [discriminate H|exact H].
Defined.

Lemma electiveSheetTitle_name_first_witness :
  exists title,
    Discovery.electiveSheetTitle Sample.gameTheoryNamed Sample.gameTheory
    = Some title /\
    Text.includes (Text.toLowerCase title) "game theory" = true.
Proof.
  apply (DiscoveryFacts.electiveSheetTitle_name_first Sample.gameTheoryNamed
           Sample.gameTheory "Game Theory roster").
  - reflexivity.
  - discriminate.
  - apply elem_of_cons. right. apply list_elem_of_singleton, eq_refl.
  - reflexivity.
Defined.

Lemma pickSheet_keyword_witness :
  Discovery.courseSheet Sample.workbook <> "" /\
  Text.includes (Text.toLowerCase (Discovery.courseSheet Sample.workbook))
    "details" = true.
Proof.
  destruct (DiscoveryFacts.pickSheet_keyword "details" 0 "Sheet1"
              Sample.workbook) as [H1 H2]; [discriminate..|].
  split; [exact H1|].
  apply (H2 "Course Details").
  - apply elem_of_cons. right. apply elem_of_cons. by left.
  - reflexivity.
Defined.

Lemma mapBack_elective_rows_witness :
  exists rg title,
    rg ∈ Sample.returned /\
    [Sample.rosterRow "asha@example.org" ""] = default [] (Discovery.values rg) /\
    ("GT", title) ∈ [("GT", "List of students GT")] /\
    Discovery.rangeHas (Discovery.range rg) title = true.
Proof.
  destruct (DiscoveryFacts.mapBack_elective_rows (Some "Section A")
              (Some "Section B") [("GT", "List of students GT")]
              Sample.returned "GT" [Sample.rosterRow "asha@example.org" ""]
              eq_refl)
    as (rg & title & H1 & H2 & H3 & H4 & _).
  exists rg, title. done.
Defined.

(** ** The dashboard *)

Section DashboardFacts.
Variable newDate : string -> option Z.
Variable parseInt : string -> option Z.
Variable makeDate : Z -> Z -> Z -> option Z.
Variable today : Z.

Local Abbreviation upcoming :=
  (filter (fun c => Is_true (isUpcoming newDate parseInt makeDate today c))).

Lemma groupStep_insert grouped c :
  groupStep grouped c
  = <[ date c := default [] (grouped !! date c) ++ [c] ]> grouped.
Proof.
  unfold groupStep. apply map_eq. intros k.
  destruct (decide (k = date c)) as [->|Hne].
  - rewrite lookup_insert_eq.
    destruct (grouped !! date c) as [l|] eqn:Hl.
    + by rewrite lookup_alter_eq, Hl.
    + by rewrite lookup_alter_eq, lookup_insert_eq.
  - rewrite lookup_insert_ne by done.
    destruct (grouped !! date c) as [l|] eqn:Hl.
    + by rewrite lookup_alter_ne.
    + by rewrite lookup_alter_ne, lookup_insert_ne.
Qed.

Lemma fold_groupStep_lookup l d : forall grouped,
  fold_left groupStep l grouped !! d
  = match default [] (grouped !! d) ++ filter (fun c => date c = d) l with
    | [] => grouped !! d
    | x :: rest => Some (x :: rest)
    end.
Proof.
  induction l as [|c l IH]; intros grouped; simpl.
  - rewrite app_nil_r. by destruct (grouped !! d) as [[|? ?]|].
  - rewrite IH, groupStep_insert.
    destruct (decide (date c = d)) as [Hd|Hd].
    + rewrite filter_cons_True by done. rewrite Hd, lookup_insert_eq. simpl.
      rewrite <- (assoc_L (++)). simpl.
      destruct (default [] (grouped !! d) ++ c :: filter _ l) as [|x rest] eqn:Heq;
        [|done].
      by apply app_eq_nil in Heq as [_ ?].
    + rewrite filter_cons_False by done. by rewrite lookup_insert_ne.
Qed.

(** X26.  In the upcoming view, the group shown under a date holds the
    user's sessions of that date, in the order of the list, whose date
    parses to today or later; a date with no such session has no group, so
    no group is empty. *)
Theorem groupedUpcoming_lookup myClasses d :
  groupedUpcoming newDate parseInt makeDate today myClasses !! d
  = match filter (fun c => date c = d) (upcoming myClasses) with
    | [] => None
    | x :: rest => Some (x :: rest)
    end.
Proof.
  unfold groupedUpcoming. rewrite fold_groupStep_lookup.
  by rewrite lookup_empty.
Qed.

End DashboardFacts.

Section SyncAndDashboard.
Variable parseDate : string -> option Z.
Variable parseInt : string -> option Z.
Variable makeDate : Z -> Z -> Z -> option Z.
Variable today : Z.

(** X27.  With one clock, and [new Date(s)] reading a text as
    [Date.parse(s)] does, every session the calendar run takes as dated
    today or later is shown in the upcoming view: the run handles a part
    of what the view shows, in the same order. *)
Theorem futureClasses_shown_upcoming classes :
  parseDate "" = None ->
  futureClasses parseDate today classes
  `sublist_of`
  filter (fun c => Is_true (isUpcoming parseDate parseInt makeDate today c))
         classes.
Proof.
  intros Hempty.
  assert (forall c, isFuture parseDate today c = true ->
                    isUpcoming parseDate parseInt makeDate today c = true) as Himp.
  { intros c. unfold isFuture, isUpcoming, parseSheetDate.
    destruct (parseDate (date c)) as [t|] eqn:Hd; [|done].
    case_bool_decide as He; [|done]. rewrite He in Hd. congruence. }
  unfold futureClasses.
  induction classes as [|c l IH]; [done|].
  destruct (isFuture parseDate today c) eqn:Hf.
  - rewrite !filter_cons_True; [|rewrite (Himp c Hf); exact I|rewrite Hf; exact I].
    by constructor.
  - rewrite (filter_cons_False _ c l) by (rewrite Hf; exact id).
    destruct (isUpcoming parseDate parseInt makeDate today c) eqn:Hu.
    + rewrite filter_cons_True by (rewrite Hu; exact I). by constructor.
    + rewrite filter_cons_False by (rewrite Hu; exact id). done.
Qed.

End SyncAndDashboard.

Lemma futureClasses_shown_upcoming_witness :
  futureClasses Sample.parseDate Sample.startOfToday
    [Sample.standing; Sample.unlabelled]
  `sublist_of`
  filter (fun c => Is_true (isUpcoming Sample.parseDate (fun _ => None)
                              (fun _ _ _ => None) Sample.startOfToday c))
         [Sample.standing; Sample.unlabelled].
Proof.
  apply (futureClasses_shown_upcoming Sample.parseDate (fun _ => None)
           (fun _ _ _ => None) Sample.startOfToday
           [Sample.standing; Sample.unlabelled]).
  reflexivity.
Defined.

(** ** The header row, continued *)

Module HeaderFacts.
Import Text Header.

Lemma chars_append s1 s2 : chars (s1 +:+ s2) = chars s1 ++ chars s2.
Proof. induction s1 as [|c s1 IH]; simpl; [done|]. by rewrite IH. Qed.

Lemma ofNat_digits n : Forall (fun c => isDigit c = true) (chars (ofNat n)).
Proof.
  unfold ofNat. generalize (Nat.to_uint n). intros d.
  induction d; simpl; constructor; done.
Qed.

Lemma minutesAt_colon l : minutesAt l = true -> ":"%char ∈ l.
Proof.
  destruct l as [|c [|a [|b r]]]; simpl; try done.
  intros [[[Hc%bool_decide_eq_true _]%andb_true_iff _]%andb_true_iff _]%andb_true_iff.
  subst. left.
Qed.

Lemma timeAt_colon l : timeAt l = true -> ":"%char ∈ l.
Proof.
  destruct l as [|d r]; simpl; [done|].
  intros [_ [H|H]%orb_true_iff]%andb_true_iff.
  - destruct r as [|d2 r2]; [done|].
    apply andb_true_iff in H as [_ H%minutesAt_colon]. by do 2 right.
  - right. by apply minutesAt_colon.
Qed.

Lemma hasTimeL_colon l : hasTimeL l = true -> ":"%char ∈ l.
Proof.
  induction l as [|c l IH].
  - simpl. done.
  - intros [H|H]%orb_true_iff.
    + by apply timeAt_colon.
    + right. by apply IH.
Qed.

Lemma fallback_chars n c :
  c ∈ chars ("Slot " +:+ ofNat n) -> c ∈ chars "Slot " \/ isDigit c = true.
Proof.
  rewrite chars_append. intros [H|H]%elem_of_app; [by left|right].
  pose proof (ofNat_digits n) as Hd. rewrite Forall_forall in Hd.
  by apply Hd.
Qed.

(** X28.  A slot column (index 3 or more) whose header cell is missing
    or has no text gets the label "Slot N", N being the column's index
    minus 2 (the first slot column, D, is "Slot 1"); the label holds no hyphen, so it is a time
    slot from which the calendar run cannot read a start and an end. *)
Theorem cleanSlot_empty_header i cell :
  3 <= i -> truthy (cellText cell) = false ->
  cleanSlot i cell = "Slot " +:+ ofNat (i - 2) /\
  "-"%char ∉ chars (cleanSlot i cell).
Proof.
  intros _ Ht.
  assert (cleanSlot i cell = "Slot " +:+ ofNat (i - 2)) as Heq.
  { unfold cleanSlot. unfold orElse. rewrite Ht. cbn [from_option]. unfold id.
    destruct (hasTimeL _) eqn:Hh; [|done].
    apply hasTimeL_colon, fallback_chars in Hh as [Hh|Hh]; [|done].
    exfalso. simpl in Hh.
    repeat (apply elem_of_cons in Hh as [Hh|Hh]; [discriminate Hh|]).
    by apply elem_of_nil in Hh. }
  split; [done|]. rewrite Heq.
  intros [Hh|Hh]%fallback_chars; [|done]. simpl in Hh.
  repeat (apply elem_of_cons in Hh as [Hh|Hh]; [discriminate Hh|]).
  by apply elem_of_nil in Hh.
Qed.

Lemma newlinesToSpacesL_free l :
  Forall (fun c => c <> newline) (newlinesToSpacesL l).
Proof.
  induction l as [|c l IH]; simpl; constructor; [|done].
  case_bool_decide; done.
Qed.

(** X29.  When the header text holds a time of day ("9:00 am", "12:30
    noon", ...), the label kept for the column is on one line and has no
    white space at either end. *)
Theorem cleanSlot_time i cell :
  hasTimeL (chars (default ("Slot " +:+ ofNat (i - 2))
                     (orElse (cellText cell)
                             (Some ("Slot " +:+ ofNat (i - 2)))))) = true ->
  trimmedText (cleanSlot i cell) /\ newline ∉ chars (cleanSlot i cell).
Proof.
  intros Hh. unfold cleanSlot. rewrite Hh. split; [apply trim_trimmed|].
  unfold trim at 1, newlinesToSpaces. rewrite !TextFacts.chars_str.
  intros Hin. unfold trimL, trimStartL in Hin.
  pose proof (NormalizeFacts.Forall_trimEnd _ _
                (NormalizeFacts.Forall_dropWhile _ isSpace _ (newlinesToSpacesL_free
                   (chars (trim (str (removeSlotLabelL
                      (chars (default ("Slot " +:+ ofNat (i - 2))
                         (orElse (cellText cell)
                            (Some ("Slot " +:+ ofNat (i - 2))))))))))))) as Hf.
  rewrite Forall_forall in Hf. by apply (Hf newline).
Qed.

End HeaderFacts.

Lemma cleanSlot_empty_header_witness :
  Header.cleanSlot 3 (Some Sample.blank) = "Slot 1" /\
  "-"%char ∉ Text.chars (Header.cleanSlot 3 (Some Sample.blank)).
Proof.
  exact (HeaderFacts.cleanSlot_empty_header 3 (Some Sample.blank)
           (le_n 3) eq_refl).
Defined.

Lemma cleanSlot_time_witness :
  let cell := Some (Sample.textCell ("Slot 1" +:+ String Text.newline "09:00 am - 10:15 am")) in
  Header.cleanSlot 3 cell = "09:00 am - 10:15 am" /\
  trimmedText (Header.cleanSlot 3 cell) /\
  Text.newline ∉ Text.chars (Header.cleanSlot 3 cell).
Proof.
  intros cell. split; [reflexivity|].
  exact (HeaderFacts.cleanSlot_time 3 cell eq_refl).
Defined.

(** ** The sync endpoint, continued *)

Section RouteMore.
Context {num : Type}.
Variable Number : option string -> num.
Variable parseDate : string -> option Z.
Variable setHours : Z -> num -> num -> option Z.
Variable now : Z.
Variable startOfToday : Z.

Local Abbreviation post := (POST Number parseDate setHours now startOfToday).

(** X30.  The handler starts a calendar run only for a session with an
    access token and an email, a configured spreadsheet and a schedule that
    was fetched.  When it answers with success, the run has completed and
    the count it reports is the number of the user's sessions, past and
    cancelled ones included: at least the number of calendar calls made,
    not that number. *)
Theorem POST_success session spreadsheetId fetched r :
  (forall run, (post session spreadsheetId fetched r).2 = Some run ->
     exists token mail data,
       session = Some (mkAuth (Some token) (Some mail)) /\
       token <> "" /\ mail <> "" /\ truthy spreadsheetId = true /\
       fetched = Some data) /\
  (forall n, (post session spreadsheetId fetched r).1 = Success n ->
     exists mail data run,
       session ≫= userEmail = Some mail /\ fetched = Some data /\
       (post session spreadsheetId fetched r).2 = Some run /\
       completed run = true /\
       n = length (myClasses mail data) /\ length (ops run) <= n).
Proof.
  unfold POST.
  destruct session as [[token mail]|]; [|by split].
  destruct (truthy token && truthy mail) eqn:Ht; [|by split].
  apply andb_true_iff in Ht as [Htok Hmail].
  destruct token as [token|]; [|done]. destruct mail as [mail|]; [|done].
  simpl in Htok, Hmail.
  apply negb_true_iff, bool_decide_eq_false in Htok, Hmail.
  destruct (truthy spreadsheetId) eqn:Hs; [|by split].
  destruct fetched as [data|]; [|by split].
  simpl.
  set (run := syncToCalendar _ _ _ _ _ _ _ _).
  split.
  - intros run' _. by exists token, mail, data.
  - intros n. destruct (completed run) eqn:Hc; [|done]. simpl.
    intros [= <-]. exists mail, data, run. split_and!; [done..|].
    unfold run, syncToCalendar.
    destruct (fold_syncStep_general Number parseDate setHours
                (dataCourses data)
                (existingMap (eventsList now r))
                (futureClasses parseDate startOfToday (myClasses mail data))
                (mkRun r [] true))
      as (_ & _ & _ & new & Hnew & Hlen & _).
    simpl in Hnew. rewrite Hnew. etrans; [exact Hlen|].
    apply length_filter.
Qed.

End RouteMore.

Lemma calculateStats_after_mark_witness :
  calculateStats Sample.sixSessions
    (handleMarkAttendance Sample.marks "GT-1" "Absent")
  = calculateStats Sample.sixSessions Sample.marks /\
  forall st,
    calculateStats Sample.sixSessions
      (handleMarkAttendance Sample.marks "DT-2" "Present") !! "DT" = Some st ->
    total st = 6 /\ attended st = 3 /\ leaves st = 0.
Proof.
  split.
  - apply (proj1 (calculateStats_after_mark Sample.sixSessions Sample.marks
                    "GT-1")).
    intros s Hin. vm_compute in Hin.
    repeat (apply elem_of_cons in Hin as [->|Hin]; [discriminate|]).
    by apply elem_of_nil in Hin.
  - intros st Hst.
    destruct (proj2 (calculateStats_after_mark Sample.sixSessions Sample.marks
                       "DT-2") "DT" st Hst) as (H1 & H2 & H3).
    rewrite H1, H2, H3. split_and!; reflexivity.
Defined.

Lemma POST_success_witness :
  let resp :=
    POST Sample.number Sample.parseDate Sample.setHours Sample.now
      Sample.startOfToday
      (Some (mkAuth (Some "token") (Some "asha@iimidr.ac.in")))
      (Some "sheet")
      (Some (mkData Sample.courses [Sample.ended; Sample.standing]
               [Sample.rosterRow "asha@iimidr.ac.in" "A"]))
      emptyRemote in
  resp.1 = Success 2 /\
  exists run, resp.2 = Some run /\ completed run = true /\ length (ops run) <= 2.
Proof.
  intros resp. split; [reflexivity|].
  destruct (proj2 (POST_success Sample.number Sample.parseDate Sample.setHours
                     Sample.now Sample.startOfToday
                     (Some (mkAuth (Some "token") (Some "asha@iimidr.ac.in")))
                     (Some "sheet")
                     (Some (mkData Sample.courses [Sample.ended; Sample.standing]
                              [Sample.rosterRow "asha@iimidr.ac.in" "A"]))
                     emptyRemote) 2 eq_refl)
    as (mail & data & run & _ & _ & Hrun & Hc & _ & Hlen).
  exists run. done.
Defined.
